(** * Intersection sync: a shallow embedding of the reconciliation engines

    The repository reconciles two collections of keyed records.  Two of its
    scripts carry the protocol the specification talks about:

    - [api_intersection_sync.py]: two mock REST servers, records are JSON
      objects kept in per-resource lists ([Module Api]);
    - [database_intersection_sync.py]: two SQLite files with one table
      [users] ([Module Db]).

    Both compute a three-way partition of the keys, detect conflicts by
    comparing MD5 fingerprints and then resolve and propagate.

    Conventions of the embedding:
    - a Python [str] is a Rocq [string] whose characters are the code points
      U+0000..U+00FF, so that comparison of strings is comparison of code
      points; [encode] is UTF-8 on that range;
    - a JSON value ([Any] in the source) is [pyval]: [None], booleans,
      integers, strings, lists and insertion-ordered dictionaries (floats are
      outside the model);
    - a raised exception is a [None]/[inl] result; the [try]/[except] blocks
      of the source are the matches on those results;
    - a Python [set] of strings has no specified iteration order: every loop
      over such a set goes through the parameter [iter_set];
    - [datetime.fromisoformat(..).timestamp()] is a parameter
      ([iso_timestamp]); [iso_utc] is one concrete instance used in examples. *)

From Stdlib Require Import ZArith Ascii String.
From stdpp Require Import gmap strings list sorting pretty.

#[local] Set Warnings "-register-all,-clear-no-such-hyp".
#[local] Open Scope Z_scope.

(** ** hashlib.md5 (RFC 1321), on bytes given as integers 0..255 *)

Module MD5.

Definition mask32 (x : Z) : Z := Z.land x 0xffffffff.
Definition add32 (x y : Z) : Z := mask32 (x + y).
Definition rotl32 (x : Z) (c : Z) : Z :=
  mask32 (Z.lor (Z.shiftl x c) (Z.shiftr x (32 - c))).
Definition not32 (x : Z) : Z := Z.lxor x 0xffffffff.

(** floor(2^32 * |sin(i+1)|) *)
Definition K : list Z :=
  [0xd76aa478; 0xe8c7b756; 0x242070db; 0xc1bdceee;
   0xf57c0faf; 0x4787c62a; 0xa8304613; 0xfd469501;
   0x698098d8; 0x8b44f7af; 0xffff5bb1; 0x895cd7be;
   0x6b901122; 0xfd987193; 0xa679438e; 0x49b40821;
   0xf61e2562; 0xc040b340; 0x265e5a51; 0xe9b6c7aa;
   0xd62f105d; 0x02441453; 0xd8a1e681; 0xe7d3fbc8;
   0x21e1cde6; 0xc33707d6; 0xf4d50d87; 0x455a14ed;
   0xa9e3e905; 0xfcefa3f8; 0x676f02d9; 0x8d2a4c8a;
   0xfffa3942; 0x8771f681; 0x6d9d6122; 0xfde5380c;
   0xa4beea44; 0x4bdecfa9; 0xf6bb4b60; 0xbebfbc70;
   0x289b7ec6; 0xeaa127fa; 0xd4ef3085; 0x04881d05;
   0xd9d4d039; 0xe6db99e5; 0x1fa27cf8; 0xc4ac5665;
   0xf4292244; 0x432aff97; 0xab9423a7; 0xfc93a039;
   0x655b59c3; 0x8f0ccc92; 0xffeff47d; 0x85845dd1;
   0x6fa87e4f; 0xfe2ce6e0; 0xa3014314; 0x4e0811a1;
   0xf7537e82; 0xbd3af235; 0x2ad7d2bb; 0xeb86d391].

(** per-round left rotations *)
Definition SHIFT : list Z :=
  [7; 12; 17; 22; 7; 12; 17; 22; 7; 12; 17; 22; 7; 12; 17; 22;
   5; 9; 14; 20; 5; 9; 14; 20; 5; 9; 14; 20; 5; 9; 14; 20;
   4; 11; 16; 23; 4; 11; 16; 23; 4; 11; 16; 23; 4; 11; 16; 23;
   6; 10; 15; 21; 6; 10; 15; 21; 6; 10; 15; 21; 6; 10; 15; 21].

Definition nthZ (l : list Z) (i : nat) : Z := nth i l 0.

(** the [w] low bytes of [x], least significant first *)
Fixpoint le_bytes (w : nat) (x : Z) : list Z :=
  match w with
  | O => []
  | S w' => Z.land x 0xff :: le_bytes w' (Z.shiftr x 8)
  end.

Fixpoint le_word (bs : list Z) : Z :=
  match bs with
  | [] => 0
  | b :: bs' => Z.lor b (Z.shiftl (le_word bs') 8)
  end.

(** one 1-bit, zeros up to 56 mod 64, then the bit length on 64 bits *)
Definition pad (msg : list Z) : list Z :=
  let n := Z.of_nat (List.length msg) in
  msg ++ [0x80] ++ repeat 0 (Z.to_nat ((55 - n) mod 64))
      ++ le_bytes 8 (Z.land (8 * n) 0xffffffffffffffff).

Fixpoint chunks (fuel : nat) (k : nat) (l : list Z) : list (list Z) :=
  match fuel with
  | O => []
  | S fuel' =>
      match l with
      | [] => []
      | _ => take k l :: chunks fuel' k (drop k l)
      end
  end.

Definition words (block : list Z) : list Z := map le_word (chunks 16 4 block).

Definition round (M : list Z) (st : Z * Z * Z * Z) (i : nat) : Z * Z * Z * Z :=
  let '(a, b, c, d) := st in
  let '(f, g) :=
    if (i <? 16)%nat then
      (Z.lor (Z.land b c) (Z.land (not32 b) d), i)
    else if (i <? 32)%nat then
      (Z.lor (Z.land d b) (Z.land (not32 d) c), ((5 * i + 1) mod 16)%nat)
    else if (i <? 48)%nat then
      (Z.lxor (Z.lxor b c) d, ((3 * i + 5) mod 16)%nat)
    else
      (Z.lxor c (Z.lor b (not32 d)), ((7 * i) mod 16)%nat) in
  let f' := add32 (add32 (add32 f a) (nthZ K i)) (nthZ M g) in
  (d, add32 b (rotl32 f' (nthZ SHIFT i)), b, c).

Definition process (st : Z * Z * Z * Z) (block : list Z) : Z * Z * Z * Z :=
  let M := words block in
  let '(a0, b0, c0, d0) := st in
  let '(a, b, c, d) := fold_left (round M) (seq 0 64) st in
  (add32 a0 a, add32 b0 b, add32 c0 c, add32 d0 d).

Definition digest (msg : list Z) : list Z :=
  let p := pad msg in
  let '(a, b, c, d) :=
    fold_left process (chunks (List.length p) 64 p)
      (0x67452301, 0xefcdab89, 0x98badcfe, 0x10325476) in
  le_bytes 4 a ++ le_bytes 4 b ++ le_bytes 4 c ++ le_bytes 4 d.

End MD5.

(** ** Python values, str.encode, json.dumps *)

Module Py.

Inductive pyval :=
| JNull
| JBool (b : bool)
| JInt (n : Z)
| JStr (s : string)
| JList (l : list pyval)
| JDict (d : list (string * pyval)).

(** an insertion-ordered [dict] with [str] keys; keys are unique in a
    well-formed dictionary ([wf_dict] below) *)
Definition pydict : Type := list (string * pyval).

Definition keys (d : pydict) : list string := map fst d.

Fixpoint dict_get (k : string) (d : pydict) : option pyval :=
  match d with
  | [] => None
  | (k', v) :: d' => if String.eqb k k' then Some v else dict_get k d'
  end.

(** [d.get(k, default)] *)
Definition get_default (k : string) (d : pydict) (default : pyval) : pyval :=
  match dict_get k d with Some v => v | None => default end.

(** [d.get(k)] *)
Definition get (k : string) (d : pydict) : pyval := get_default k d JNull.

(** [a == b] of Python: [bool] is a subtype of [int], lists compare
    element-wise, dictionaries as mappings *)
Fixpoint py_eq (a b : pyval) : bool :=
  match a, b with
  | JNull, JNull => true
  | JBool x, JBool y => Bool.eqb x y
  | JBool x, JInt n => n =? (if x then 1 else 0)
  | JInt n, JBool x => n =? (if x then 1 else 0)
  | JInt n, JInt m => n =? m
  | JStr s, JStr t => String.eqb s t
  | JList l, JList l' =>
      (fix go (l l' : list pyval) : bool :=
         match l, l' with
         | [], [] => true
         | x :: l, y :: l' => py_eq x y && go l l'
         | _, _ => false
         end) l l'
  | JDict d, JDict d' =>
      (List.length d =? List.length d')%nat &&
      (fix go (d : list (string * pyval)) : bool :=
         match d with
         | [] => true
         | (k, v) :: d =>
             match dict_get k d' with
             | Some v' => py_eq v v'
             | None => false
             end && go d
         end) d
  | _, _ => false
  end.

Definition code (c : ascii) : Z := Z.of_nat (nat_of_ascii c).
Definition chr (n : Z) : ascii := ascii_of_nat (Z.to_nat n).

(** [s.encode()]: UTF-8 *)
Fixpoint encode (s : string) : list Z :=
  match s with
  | EmptyString => []
  | String c s' =>
      let n := code c in
      if n <? 128 then n :: encode s'
      else Z.lor 0xc0 (Z.shiftr n 6) :: Z.lor 0x80 (Z.land n 0x3f) :: encode s'
  end.

Definition hex_digit (n : Z) : ascii :=
  chr (if n <? 10 then 48 + n else 87 + n).

Definition hex2 (b : Z) : string :=
  String (hex_digit (Z.shiftr b 4)) (String (hex_digit (Z.land b 0xf)) EmptyString).

(** [hashlib.md5(bs).hexdigest()] *)
Definition md5_hexdigest (bs : list Z) : string :=
  fold_right (fun b acc => hex2 b +:+ acc) EmptyString (MD5.digest bs).

Definition dquote : string := String (chr 34) EmptyString.

(** the encoder's escapes with [ensure_ascii=True] *)
Definition escape_char (c : ascii) : string :=
  let n := code c in
  if n =? 34 then "\" +:+ dquote
  else if n =? 92 then "\\"
  else if n =? 10 then "\n"
  else if n =? 13 then "\r"
  else if n =? 9 then "\t"
  else if n =? 8 then "\b"
  else if n =? 12 then "\f"
  else if (32 <=? n) && (n <=? 126) then String c EmptyString
  else "\u00" +:+ hex2 n.

Fixpoint escape (s : string) : string :=
  match s with
  | EmptyString => EmptyString
  | String c s' => escape_char c +:+ escape s'
  end.

Definition dumps_str (s : string) : string := dquote +:+ escape s +:+ dquote.

Fixpoint join (sep : string) (l : list string) : string :=
  match l with
  | [] => EmptyString
  | [x] => x
  | x :: l' => x +:+ sep +:+ join sep l'
  end.

(** order of [sort_keys=True]: items compared by their key *)
Definition key_le (x y : string * string) : Prop := String.le x.1 y.1.

#[global] Instance key_le_dec : RelDecision key_le.
Proof. intros x y. unfold key_le. apply _. Defined.

Definition render_item (kv : string * string) : string :=
  dumps_str kv.1 +:+ ":" +:+ kv.2.

(** [json.dumps(v, sort_keys=True, separators=(',', ':'))] *)
Fixpoint dumps (v : pyval) : string :=
  match v with
  | JNull => "null"
  | JBool true => "true"
  | JBool false => "false"
  | JInt n => pretty n
  | JStr s => dumps_str s
  | JList l => "[" +:+ join "," (map dumps l) +:+ "]"
  | JDict d =>
      "{" +:+ join ","
        (map render_item
           (merge_sort key_le (map (fun '(k, v) => (k, dumps v)) d))) +:+ "}"
  end.

(** [s.replace(c, by)] for a one-character pattern *)
Fixpoint replace_char (c : ascii) (by_ : string) (s : string) : string :=
  match s with
  | EmptyString => EmptyString
  | String c' s' =>
      (if Ascii.eqb c c' then by_ else String c' EmptyString)
        +:+ replace_char c by_ s'
  end.

(** well-formed values: no dictionary holds a key twice *)
Inductive wf : pyval -> Prop :=
| wf_null : wf JNull
| wf_bool b : wf (JBool b)
| wf_int n : wf (JInt n)
| wf_str s : wf (JStr s)
| wf_list l : Forall wf l -> wf (JList l)
| wf_dict_ d : NoDup (map fst d) -> Forall (fun kv => wf kv.2) d -> wf (JDict d).

(** the same value up to the insertion order of dictionaries, at any depth *)
Inductive reordered : pyval -> pyval -> Prop :=
| ro_null : reordered JNull JNull
| ro_bool b : reordered (JBool b) (JBool b)
| ro_int n : reordered (JInt n) (JInt n)
| ro_str s : reordered (JStr s) (JStr s)
| ro_list l l' : Forall2 reordered l l' -> reordered (JList l) (JList l')
| ro_dict d d' d'' :
    Forall2 (fun kv kv' => kv.1 = kv'.1 /\ reordered kv.2 kv'.2) d d' ->
    Permutation d' d'' ->
    reordered (JDict d) (JDict d'').

End Py.

(** ** api_intersection_sync.py *)

Module Api.
Import Py.

Inductive exn :=
| KeyError (key : string).

(** [dataclass APIRecord] *)
Record APIRecord := mkAPIRecord {
  id : string;
  data : pydict;
  last_modified : pyval;
  checksum : string;
  source_api : string }.

(** [APIRecord.calculate_checksum] *)
Definition calculate_checksum (d : pydict) : string :=
  md5_hexdigest (encode (dumps (JDict d))).

(** the generated constructor followed by [__post_init__] *)
Definition new_APIRecord (i : string) (d : pydict) (lm : pyval)
    (cs : string) (src : string) : APIRecord :=
  {| id := i; data := d; last_modified := lm;
     checksum := if String.eqb cs "" then calculate_checksum d else cs;
     source_api := src |}.

(** [MockAPIServer.data]: resource type to the list of its records *)
Abbreviation api_data := (gmap string (list pydict)).

(** [record["id"]]; [APIRecord.id] is declared [str] *)
Definition record_id (r : pydict) : option string :=
  match dict_get "id" r with
  | Some (JStr s) => Some s
  | _ => None
  end.

(** [APIRecord(id=record["id"], data=record,
      last_modified=record.get("last_login", record.get("created_at", "")),
      source_api=src)] *)
Definition make_record (src : string) (i : string) (r : pydict) : APIRecord :=
  new_APIRecord i r
    (get_default "last_login" r (get_default "created_at" r (JStr ""))) "" src.

(** the dict comprehension [{record["id"]: APIRecord(..) for record in l}]:
    a later record replaces an earlier one under the same id *)
Fixpoint build_records (src : string) (l : list pydict)
    (acc : gmap string APIRecord) : option (gmap string APIRecord) :=
  match l with
  | [] => Some acc
  | r :: l' =>
      match record_id r with
      | None => None
      | Some i => build_records src l' (<[i := make_record src i r]> acc)
      end
  end.

(** one entry of the dictionary returned by [scan_intersections] *)
Record scan_result := mkScan {
  common_records : gset string;
  api1_only : gset string;
  api2_only : gset string;
  api1_data : gmap string APIRecord;
  api2_data : gmap string APIRecord }.

(** [_fetch_api_data]: a shallow copy of the server's dictionary *)
Definition _fetch_api_data (api : api_data) : api_data := api.

(** body of the loop of [scan_intersections] for one resource type *)
Definition scan_resource (l1 l2 : list pydict) : option scan_result :=
  match build_records "API-1" l1 ∅, build_records "API-2" l2 ∅ with
  | Some api1_records, Some api2_records =>
      Some {| common_records := dom api1_records ∩ dom api2_records;
              api1_only := dom api1_records ∖ dom api2_records;
              api2_only := dom api2_records ∖ dom api1_records;
              api1_data := api1_records;
              api2_data := api2_records |}
  | _, _ => None
  end.

Fixpoint scan_loop (api1_data api2_data : api_data) (rts : list string)
    (intersections : list (string * scan_result))
    : option (list (string * scan_result)) :=
  match rts with
  | [] => Some intersections
  | resource_type :: rts' =>
      match api1_data !! resource_type, api2_data !! resource_type with
      | Some l1, Some l2 =>
          match scan_resource l1 l2 with
          | Some r =>
              scan_loop api1_data api2_data rts'
                (intersections ++ [(resource_type, r)])
          | None => None
          end
      | _, _ => scan_loop api1_data api2_data rts' intersections
      end
  end.

(** [scan_intersections]; [None] when a record has no [id] *)
Definition scan_intersections (api1 api2 : api_data)
    : option (list (string * scan_result)) :=
  scan_loop (_fetch_api_data api1) (_fetch_api_data api2) ["users"; "orders"] [].

Definition conflict : Type := string * APIRecord * APIRecord.

Definition conflict_id (c : conflict) : string := c.1.1.

(** [x in l] for a list of records *)
Definition list_contains (x : pyval) (l : list pydict) : bool :=
  existsb (fun e => py_eq x (JDict e)) l.

(** the [for i, existing_record in enumerate(..)] loop of
    [_update_api_record] *)
Fixpoint replace_existing (i : string) (d : pydict) (l : list pydict)
    : exn + list pydict :=
  match l with
  | [] => inr []
  | existing_record :: l' =>
      match dict_get "id" existing_record with
      | None => inl (KeyError "id")
      | Some v =>
          if py_eq v (JStr i) then inr (d :: l')
          else
            match replace_existing i d l' with
            | inl e => inl e
            | inr l'' => inr (existing_record :: l'')
            end
      end
  end.

(** [_update_api_record] *)
Definition _update_api_record (target : api_data) (resource_type : string)
    (record : APIRecord) : exn + api_data :=
  match target !! resource_type with
  | None => inl (KeyError resource_type)
  | Some l =>
      if negb (list_contains (JStr (id record)) l) then
        inr (<[resource_type := l ++ [data record]]> target)
      else
        match replace_existing (id record) (data record) l with
        | inl e => inl e
        | inr l' => inr (<[resource_type := l']> target)
        end
  end.

Record stats_t := mkStats {
  updated : nat;
  created : nat;
  errors : nat;
  skipped : nat }.

Definition stats0 : stats_t :=
  {| updated := 0; created := 0; errors := 0; skipped := 0 |}.

(** the entries appended to [self.sync_log] *)
Inductive log_entry :=
| Updated (resource_type record_id : string) (why : string)
| Skipped (resource_type record_id : string) (why : string)
| ErrorSyncing (resource_type record_id : string) (e : exn)
| Created (resource_type record_id : string) (where_ : string)
| ErrorCreating (resource_type record_id : string) (e : exn).

(** the two servers, the counters of the running call and the log *)
Record state := mkState {
  api1 : api_data;
  api2 : api_data;
  stats : stats_t;
  sync_log : list log_entry }.

Definition add_updated (st : stats_t) : stats_t :=
  {| updated := S (updated st); created := created st;
     errors := errors st; skipped := skipped st |}.
Definition add_created (st : stats_t) : stats_t :=
  {| updated := updated st; created := S (created st);
     errors := errors st; skipped := skipped st |}.
Definition add_errors (st : stats_t) : stats_t :=
  {| updated := updated st; created := created st;
     errors := S (errors st); skipped := skipped st |}.
Definition add_skipped (st : stats_t) : stats_t :=
  {| updated := updated st; created := created st;
     errors := errors st; skipped := S (skipped st) |}.

(** the [except Exception as e] handlers: count, log, go on *)
Definition on_error (s : state) (entry : log_entry) : state :=
  {| api1 := api1 s; api2 := api2 s; stats := add_errors (stats s);
     sync_log := sync_log s ++ [entry] |}.

(** a successful write into API-2, resp. API-1 *)
Definition wrote2 (s : state) (a2 : api_data) (f : stats_t -> stats_t)
    (entry : log_entry) : state :=
  {| api1 := api1 s; api2 := a2; stats := f (stats s);
     sync_log := sync_log s ++ [entry] |}.
Definition wrote1 (s : state) (a1 : api_data) (f : stats_t -> stats_t)
    (entry : log_entry) : state :=
  {| api1 := a1; api2 := api2 s; stats := f (stats s);
     sync_log := sync_log s ++ [entry] |}.

Section Engine.

(** the order in which a loop visits a set of strings *)
Context (iter_set : gset string -> list string).
(** [datetime.fromisoformat(s).timestamp()], in microseconds;
    [None] when it raises *)
Context (iso_timestamp : string -> option Z).

(** [_get_different_fields] *)
Definition _get_different_fields (data1 data2 : pydict) : list string :=
  let all_keys : gset string :=
    list_to_set (keys data1) ∪ list_to_set (keys data2) in
  List.filter (fun key => negb (py_eq (get key data1) (get key data2)))
    (iter_set all_keys).

(** body of the inner loop of [detect_conflicts]; [None] is a [KeyError]
    that nothing catches *)
Fixpoint detect_loop (d : scan_result) (ids : list string)
    (conflicts : list conflict) : option (list conflict) :=
  match ids with
  | [] => Some conflicts
  | record_id :: ids' =>
      match api1_data d !! record_id, api2_data d !! record_id with
      | Some api1_record, Some api2_record =>
          if negb (String.eqb (checksum api1_record) (checksum api2_record))
          then detect_loop d ids'
                 (conflicts ++ [(record_id, api1_record, api2_record)])
          else detect_loop d ids' conflicts
      | _, _ => None
      end
  end.

Definition detect_resource (d : scan_result) : option (list conflict) :=
  detect_loop d (iter_set (common_records d)) [].

Fixpoint detect_conflicts_loop (intersections : list (string * scan_result))
    (conflicts : gmap string (list conflict))
    : option (gmap string (list conflict)) :=
  match intersections with
  | [] => Some conflicts
  | (resource_type, d) :: rest =>
      match detect_resource d with
      | Some cs => detect_conflicts_loop rest (<[resource_type := cs]> conflicts)
      | None => None
      end
  end.

(** [detect_conflicts] *)
Definition detect_conflicts (intersections : list (string * scan_result))
    : option (gmap string (list conflict)) :=
  detect_conflicts_loop intersections ∅.

(** [_parse_timestamp]; the bare [except] turns every failure, also the
    [AttributeError] of a value that is no string, into [0.0] *)
Definition _parse_timestamp (timestamp_str : pyval) : Z :=
  match timestamp_str with
  | JStr s =>
      match iso_timestamp (replace_char "Z" "+00:00" s) with
      | Some t => t
      | None => 0
      end
  | _ => 0
  end.

(** step 1 of [sync_intersections] for one conflict: the [try] block and
    its handler *)
Definition resolve_conflict (strategy resource_type : string) (s : state)
    (c : conflict) : state :=
  let '(record_id, api1_record, api2_record) := c in
  if String.eqb strategy "latest_wins" then
    if _parse_timestamp (last_modified api2_record)
         <? _parse_timestamp (last_modified api1_record)
    then
      match _update_api_record (api2 s) resource_type api1_record with
      | inr a2 =>
          wrote2 s a2 add_updated (Updated resource_type record_id "API-1 newer")
      | inl e => on_error s (ErrorSyncing resource_type record_id e)
      end
    else
      {| api1 := api1 s; api2 := api2 s; stats := add_skipped (stats s);
         sync_log := sync_log s
                       ++ [Skipped resource_type record_id "API-2 newer"] |}
  else if String.eqb strategy "api1_wins" then
    match _update_api_record (api2 s) resource_type api1_record with
    | inr a2 =>
        wrote2 s a2 add_updated (Updated resource_type record_id "API-1 wins")
    | inl e => on_error s (ErrorSyncing resource_type record_id e)
    end
  else if String.eqb strategy "api2_wins" then
    match _update_api_record (api1 s) resource_type api2_record with
    | inr a1 =>
        wrote1 s a1 add_updated (Updated resource_type record_id "API-2 wins")
    | inl e => on_error s (ErrorSyncing resource_type record_id e)
    end
  else s.

(** step 2 for one key of [api1_only] *)
Definition create_in_api2 (resource_type : string) (d : scan_result)
    (s : state) (record_id : string) : state :=
  match api1_data d !! record_id with
  | None => on_error s (ErrorCreating resource_type record_id (KeyError record_id))
  | Some api1_record =>
      match _update_api_record (api2 s) resource_type api1_record with
      | inr a2 => wrote2 s a2 add_created (Created resource_type record_id "API-2")
      | inl e => on_error s (ErrorCreating resource_type record_id e)
      end
  end.

(** step 3 for one key of [api2_only] *)
Definition create_in_api1 (resource_type : string) (d : scan_result)
    (s : state) (record_id : string) : state :=
  match api2_data d !! record_id with
  | None => on_error s (ErrorCreating resource_type record_id (KeyError record_id))
  | Some api2_record =>
      match _update_api_record (api1 s) resource_type api2_record with
      | inr a1 => wrote1 s a1 add_created (Created resource_type record_id "API-1")
      | inl e => on_error s (ErrorCreating resource_type record_id e)
      end
  end.

(** body of the outer loop of [sync_intersections] for one resource type *)
Definition sync_resource (strategy resource_type : string) (d : scan_result)
    (conflicts : list conflict) (s : state) : state :=
  let s1 := fold_left (resolve_conflict strategy resource_type) conflicts s in
  let s2 := fold_left (create_in_api2 resource_type d) (iter_set (api1_only d)) s1 in
  fold_left (create_in_api1 resource_type d) (iter_set (api2_only d)) s2.

(** [sync_intersections]: the counters start at zero, the log is the
    object's *)
Definition sync_intersections (intersections : list (string * scan_result))
    (conflicts : gmap string (list conflict)) (strategy : string)
    (api1_0 api2_0 : api_data) (log0 : list log_entry) : state :=
  fold_left
    (fun s '(resource_type, d) =>
       sync_resource strategy resource_type d
         (default [] (conflicts !! resource_type)) s)
    intersections
    {| api1 := api1_0; api2 := api2_0; stats := stats0; sync_log := log0 |}.

(** scan, detect, resolve on one resource type *)
Definition run_resource (strategy resource_type : string) (s : state)
    : option (scan_result * list conflict * state) :=
  match api1 s !! resource_type, api2 s !! resource_type with
  | Some l1, Some l2 =>
      match scan_resource l1 l2 with
      | Some d =>
          match detect_resource d with
          | Some cs =>
              Some (d, cs,
                    sync_resource strategy resource_type d cs
                      {| api1 := api1 s; api2 := api2 s; stats := stats0;
                         sync_log := sync_log s |})
          | None => None
          end
      | None => None
      end
  | _, _ => None
  end.

(** the three calls of [main], with the strategy as a parameter *)
Definition run (strategy : string) (api1_0 api2_0 : api_data)
    (log0 : list log_entry) : option state :=
  match scan_intersections api1_0 api2_0 with
  | Some intersections =>
      match detect_conflicts intersections with
      | Some conflicts =>
          Some (sync_intersections intersections conflicts strategy
                  api1_0 api2_0 log0)
      | None => None
      end
  | None => None
  end.

End Engine.

End Api.

(** ** One instance of [iso_timestamp]

    [iso_utc] reads the shape [YYYY-MM-DDTHH:MM:SS+00:00], on which it agrees
    with [datetime.fromisoformat(s).timestamp()], and is [None] elsewhere. *)

Module Iso.

Definition digit (c : ascii) : option Z :=
  let n := Py.code c in
  if (48 <=? n) && (n <=? 57) then Some (n - 48) else None.

Fixpoint number (acc : Z) (cs : list ascii) : option Z :=
  match cs with
  | [] => Some acc
  | c :: cs' =>
      match digit c with
      | Some d => number (10 * acc + d) cs'
      | None => None
      end
  end.

Definition is_leap (y : Z) : bool :=
  ((y mod 4 =? 0) && negb (y mod 100 =? 0)) || (y mod 400 =? 0).

Definition days_in_month (y m : Z) : Z :=
  if m =? 2 then (if is_leap y then 29 else 28)
  else if (m =? 4) || (m =? 6) || (m =? 9) || (m =? 11) then 30
  else 31.

(** days from 1970-01-01 to the given civil date *)
Definition days_from_civil (y m d : Z) : Z :=
  let y' := if m <=? 2 then y - 1 else y in
  let era := y' / 400 in
  let yoe := y' - era * 400 in
  let doy := (153 * (if 2 <? m then m - 3 else m + 9) + 2) / 5 + d - 1 in
  let doe := yoe * 365 + yoe / 4 - yoe / 100 + doy in
  era * 146097 + doe - 719468.

Definition iso_utc (s : string) : option Z :=
  match list_ascii_of_string s with
  | [y1; y2; y3; y4; "-"%char; m1; m2; "-"%char; d1; d2; "T"%char;
     h1; h2; ":"%char; n1; n2; ":"%char; s1; s2;
     "+"%char; "0"%char; "0"%char; ":"%char; "0"%char; "0"%char] =>
      match number 0 [y1; y2; y3; y4], number 0 [m1; m2], number 0 [d1; d2],
            number 0 [h1; h2], number 0 [n1; n2], number 0 [s1; s2] with
      | Some y, Some m, Some d, Some h, Some n, Some sec =>
          if (1 <=? y) && (1 <=? m) && (m <=? 12) && (1 <=? d)
             && (d <=? days_in_month y m) && (h <? 24) && (n <? 60)
             && (sec <? 60)
          then Some ((days_from_civil y m d * 86400 + h * 3600 + n * 60 + sec)
                     * 1000000)
          else None
      | _, _, _, _, _, _ => None
      end
  | _ => None
  end.

End Iso.

(** ** database_intersection_sync.py *)

Module Db.
Import Py.

Inductive exn :=
| IntegrityError (column : string)
| TypeError
| StopIteration.

(** a TEXT column that admits NULL; Python reads NULL as [None] *)
Definition sqltext : Type := option string.

(** [f"{x}"] *)
Definition fmt (x : sqltext) : string := default "None" x.

(** [dataclass Record] *)
Record Record_ := mkRecord {
  id : Z;
  name : string;
  email : sqltext;
  phone : sqltext;
  last_updated : sqltext;
  checksum : string }.

(** [Record.calculate_checksum] *)
Definition calculate_checksum (name : string) (email phone last_updated : sqltext)
    : string :=
  md5_hexdigest
    (encode (name +:+ "|" +:+ fmt email +:+ "|" +:+ fmt phone
               +:+ "|" +:+ fmt last_updated)).

(** the generated constructor followed by [__post_init__] *)
Definition new_Record (i : Z) (n : string) (e p lu : sqltext) (cs : string)
    : Record_ :=
  {| id := i; name := n; email := e; phone := p; last_updated := lu;
     checksum := if String.eqb cs "" then calculate_checksum n e p lu else cs |}.

Definition sqltext_eqb (x y : sqltext) : bool :=
  match x, y with
  | None, None => true
  | Some a, Some b => String.eqb a b
  | _, _ => false
  end.

(** the generated [__eq__]: the tuples of all fields *)
Definition Record_eqb (a b : Record_) : bool :=
  (id a =? id b) && String.eqb (name a) (name b)
  && sqltext_eqb (email a) (email b) && sqltext_eqb (phone a) (phone b)
  && sqltext_eqb (last_updated a) (last_updated b)
  && String.eqb (checksum a) (checksum b).

(** a row of the table
    [users (id INTEGER PRIMARY KEY, name TEXT NOT NULL, email TEXT UNIQUE,
            phone TEXT, last_updated TEXT)] *)
Record row := mkRow {
  row_id : Z;
  row_name : string;
  row_email : sqltext;
  row_phone : sqltext;
  row_last_updated : sqltext }.

(** a database file: the rows of [users] in rowid order *)
Definition table : Type := list row.

(** two values that the UNIQUE constraint on [email] forbids together;
    NULLs never clash *)
Definition email_clash (x y : sqltext) : bool :=
  match x, y with
  | Some a, Some b => String.eqb a b
  | _, _ => false
  end.

(** the table constraints: ascending distinct ids, distinct emails *)
Fixpoint table_okb (t : table) : bool :=
  match t with
  | [] => true
  | r :: t' =>
      forallb (fun r' => (row_id r <? row_id r')
                         && negb (email_clash (row_email r) (row_email r'))) t'
      && table_okb t'
  end.

Definition row_of (r : Record_) : row :=
  {| row_id := id r; row_name := name r; row_email := email r;
     row_phone := phone r; row_last_updated := last_updated r |}.

(** [_load_records]: [SELECT id, name, email, phone, last_updated FROM users] *)
Definition _load_records (db : table) : list Record_ :=
  map (fun r => new_Record (row_id r) (row_name r) (row_email r) (row_phone r)
                  (row_last_updated r) "") db.

(** [UPDATE users SET name=?, email=?, phone=?, last_updated=? WHERE id=?] *)
Definition _update_record (db : table) (record : Record_) : exn + table :=
  if existsb (fun r => row_id r =? id record) db then
    if existsb (fun r => negb (row_id r =? id record)
                         && email_clash (row_email r) (email record)) db
    then inl (IntegrityError "users.email")
    else inr (map (fun r => if row_id r =? id record then row_of record else r) db)
  else inr db.

Fixpoint insert_row (x : row) (t : table) : table :=
  match t with
  | [] => [x]
  | r :: t' => if row_id x <? row_id r then x :: t else r :: insert_row x t'
  end.

(** [INSERT OR REPLACE INTO users (id, name, email, phone, last_updated)
     VALUES (?, ?, ?, ?, ?)]: the rows that clash on the primary key or on
    the unique email are deleted, then the row is inserted *)
Definition _insert_record (db : table) (record : Record_) : exn + table :=
  inr (insert_row (row_of record)
         (List.filter
            (fun r => negb (row_id r =? id record)
                      && negb (email_clash (row_email r) (email record))) db)).

(** [{"source": .., "target": ..}] *)
Record pair := mkPair {
  source : Record_;
  target : Record_ }.

(** [d[k] = v] on an insertion-ordered dictionary *)
Fixpoint dict_set {V} (k : Z) (v : V) (d : list (Z * V)) : list (Z * V) :=
  match d with
  | [] => [(k, v)]
  | (k', v') :: d' => if k =? k' then (k, v) :: d' else (k', v') :: dict_set k v d'
  end.

(** the dictionary returned by [scan_intersections] *)
Record scan_result := mkScan {
  source_only : list Record_;
  target_only : list Record_;
  intersection : list (Z * pair) }.

(** the three sets of ids of [scan_intersections] *)
Record partition := mkPartition {
  intersection_ids : gset Z;
  only_source : gset Z;
  only_target : gset Z }.

Definition ids_partition (source_records target_records : list Record_)
    : partition :=
  let source_ids : gset Z := list_to_set (map id source_records) in
  let target_ids : gset Z := list_to_set (map id target_records) in
  {| intersection_ids := source_ids ∩ target_ids;
     only_source := source_ids ∖ target_ids;
     only_target := target_ids ∖ source_ids |}.

(** the dict comprehension building ["intersection"]; in
    [next(r for r in source_records if r.id == r.id)] the generator's own
    [r] hides the comprehension's, so the test compares a record with
    itself *)
Fixpoint build_intersection (source_records target_records : list Record_)
    (intersection_ids : gset Z) (rs : list Record_) (acc : list (Z * pair))
    : exn + list (Z * pair) :=
  match rs with
  | [] => inr acc
  | r :: rs' =>
      if decide (id r ∈ intersection_ids) then
        match List.find (fun r => id r =? id r) source_records,
              List.find (fun r => id r =? id r) target_records with
        | Some s, Some t =>
            build_intersection source_records target_records intersection_ids
              rs' (dict_set (id r) {| source := s; target := t |} acc)
        | _, _ => inl StopIteration
        end
      else
        build_intersection source_records target_records intersection_ids
          rs' acc
  end.

(** [scan_intersections] *)
Definition scan_intersections (source_db target_db : table)
    : exn + scan_result :=
  let source_records := _load_records source_db in
  let target_records := _load_records target_db in
  let p := ids_partition source_records target_records in
  match build_intersection source_records target_records (intersection_ids p)
          source_records [] with
  | inl e => inl e
  | inr inter =>
      inr {| source_only :=
               List.filter (fun r => bool_decide (id r ∈ only_source p))
                 source_records;
             target_only :=
               List.filter (fun r => bool_decide (id r ∈ only_target p))
                 target_records;
             intersection := inter |}
  end.

(** [_get_changed_fields] *)
Definition _get_changed_fields (source target : Record_) : list string :=
  (if negb (String.eqb (name source) (name target)) then ["name"] else [])
  ++ (if negb (sqltext_eqb (email source) (email target)) then ["email"] else [])
  ++ (if negb (sqltext_eqb (phone source) (phone target)) then ["phone"] else [])
  ++ (if negb (sqltext_eqb (last_updated source) (last_updated target))
      then ["last_updated"] else []).

(** one element of the list returned by [detect_conflicts] *)
Record conflict := mkConflict {
  conflict_id : Z;
  conflict_source : Record_;
  conflict_target : Record_;
  fields_changed : list string }.

(** [detect_conflicts] *)
Definition detect_conflicts (intersections : scan_result) : list conflict :=
  fold_left
    (fun conflicts '(record_id, p) =>
       if negb (String.eqb (checksum (source p)) (checksum (target p))) then
         conflicts ++ [ {| conflict_id := record_id;
                           conflict_source := source p;
                           conflict_target := target p;
                           fields_changed :=
                             _get_changed_fields (source p) (target p) |} ]
       else conflicts)
    (intersection intersections) [].

Record stats_t := mkStats {
  updated : nat;
  inserted : nat;
  errors : nat }.

Definition stats0 : stats_t := {| updated := 0; inserted := 0; errors := 0 |}.

Inductive log_entry :=
| UpdatedRecord (record_id : Z)
| ErrorUpdating (record_id : Z) (e : exn)
| InsertedRecord (record_id : Z)
| ErrorInserting (record_id : Z) (e : exn).

(** the two database files, the counters of the running call and the log *)
Record state := mkState {
  source_db : table;
  target_db : table;
  stats : stats_t;
  sync_log : list log_entry }.

Definition on_error (s : state) (entry : log_entry) : state :=
  {| source_db := source_db s; target_db := target_db s;
     stats := {| updated := updated (stats s); inserted := inserted (stats s);
                 errors := S (errors (stats s)) |};
     sync_log := sync_log s ++ [entry] |}.

(** [a > b] on two column values: a [TypeError] when one is [None] *)
Definition text_gt (a b : sqltext) : exn + bool :=
  match a, b with
  | Some x, Some y => inr (String.ltb y x)
  | _, _ => inl TypeError
  end.

(** the [if/elif] chain inside the [try] of step 1: the two files after
    the statement, or the exception it raises *)
Definition apply_strategy (strategy : string) (s : state)
    (source_record target_record : Record_) : exn + (table * table) :=
  if String.eqb strategy "source_wins" then
    match _update_record (target_db s) source_record with
    | inl e => inl e
    | inr t => inr (source_db s, t)
    end
  else if String.eqb strategy "target_wins" then
    match _update_record (source_db s) target_record with
    | inl e => inl e
    | inr t => inr (t, target_db s)
    end
  else if String.eqb strategy "latest_wins" then
    match text_gt (last_updated source_record) (last_updated target_record) with
    | inl e => inl e
    | inr newer =>
        let latest := if newer then source_record else target_record in
        if Record_eqb latest source_record then
          match _update_record (target_db s) source_record with
          | inl e => inl e
          | inr t => inr (source_db s, t)
          end
        else
          match _update_record (source_db s) target_record with
          | inl e => inl e
          | inr t => inr (t, target_db s)
          end
    end
  else inr (source_db s, target_db s).

(** step 1 of [sync_intersections] for one entry of ["intersection"] *)
Definition sync_pair (strategy : string) (s : state) (item : Z * pair) : state :=
  let '(record_id, p) := item in
  if negb (String.eqb (checksum (source p)) (checksum (target p))) then
    match apply_strategy strategy s (source p) (target p) with
    | inr (src, tgt) =>
        {| source_db := src; target_db := tgt;
           stats := {| updated := S (updated (stats s));
                       inserted := inserted (stats s);
                       errors := errors (stats s) |};
           sync_log := sync_log s ++ [UpdatedRecord record_id] |}
    | inl e => on_error s (ErrorUpdating record_id e)
    end
  else s.

(** step 2 for one record of ["source_only"] *)
Definition insert_source_only (s : state) (record : Record_) : state :=
  match _insert_record (target_db s) record with
  | inr tgt =>
      {| source_db := source_db s; target_db := tgt;
         stats := {| updated := updated (stats s);
                     inserted := S (inserted (stats s));
                     errors := errors (stats s) |};
         sync_log := sync_log s ++ [InsertedRecord (id record)] |}
  | inl e => on_error s (ErrorInserting (id record) e)
  end.

(** [sync_intersections] *)
Definition sync_intersections (intersections : scan_result) (strategy : string)
    (source0 target0 : table) (log0 : list log_entry) : state :=
  let s1 :=
    fold_left (sync_pair strategy) (intersection intersections)
      {| source_db := source0; target_db := target0; stats := stats0;
         sync_log := log0 |} in
  fold_left insert_source_only (source_only intersections) s1.

(** the calls of [main], with the strategy as a parameter *)
Definition run (strategy : string) (source0 target0 : table)
    (log0 : list log_entry) : exn + (list conflict * state) :=
  match scan_intersections source0 target0 with
  | inl e => inl e
  | inr intersections =>
      inr (detect_conflicts intersections,
           sync_intersections intersections strategy source0 target0 log0)
  end.

End Db.

(** ** Vocabulary of the statements about the API engine *)

(** three sets that split the union of [A] and [B] *)
Definition is_partition `{Countable K} (onlyA onlyB common A B : gset K)
    : Prop :=
  onlyA ## onlyB /\ onlyA ## common /\ onlyB ## common /\
  onlyA ∪ onlyB ∪ common = A ∪ B.

Module ApiSpec.
Import Py Api.

(** what the records of a scan look like *)
Definition records_ok (src : string) (m : gmap string APIRecord) : Prop :=
  forall k x, m !! k = Some x ->
    record_id (data x) = Some k /\ x = make_record src k (data x).

(** the two key-to-record mappings that a scan of resource [rt] would
    build from the state *)
Definition view (rt : string) (s : state) (N1 N2 : gmap string APIRecord)
    : Prop :=
  exists l1 l2,
    api1 s !! rt = Some l1 /\ api2 s !! rt = Some l2 /\
    build_records "API-1" l1 ∅ = Some N1 /\
    build_records "API-2" l2 ∅ = Some N2.

(** the record of [r] as the other server will present it *)
Definition copy_to (src : string) (k : string) (r : APIRecord) : APIRecord :=
  make_record src k (data r).

(** the state seen as the scanned mappings [M1], [M2] in which the keys [W1]
    of API-1 were written from API-2 and the keys [W2] of API-2 from API-1 *)
Definition written (rt : string) (M1 M2 : gmap string APIRecord)
    (W1 W2 : gset string) (s : state) : Prop :=
  exists N1 N2, view rt s N1 N2 /\
    (forall k, N1 !! k = if decide (k ∈ W1) then copy_to "API-1" k <$> M2 !! k
                         else M1 !! k) /\
    (forall k, N2 !! k = if decide (k ∈ W2) then copy_to "API-2" k <$> M1 !! k
                         else M2 !! k).

(** conflicts whose records are those of the scan [d] *)
Definition conflicts_of (d : scan_result) (cs : list conflict) : Prop :=
  Forall (fun c : conflict =>
            api1_data d !! conflict_id c = Some c.1.2 /\
            api2_data d !! conflict_id c = Some c.2) cs.

(** the keys of [X] whose two records have different checksums *)
Definition differs (d : scan_result) (k : string) : bool :=
  match api1_data d !! k, api2_data d !! k with
  | Some r1, Some r2 => negb (String.eqb (checksum r1) (checksum r2))
  | _, _ => false
  end.

Definition b2n (b : bool) : nat := if b then 1%nat else 0%nat.

Section Decisions.

Context (iso_timestamp : string -> option Z).

(** the conflicts that step 1 writes into API-2, resp. into API-1 *)
Definition writes2 (strategy : string) (c : conflict) : bool :=
  (String.eqb strategy "latest_wins"
   && (_parse_timestamp iso_timestamp (last_modified c.2)
       <? _parse_timestamp iso_timestamp (last_modified c.1.2)))
  || String.eqb strategy "api1_wins".

Definition writes1 (strategy : string) (c : conflict) : bool :=
  String.eqb strategy "api2_wins".

(** the conflicts that step 1 skips *)
Definition skips (strategy : string) (c : conflict) : bool :=
  String.eqb strategy "latest_wins"
  && negb (_parse_timestamp iso_timestamp (last_modified c.2)
           <? _parse_timestamp iso_timestamp (last_modified c.1.2)).

End Decisions.

Definition ids_of (cs : list conflict) : gset string :=
  list_to_set (map conflict_id cs).


(** the log entries of the two [except] handlers *)
Definition is_error (entry : log_entry) : Prop :=
  match entry with
  | ErrorSyncing _ _ _ | ErrorCreating _ _ _ => True
  | _ => False
  end.

(** the strategies that [sync_intersections] knows *)
Definition recognised (strategy : string) : bool :=
  String.eqb strategy "latest_wins" || String.eqb strategy "api1_wins"
  || String.eqb strategy "api2_wins".

End ApiSpec.

(** ** Vocabulary of the statements about the database engine *)

Module DbSpec.
Import Py Db.

(** two rows that the constraints of [users] allow in one table *)
Definition compatible (r r' : row) : Prop :=
  row_id r <> row_id r' /\ email_clash (row_email r) (row_email r') = false.

(** the ids held by a database file *)
Definition ids (db : table) : list Z := map row_id db.

(** the record that a file holds under an id *)
Definition record_at (db : table) (k : Z) : option Record_ :=
  List.find (fun r => id r =? k) (_load_records db).

(** the entries of ["intersection"] whose two checksums differ *)
Definition conflicting (item : Z * pair) : bool :=
  negb (String.eqb (checksum (source item.2)) (checksum (target item.2))).

Definition b2n_db (b : bool) : nat := if b then 1%nat else 0%nat.

Definition is_error (entry : log_entry) : Prop :=
  match entry with
  | ErrorUpdating _ _ | ErrorInserting _ _ => True
  | _ => False
  end.

(** the strategies that [sync_intersections] knows *)
Definition recognised (strategy : string) : bool :=
  String.eqb strategy "source_wins" || String.eqb strategy "target_wins"
  || String.eqb strategy "latest_wins".

End DbSpec.

(** ** Sample data

    The records that [MockAPIServer.start_server] and
    [create_sample_databases] install, with the users cut down to the
    fields that matter here. *)

Module Samples.
Import Py.

Definition user (i name email status last_login : string) : pydict :=
  [("id", JStr i); ("name", JStr name); ("email", JStr email);
   ("status", JStr status); ("last_login", JStr last_login)].

(** port 8001 *)
Definition users1 : list pydict :=
  [user "1" "Ion Popescu" "ion@email.com" "active" "2023-01-15T10:30:00Z";
   user "2" "Maria Ionescu" "maria@gmail.com" "inactive" "2023-02-20T14:15:00Z";
   user "3" "Andrei Dumitrescu" "andrei@yahoo.com" "active"
     "2023-03-10T09:45:00Z"].

(** port 8002 *)
Definition users2 : list pydict :=
  [user "1" "Ion Popescu" "ion.popescu@company.com" "active"
     "2023-12-01T16:20:00Z" ++ [("department", JStr "IT")];
   user "2" "Maria Ionescu" "maria@gmail.com" "active" "2023-02-20T14:15:00Z"
     ++ [("department", JStr "HR")];
   user "4" "Elena Vasilescu" "elena@company.com" "active"
     "2023-12-01T11:00:00Z" ++ [("department", JStr "Finance")]].

Definition api_state : Api.state :=
  {| Api.api1 := {[ "users" := users1 ]};
     Api.api2 := {[ "users" := users2 ]};
     Api.stats := Api.stats0;
     Api.sync_log := [] |}.


(** the order of a set that lists the greatest key first *)
Definition iter_desc (X : gset string) : list string :=
  reverse (merge_sort String.le (elements X)).

(** the order of a set that lists the least key first *)
Definition iter_asc (X : gset string) : list string :=
  merge_sort String.le (elements X).

(** scenario 1 of the specification *)
Definition scenario_a : list pydict := [[("id", JStr "1"); ("age", JInt 30)]].
Definition scenario_b : list pydict :=
  [[("id", JStr "1"); ("age", JInt 31)]; [("id", JStr "2"); ("name", JStr "x")]].

Definition scenario_state : Api.state :=
  {| Api.api1 := {[ "users" := scenario_a ]};
     Api.api2 := {[ "users" := scenario_b ]};
     Api.stats := Api.stats0;
     Api.sync_log := [] |}.

(** a field that is [None] on one side and missing on the other *)
Definition with_null : pydict := [("id", JStr "1"); ("nickname", JNull)].
Definition without_field : pydict := [("id", JStr "1")].

Definition null_state : Api.state :=
  {| Api.api1 := {[ "users" := [with_null] ]};
     Api.api2 := {[ "users" := [without_field] ]};
     Api.stats := Api.stats0;
     Api.sync_log := [] |}.

(** the same payload with its fields inserted in another order *)
Definition ion : pydict :=
  user "1" "Ion Popescu" "ion@email.com" "active" "2023-01-15T10:30:00Z".
Definition ion_reordered : pydict :=
  [("status", JStr "active"); ("last_login", JStr "2023-01-15T10:30:00Z");
   ("email", JStr "ion@email.com"); ("id", JStr "1");
   ("name", JStr "Ion Popescu")].

(** [source_database.db] *)
Definition source_table : Db.table :=
  [Db.mkRow 1 "Ion Popescu" (Some "ion.popescu@email.com") (Some "0712345678")
     (Some "2023-01-15");
   Db.mkRow 2 "Maria Ionescu" (Some "maria.ionescu@gmail.com")
     (Some "0798765432") (Some "2023-02-20");
   Db.mkRow 3 "Andrei Dumitrescu" (Some "andrei.dumitrescu@yahoo.com")
     (Some "0723456789") (Some "2023-03-10");
   Db.mkRow 4 "Elena Vasilescu" (Some "elena.vasilescu@outlook.com")
     (Some "0734567890") (Some "2023-04-05")].

(** [target_database.db] *)
Definition target_table : Db.table :=
  [Db.mkRow 1 "Ion Popescu" (Some "ion.popescu@email.ro") (Some "0712345678")
     (Some "2023-12-01");
   Db.mkRow 2 "Maria Ionescu" (Some "maria.ionescu@gmail.com")
     (Some "0798765432") (Some "2023-02-20");
   Db.mkRow 5 "Nou Utilizator" (Some "nou@email.com") (Some "0745678901")
     (Some "2023-12-01")].

(** two files that agree on id 1 and disagree on id 2 *)
Definition agree1_source : Db.table :=
  [Db.mkRow 1 "Ion" (Some "ion@x.ro") None (Some "2023-01-15");
   Db.mkRow 2 "Maria" (Some "maria@x.ro") None (Some "2023-02-20")].
Definition agree1_target : Db.table :=
  [Db.mkRow 1 "Ion" (Some "ion@x.ro") None (Some "2023-01-15");
   Db.mkRow 2 "Maria" (Some "maria@y.ro") None (Some "2023-06-01")].


(** one common id, two different emails *)
Definition single_source : Db.table :=
  [Db.mkRow 1 "Ion" (Some "ion@x.ro") None (Some "2023-01-15")].
Definition single_target : Db.table :=
  [Db.mkRow 1 "Ion" (Some "ion@y.ro") None (Some "2023-12-01")].





Definition db_state (src tgt : Db.table) : Db.state :=
  {| Db.source_db := src; Db.target_db := tgt; Db.stats := Db.stats0;
     Db.sync_log := [] |}.

End Samples.

(** ** More sample data *)

Module MoreSamples.
Import Py.



(** an entry of ["intersection"] whose source has no [last_updated] *)
Definition null_item : Z * Db.pair :=
  (1, {| Db.source := Db.new_Record 1 "Ion" (Some "ion@x.ro") None None "";
         Db.target :=
           Db.new_Record 1 "Ion" (Some "ion@y.ro") None (Some "2023-12-01") ""
      |}).

End MoreSamples.

(** ** The reports *)

Module DbReport.
Import Py Db.

(** [l[-10:]] *)
Definition last10 {A} (l : list A) : list A := skipn (length l - 10) l.

(** what [generate_sync_report] prints: the seven numbers and the lines of
    the log *)
Record report := mkReport {
  total_source : nat;
  total_target : nat;
  intersections_found : nat;
  conflicts_detected : nat;
  records_updated : nat;
  records_inserted : nat;
  errors_reported : nat;
  log_lines : list log_entry }.

(** [generate_sync_report] of the database engine *)
Definition generate_sync_report (intersections : scan_result)
    (conflicts : list conflict) (st : stats_t) (log : list log_entry)
    : report :=
  {| total_source :=
       length (source_only intersections) + length (intersection intersections);
     total_target :=
       length (target_only intersections) + length (intersection intersections);
     intersections_found := length (intersection intersections);
     conflicts_detected := length conflicts;
     records_updated := updated st;
     records_inserted := inserted st;
     errors_reported := errors st;
     log_lines := last10 log |}.

End DbReport.

(** ** Whole runs of the API engine *)

Module ApiWholeSpec.
Import Py Api.

(** the sum of two sets of counters *)
Definition stats_add (a b : stats_t) : stats_t :=
  {| updated := updated a + updated b; created := created a + created b;
     errors := errors a + errors b; skipped := skipped a + skipped b |}.

(** the state [s] of a call that started from the counters [st] instead of
    zero *)
Definition shift (st : stats_t) (s : state) : state :=
  {| api1 := api1 s; api2 := api2 s; stats := stats_add st (stats s);
     sync_log := sync_log s |}.

(** every list of the server is still there, with records added at its end
    at most; no resource type appears *)
Definition grows (a a' : api_data) : Prop :=
  forall rt,
    match a !! rt with
    | Some l => exists w, a' !! rt = Some (l ++ w)
    | None => a' !! rt = None
    end.

(** the two servers differ at resource type [rt] at most *)
Definition only_at (rt : string) (a a' : api_data) : Prop :=
  forall rt', rt' <> rt -> a' !! rt' = a !! rt'.

(** what one step of the synchronisation of [rt] may do to the state *)
Definition step_ok (rt : string) (s s' : state) : Prop :=
  only_at rt (api1 s) (api1 s') /\ only_at rt (api2 s) (api2 s') /\
  grows (api1 s) (api1 s') /\ grows (api2 s) (api2 s') /\
  exists entries, sync_log s' = sync_log s ++ entries.

(** the resource types that [scan_intersections] looks at and finds on both
    servers *)
Definition scanned (a1 a2 : api_data) (rt : string) : bool :=
  bool_decide (is_Some (a1 !! rt)) && bool_decide (is_Some (a2 !! rt)).

End ApiWholeSpec.

Module WholeSamples.
Import Py.

Definition order (i status created_at : string) : pydict :=
  [("id", JStr i); ("status", JStr status); ("created_at", JStr created_at)].

Definition orders1 : list pydict :=
  [order "ORD-001" "completed" "2023-01-15T10:30:00Z";
   order "ORD-002" "pending" "2023-02-20T14:15:00Z"].

Definition orders2 : list pydict :=
  [order "ORD-001" "shipped" "2023-01-15T10:30:00Z";
   order "ORD-003" "processing" "2023-12-01T10:00:00Z"].

(** both servers with users and orders *)
Definition api1 : Api.api_data :=
  <["orders" := orders1]> {[ "users" := Samples.users1 ]}.
Definition api2 : Api.api_data :=
  <["orders" := orders2]> {[ "users" := Samples.users2 ]}.

Definition state : Api.state :=
  {| Api.api1 := api1; Api.api2 := api2; Api.stats := Api.stats0;
     Api.sync_log := [] |}.

(** API-2 without orders, API-1 with a type that is never scanned *)
Definition api1_products : Api.api_data :=
  <["products" := [[("id", JStr "P-1")]]]> api1.
Definition api2_users_only : Api.api_data := {[ "users" := Samples.users2 ]}.

End WholeSamples.

Module ApiReport.
Import Py Api.

(** what [generate_sync_report] of the API engine prints *)
Record report := mkReport {
  total_intersections : nat;
  total_conflicts : nat;
  per_type : list (string * nat * nat);
  records_updated : nat;
  records_created : nat;
  records_skipped : nat;
  errors_reported : nat;
  log_lines : list log_entry }.

(** [generate_sync_report] *)
Definition generate_sync_report (intersections : list (string * scan_result))
    (conflicts : gmap string (list conflict)) (st : stats_t)
    (log : list log_entry) : report :=
  {| total_intersections :=
       sum_list_with (fun kd : string * scan_result =>
                        size (common_records kd.2)) intersections;
     total_conflicts :=
       sum_list_with (fun kc : string * list conflict => length kc.2)
         (map_to_list conflicts);
     per_type :=
       map (fun kd : string * scan_result =>
              (kd.1, size (common_records kd.2),
               length (default [] (conflicts !! kd.1)))) intersections;
     records_updated := updated st;
     records_created := created st;
     records_skipped := skipped st;
     errors_reported := errors st;
     log_lines := DbReport.last10 log |}.

End ApiReport.

(** * Facts *)

(** ** Lists filtered by a boolean test *)

Module ListFacts.


Lemma filter_bool_StronglySorted {A} (R : relation A) (f : A -> bool) l :
  StronglySorted R l -> StronglySorted R (List.filter f l).
Proof.
  induction 1 as [|x l Hl IH Hx]; simpl; [constructor|].
  destruct (f x); [|done]. constructor; [done|].
  apply Forall_forall. intros y Hy.
  apply list_elem_of_In, filter_In in Hy as [Hy _].
  rewrite Forall_forall in Hx. by apply Hx, list_elem_of_In.
Qed.

Lemma filter_bool_NoDup {A} (f : A -> bool) l :
  NoDup l -> NoDup (List.filter f l).
Proof.
  induction 1 as [|x l Hx Hl IH]; simpl; [constructor|].
  destruct (f x); [|done]. constructor; [|done].
  intros Hin. apply Hx.
  apply list_elem_of_In, filter_In in Hin as [Hin _]. by apply list_elem_of_In.
Qed.

Lemma filter_length_all {A} (f : A -> bool) (l : list A) :
  length (List.filter f l) = length l -> List.filter f l = l.
Proof.
  induction l as [|x l IH]; simpl; [done|].
  destruct (f x); simpl.
  - intros [= H]. by rewrite IH.
  - intros H. pose proof (filter_length_le f l). lia.
Qed.

Lemma filter_all_false {A} (f : A -> bool) (l : list A) :
  (forall x, x ∈ l -> f x = false) -> List.filter f l = [].
Proof.
  induction l as [|x l IH]; intros H; simpl; [done|].
  rewrite (H x) by set_solver. apply IH. intros; apply H; set_solver.
Qed.



End ListFacts.

(** ** json.dumps *)

Module PyFacts.
Import Py.

(** induction on values that reaches inside lists and dictionaries *)
Lemma pyval_nested_ind (P : pyval -> Prop) :
  P JNull ->
  (forall b, P (JBool b)) ->
  (forall n, P (JInt n)) ->
  (forall s, P (JStr s)) ->
  (forall l, Forall P l -> P (JList l)) ->
  (forall d, Forall (fun kv => P kv.2) d -> P (JDict d)) ->
  forall v, P v.
Proof.
  intros Hnull Hbool Hint Hstr Hlist Hdict.
  fix IH 1. intros [ | b | n | s | l | d].
  - exact Hnull.
  - apply Hbool.
  - apply Hint.
  - apply Hstr.
  - apply Hlist. induction l as [|x l IHl]; constructor; [apply IH | exact IHl].
  - apply Hdict. induction d as [|[k x] d IHd]; constructor; [apply IH | exact IHd].
Qed.

#[global] Instance key_le_trans : Transitive key_le.
Proof. intros x y z. unfold key_le. apply transitivity. Qed.

#[global] Instance key_le_total : Total key_le.
Proof. intros x y. unfold key_le. apply total, _. Qed.

(** sorting by key forgets the insertion order when keys are distinct *)
Lemma merge_sort_key_le_perm (l l' : list (string * string)) :
  NoDup (map fst l) -> l ≡ₚ l' ->
  merge_sort key_le l = merge_sort key_le l'.
Proof.
  intros Hnd Hp.
  apply (StronglySorted_unique_strong key_le).
  - intros [k1 v1] [k2 v2] H1 H2 Hle1 Hle2.
    unfold key_le in *; simpl in *.
    assert (k1 = k2) as -> by (by apply (anti_symm String.le)).
    f_equal.
    rewrite merge_sort_Permutation in H1.
    rewrite merge_sort_Permutation, <- Hp in H2.
    clear Hp l' Hle1 Hle2.
    induction l as [|[k v] l IHl]; [by apply elem_of_nil in H1|].
    simpl in Hnd. apply NoDup_cons in Hnd as [Hk Hnd].
    apply elem_of_cons in H1 as [H1|H1], H2 as [H2|H2]; simplify_eq; auto.
    + exfalso. apply Hk. apply list_elem_of_fmap. by exists (k, v2).
    + exfalso. apply Hk. apply list_elem_of_fmap. by exists (k, v1).
  - apply StronglySorted_merge_sort; apply _.
  - apply StronglySorted_merge_sort; apply _.
  - by rewrite !merge_sort_Permutation.
Qed.

(** [dumps] does not see the insertion order of dictionaries *)
Lemma dumps_reordered v :
  forall v', wf v -> reordered v v' -> dumps v = dumps v'.
Proof.
  induction v as [ | b | n | s | l IHl | d IHd] using pyval_nested_ind;
    intros v' Hwf Hro; inversion Hro; subst; try reflexivity.
  - simpl. do 3 f_equal.
    inversion Hwf as [ | | | | ? Hwfl | ]; subst.
    match goal with H : Forall2 reordered _ _ |- _ => rename H into HF end.
    clear Hro Hwf. induction HF as [|x y l l' Hxy HF IH]; [done|].
    apply Forall_cons in IHl as [Hx IHl].
    apply Forall_cons in Hwfl as [Hwx Hwfl].
    simpl. f_equal; auto.
  - simpl. do 4 f_equal.
    inversion Hwf as [ | | | | | ? Hnd Hwfd]; subst.
    match goal with
    | H : Forall2 _ d ?d1, Hp : ?d1 ≡ₚ _ |- _ => rename H into HF; rename Hp into HP
    end.
    set (g := fun '(k, v) => (k, dumps v) : string * string).
    assert (map g d = map g d') as Heq.
    { clear Hro Hwf HP Hnd.
      induction HF as [|[k x] [k' y] l l' [Hk Hxy] HF IH]; [done|].
      apply Forall_cons in IHd as [Hx IHd].
      apply Forall_cons in Hwfd as [Hwx Hwfd].
      simpl in *. subst k'. f_equal; [f_equal|]; auto. }
    apply merge_sort_key_le_perm.
    + replace (map fst (map g d)) with (map fst d); [done|].
      rewrite map_map. apply map_ext. by intros [k x].
    + rewrite Heq. by apply Permutation_map.
Qed.

Lemma dict_get_elem_of (d : pydict) k v :
  NoDup (keys d) -> dict_get k d = Some v <-> (k, v) ∈ d.
Proof.
  unfold keys. induction d as [|[k' v'] d IH]; simpl; intros Hnd.
  - split; [done | by intros ?%elem_of_nil].
  - apply NoDup_cons in Hnd as [Hk Hnd]. rewrite elem_of_cons.
    destruct (String.eqb_spec k k') as [->|Hne].
    + split; [intros [= ->]; by left|].
      intros [[= ->]|Hin]; [done|]. exfalso. apply Hk.
      apply list_elem_of_fmap. by exists (k', v).
    + rewrite (IH Hnd). split; [by right|]. by intros [[= -> ->]|?].
Qed.

(** two dictionaries that are equal as mappings hold the same items *)
Lemma dict_mapping_Permutation (d d' : pydict) :
  NoDup (keys d) -> NoDup (keys d') ->
  (forall k, dict_get k d = dict_get k d') -> d ≡ₚ d'.
Proof.
  intros Hnd Hnd' Hget. apply NoDup_Permutation.
  - by apply NoDup_fmap_1 in Hnd.
  - by apply NoDup_fmap_1 in Hnd'.
  - intros [k v].
    by rewrite <- (dict_get_elem_of d), <- (dict_get_elem_of d'), Hget.
Qed.

Lemma dumps_dict_Permutation (d d' : pydict) :
  NoDup (keys d) -> d ≡ₚ d' -> dumps (JDict d) = dumps (JDict d').
Proof.
  intros Hnd Hp. simpl. do 4 f_equal. apply merge_sort_key_le_perm.
  - replace (map fst (map (fun '(k, v) => (k, dumps v)) d)) with (map fst d);
      [done|].
    rewrite map_map. apply map_ext. by intros [k x].
  - by apply Permutation_map.
Qed.

End PyFacts.

(** ** The API engine *)

Module ApiFacts.
Import Py Api ApiSpec ListFacts.

Lemma checksum_make_record src i r :
  checksum (make_record src i r) = calculate_checksum r.
Proof. reflexivity. Qed.

Lemma data_make_record src i r : data (make_record src i r) = r.
Proof. reflexivity. Qed.

Lemma records_ok_empty src : records_ok src ∅.
Proof. intros k x H. by rewrite lookup_empty in H. Qed.

Lemma records_ok_insert src m k r :
  records_ok src m -> record_id r = Some k ->
  records_ok src (<[k := make_record src k r]> m).
Proof.
  intros Hm Hr k' x. rewrite lookup_insert.
  case_decide as Hk; [|by apply Hm].
  intros [= <-]. subst k'. by split.
Qed.

Lemma build_records_app src l l' acc :
  build_records src (l ++ l') acc
  = match build_records src l acc with
    | Some m => build_records src l' m
    | None => None
    end.
Proof.
  revert acc. induction l as [|r l IH]; intros acc; simpl; [done|].
  destruct (record_id r); [apply IH | done].
Qed.

Lemma build_records_ok src l acc m :
  records_ok src acc -> build_records src l acc = Some m -> records_ok src m.
Proof.
  revert acc. induction l as [|r l IH]; intros acc Hacc; simpl.
  - by intros [= <-].
  - destruct (record_id r) as [i|] eqn:Hi; [|done].
    apply IH. by apply records_ok_insert.
Qed.

(** appending one record overrides its key in the next scan *)
Lemma build_records_snoc src l r k m :
  build_records src l ∅ = Some m -> record_id r = Some k ->
  build_records src (l ++ [r]) ∅ = Some (<[k := make_record src k r]> m).
Proof.
  intros Hl Hr. rewrite build_records_app, Hl. simpl. by rewrite Hr.
Qed.

(** the keys of a scan are the ids of the enumerated records *)
Lemma build_records_dom src l acc m :
  build_records src l acc = Some m ->
  Forall (fun r => is_Some (record_id r)) l /\
  dom m = dom acc ∪ list_to_set (omap record_id l).
Proof.
  revert acc. induction l as [|r l IH]; intros acc; simpl.
  - intros [= <-]. split; [constructor | set_solver].
  - destruct (record_id r) as [i|] eqn:Hi; [|done].
    intros H. apply IH in H as [HF Hd]. split.
    + constructor; [by rewrite Hi | done].
    + rewrite Hd, dom_insert_L. set_solver.
Qed.

Lemma build_records_total src l acc :
  Forall (fun r => is_Some (record_id r)) l ->
  is_Some (build_records src l acc).
Proof.
  intros HF. revert acc.
  induction HF as [|r l [i Hi] HF IH]; intros acc; simpl; [done|].
  rewrite Hi. apply IH.
Qed.

(** a string is never equal to a record, so the membership test of
    [_update_api_record] is always false *)
Lemma list_contains_str s l : list_contains (JStr s) l = false.
Proof. unfold list_contains. induction l as [|e l IH]; simpl; auto. Qed.

Lemma update_api_record_appends target rt record l :
  target !! rt = Some l ->
  _update_api_record target rt record
  = inr (<[rt := l ++ [data record]]> target).
Proof.
  intros H. unfold _update_api_record. by rewrite H, list_contains_str.
Qed.

Lemma update_api_record_raises target rt record :
  target !! rt = None ->
  _update_api_record target rt record = inl (KeyError rt).
Proof. intros H. unfold _update_api_record. by rewrite H. Qed.

Lemma view_init rt s l1 l2 d :
  api1 s !! rt = Some l1 -> api2 s !! rt = Some l2 ->
  scan_resource l1 l2 = Some d ->
  view rt s (api1_data d) (api2_data d) /\
  records_ok "API-1" (api1_data d) /\ records_ok "API-2" (api2_data d) /\
  common_records d = dom (api1_data d) ∩ dom (api2_data d) /\
  api1_only d = dom (api1_data d) ∖ dom (api2_data d) /\
  api2_only d = dom (api2_data d) ∖ dom (api1_data d).
Proof.
  intros H1 H2 Hs. unfold scan_resource in Hs.
  destruct (build_records "API-1" l1 ∅) as [m1|] eqn:Hm1; [|done].
  destruct (build_records "API-2" l2 ∅) as [m2|] eqn:Hm2; [|done].
  injection Hs as <-. simpl. split_and!; try done.
  - by exists l1, l2.
  - eapply build_records_ok; [apply records_ok_empty | done].
  - eapply build_records_ok; [apply records_ok_empty | done].
Qed.

Lemma written_init rt s M1 M2 : view rt s M1 M2 -> written rt M1 M2 ∅ ∅ s.
Proof.
  intros Hv. exists M1, M2. split_and!; [done|..]; intros k;
    by rewrite decide_False by set_solver.
Qed.

(** a write of the scanned record of [k] from API-1 into API-2 *)
Lemma written_write2 rt M1 M2 W1 W2 s k r f entry :
  records_ok "API-1" M1 -> M1 !! k = Some r -> written rt M1 M2 W1 W2 s ->
  exists a2, _update_api_record (api2 s) rt r = inr a2 /\
    written rt M1 M2 W1 ({[k]} ∪ W2) (wrote2 s a2 f entry).
Proof.
  intros Hok Hr (N1 & N2 & (l1 & l2 & H1 & H2 & HN1 & HN2) & HL1 & HL2).
  destruct (Hok _ _ Hr) as [Hid _].
  eexists. split; [by apply update_api_record_appends|].
  exists N1, (<[k := make_record "API-2" k (data r)]> N2). split_and!.
  - exists l1, (l2 ++ [data r]). simpl. split_and!; try done.
    + by rewrite lookup_insert_eq.
    + by apply build_records_snoc.
  - done.
  - intros k'. rewrite lookup_insert. case_decide as Hk.
    + subst k'. rewrite decide_True by set_solver. by rewrite Hr.
    + rewrite HL2. destruct (decide (k' ∈ W2));
        [rewrite decide_True by set_solver | rewrite decide_False by set_solver];
        done.
Qed.

(** a write of the scanned record of [k] from API-2 into API-1 *)
Lemma written_write1 rt M1 M2 W1 W2 s k r f entry :
  records_ok "API-2" M2 -> M2 !! k = Some r -> written rt M1 M2 W1 W2 s ->
  exists a1, _update_api_record (api1 s) rt r = inr a1 /\
    written rt M1 M2 ({[k]} ∪ W1) W2 (wrote1 s a1 f entry).
Proof.
  intros Hok Hr (N1 & N2 & (l1 & l2 & H1 & H2 & HN1 & HN2) & HL1 & HL2).
  destruct (Hok _ _ Hr) as [Hid _].
  eexists. split; [by apply update_api_record_appends|].
  exists (<[k := make_record "API-1" k (data r)]> N1), N2. split_and!.
  - exists (l1 ++ [data r]), l2. simpl. split_and!; try done.
    + by rewrite lookup_insert_eq.
    + by apply build_records_snoc.
  - intros k'. rewrite lookup_insert. case_decide as Hk.
    + subst k'. rewrite decide_True by set_solver. by rewrite Hr.
    + rewrite HL1. destruct (decide (k' ∈ W1));
        [rewrite decide_True by set_solver | rewrite decide_False by set_solver];
        done.
  - done.
Qed.

(** close a [written] goal by a hypothesis that names the same sets
    differently *)
Ltac use_written H :=
  match type of H with
  | written _ _ _ ?A ?B _ =>
      match goal with
      | |- written _ _ _ ?A' ?B' _ =>
          replace A' with A by set_solver;
          replace B' with B by set_solver;
          exact H
      end
  end.

Section Loops.

Context (iter_set : gset string -> list string).
Context (iso_timestamp : string -> option Z).

#[local] Abbreviation resolve_conflict := (resolve_conflict iso_timestamp).
#[local] Abbreviation writes2 := (writes2 iso_timestamp).
#[local] Abbreviation skips := (skips iso_timestamp).

(** one conflict of step 1, when both lists exist *)
Lemma resolve_conflict_step strategy rt d c W1 W2 s :
  records_ok "API-1" (api1_data d) -> records_ok "API-2" (api2_data d) ->
  api1_data d !! conflict_id c = Some c.1.2 ->
  api2_data d !! conflict_id c = Some c.2 ->
  written rt (api1_data d) (api2_data d) W1 W2 s ->
  let s' := resolve_conflict strategy rt s c in
  written rt (api1_data d) (api2_data d)
    (if writes1 strategy c then {[conflict_id c]} ∪ W1 else W1)
    (if writes2 strategy c then {[conflict_id c]} ∪ W2 else W2) s' /\
  updated (stats s')
    = (updated (stats s) + b2n (writes2 strategy c || writes1 strategy c))%nat /\
  skipped (stats s') = (skipped (stats s) + b2n (skips strategy c))%nat /\
  errors (stats s') = errors (stats s) /\
  created (stats s') = created (stats s).
Proof.
  destruct c as [[k r1] r2]. unfold conflict_id. simpl.
  intros Hok1 Hok2 Hr1 Hr2 Hw. cbv zeta.
  unfold Api.resolve_conflict, ApiSpec.writes2, writes1, ApiSpec.skips. simpl.
  destruct (String.eqb strategy "latest_wins") eqn:E1.
  { apply String.eqb_eq in E1 as ->. simpl.
    destruct (_ <? _) eqn:Ets; simpl.
    - destruct (written_write2 rt _ _ _ _ s k r1 add_updated
                  (Updated rt k "API-1 newer") Hok1 Hr1 Hw) as (a2 & -> & Hw').
      simpl. split_and!; [done | lia..].
    - split_and!; [|simpl; lia..].
      destruct Hw as (N1 & N2 & Hv & HL). by exists N1, N2. }
  destruct (String.eqb strategy "api1_wins") eqn:E2.
  { apply String.eqb_eq in E2 as ->. simpl.
    destruct (written_write2 rt _ _ _ _ s k r1 add_updated
                (Updated rt k "API-1 wins") Hok1 Hr1 Hw) as (a2 & -> & Hw').
    simpl. split_and!; [done | lia..]. }
  destruct (String.eqb strategy "api2_wins") eqn:E3.
  { simpl.
    destruct (written_write1 rt _ _ _ _ s k r2 add_updated
                (Updated rt k "API-2 wins") Hok2 Hr2 Hw) as (a1 & -> & Hw').
    simpl. split_and!; [done | lia..]. }
  simpl. split_and!; [done | lia..].
Qed.

Lemma fold_resolve strategy rt d cs W1 W2 s :
  records_ok "API-1" (api1_data d) -> records_ok "API-2" (api2_data d) ->
  conflicts_of d cs ->
  written rt (api1_data d) (api2_data d) W1 W2 s ->
  let s' := fold_left (resolve_conflict strategy rt) cs s in
  written rt (api1_data d) (api2_data d)
    (ids_of (List.filter (writes1 strategy) cs) ∪ W1)
    (ids_of (List.filter (writes2 strategy) cs) ∪ W2) s' /\
  updated (stats s')
    = (updated (stats s)
       + length (List.filter
                   (fun c => writes2 strategy c || writes1 strategy c) cs))%nat /\
  skipped (stats s')
    = (skipped (stats s) + length (List.filter (skips strategy) cs))%nat /\
  errors (stats s') = errors (stats s) /\
  created (stats s') = created (stats s).
Proof.
  intros Hok1 Hok2 Hcs. revert W1 W2 s.
  induction Hcs as [|c cs [Hc1 Hc2] Hcs IH]; intros W1 W2 s Hw; cbv zeta; simpl.
  { unfold ids_of. simpl. rewrite !(left_id_L ∅ (∪)).
    split_and!; [done | lia..]. }
  destruct (resolve_conflict_step strategy rt d c W1 W2 s Hok1 Hok2 Hc1 Hc2 Hw)
    as (Hw' & Hu & Hs & He & Hc).
  destruct (IH _ _ _ Hw') as (Hw'' & Hu' & Hs' & He' & Hc').
  split_and!.
  - unfold ids_of in *. revert Hw''.
    destruct (writes1 strategy c), (writes2 strategy c); simpl; intros Hw'';
      use_written Hw''.
  - rewrite Hu', Hu. destruct (writes2 strategy c || writes1 strategy c);
      simpl; lia.
  - rewrite Hs', Hs. destruct (skips strategy c); simpl; lia.
  - by rewrite He'.
  - by rewrite Hc'.
Qed.

(** step 2, when both lists exist *)
Lemma fold_create_in_api2 rt d ks W1 W2 s :
  records_ok "API-1" (api1_data d) ->
  (forall k, k ∈ ks -> is_Some (api1_data d !! k)) ->
  written rt (api1_data d) (api2_data d) W1 W2 s ->
  let s' := fold_left (create_in_api2 rt d) ks s in
  written rt (api1_data d) (api2_data d) W1 (list_to_set ks ∪ W2) s' /\
  created (stats s') = (created (stats s) + length ks)%nat /\
  updated (stats s') = updated (stats s) /\
  skipped (stats s') = skipped (stats s) /\
  errors (stats s') = errors (stats s).
Proof.
  intros Hok. revert W2 s.
  induction ks as [|k ks IH]; intros W2 s Hks Hw; cbv zeta; simpl.
  { rewrite (left_id_L ∅ (∪)). split_and!; [done | lia | done..]. }
  destruct (Hks k) as [r Hr]; [set_solver|].
  destruct (written_write2 rt _ _ _ _ s k r add_created
              (Created rt k "API-2") Hok Hr Hw) as (a2 & Ha & Hw').
  assert (create_in_api2 rt d s k
          = wrote2 s a2 add_created (Created rt k "API-2")) as ->
    by (unfold create_in_api2; by rewrite Hr, Ha).
  destruct (IH _ _ (fun k' Hk' => Hks k' (list_elem_of_further _ _ _ Hk')) Hw')
    as (Hw'' & Hc & Hu & Hs & He).
  split_and!.
  - use_written Hw''.
  - rewrite Hc. simpl. lia.
  - by rewrite Hu.
  - by rewrite Hs.
  - by rewrite He.
Qed.

(** step 3, when both lists exist *)
Lemma fold_create_in_api1 rt d ks W1 W2 s :
  records_ok "API-2" (api2_data d) ->
  (forall k, k ∈ ks -> is_Some (api2_data d !! k)) ->
  written rt (api1_data d) (api2_data d) W1 W2 s ->
  let s' := fold_left (create_in_api1 rt d) ks s in
  written rt (api1_data d) (api2_data d) (list_to_set ks ∪ W1) W2 s' /\
  created (stats s') = (created (stats s) + length ks)%nat /\
  updated (stats s') = updated (stats s) /\
  skipped (stats s') = skipped (stats s) /\
  errors (stats s') = errors (stats s).
Proof.
  intros Hok. revert W1 s.
  induction ks as [|k ks IH]; intros W1 s Hks Hw; cbv zeta; simpl.
  { rewrite (left_id_L ∅ (∪)). split_and!; [done | lia | done..]. }
  destruct (Hks k) as [r Hr]; [set_solver|].
  destruct (written_write1 rt _ _ _ _ s k r add_created
              (Created rt k "API-1") Hok Hr Hw) as (a1 & Ha & Hw').
  assert (create_in_api1 rt d s k
          = wrote1 s a1 add_created (Created rt k "API-1")) as ->
    by (unfold create_in_api1; by rewrite Hr, Ha).
  destruct (IH _ _ (fun k' Hk' => Hks k' (list_elem_of_further _ _ _ Hk')) Hw')
    as (Hw'' & Hc & Hu & Hs & He).
  split_and!.
  - use_written Hw''.
  - rewrite Hc. simpl. lia.
  - by rewrite Hu.
  - by rewrite Hs.
  - by rewrite He.
Qed.

(** the conflicts of a scan: the ids whose checksums differ, in the order of
    the iteration *)
Lemma detect_loop_spec d ks acc :
  (forall k, k ∈ ks ->
     is_Some (api1_data d !! k) /\ is_Some (api2_data d !! k)) ->
  exists cs, detect_loop d ks acc = Some (acc ++ cs) /\
    map conflict_id cs = List.filter (differs d) ks /\
    conflicts_of d cs.
Proof.
  revert acc. induction ks as [|k ks IH]; intros acc Hks; simpl.
  { exists []. rewrite app_nil_r. by split_and!; [..|constructor]. }
  destruct (Hks k) as [[r1 Hr1] [r2 Hr2]]; [set_solver|].
  rewrite Hr1, Hr2. unfold differs at 1. rewrite Hr1, Hr2.
  assert (forall k', k' ∈ ks ->
            is_Some (api1_data d !! k') /\ is_Some (api2_data d !! k')) as Hks'
    by (intros; apply Hks; set_solver).
  destruct (negb _).
  - destruct (IH (acc ++ [(k, r1, r2)]) Hks') as (cs & -> & Hids & Hcs).
    exists ((k, r1, r2) :: cs). rewrite <- app_assoc. simpl.
    split_and!; [done | by rewrite Hids |].
    constructor; [by split | done].
  - destruct (IH acc Hks') as (cs & -> & Hids & Hcs). by exists cs.
Qed.

Hypothesis iter_set_perm : forall X, iter_set X ≡ₚ elements X.

Lemma elem_of_iter_set X k : k ∈ iter_set X <-> k ∈ X.
Proof. by rewrite iter_set_perm, elem_of_elements. Qed.

Lemma list_to_set_iter_set X : list_to_set (iter_set X) = X.
Proof. apply set_eq. intros k. by rewrite elem_of_list_to_set, elem_of_iter_set. Qed.

Lemma length_iter_set X : length (iter_set X) = size X.
Proof. by rewrite iter_set_perm. Qed.

Lemma detect_resource_spec d :
  common_records d = dom (api1_data d) ∩ dom (api2_data d) ->
  exists cs, detect_resource iter_set d = Some cs /\
    map conflict_id cs = List.filter (differs d) (iter_set (common_records d)) /\
    conflicts_of d cs.
Proof.
  intros Hc. unfold detect_resource.
  destruct (detect_loop_spec d (iter_set (common_records d)) []) as (cs & H & ?).
  - intros k Hk. apply elem_of_iter_set in Hk. rewrite Hc in Hk.
    apply elem_of_intersection in Hk as [H1 H2].
    by rewrite <- !elem_of_dom.
  - by exists cs.
Qed.

(** the state after [sync_resource] on a fresh scan *)
Lemma sync_resource_spec strategy rt s l1 l2 d cs :
  api1 s !! rt = Some l1 -> api2 s !! rt = Some l2 ->
  scan_resource l1 l2 = Some d -> conflicts_of d cs ->
  let s' := sync_resource iter_set iso_timestamp strategy rt d cs s in
  written rt (api1_data d) (api2_data d)
    (ids_of (List.filter (writes1 strategy) cs) ∪ api2_only d)
    (ids_of (List.filter (writes2 strategy) cs) ∪ api1_only d) s' /\
  updated (stats s')
    = (updated (stats s)
       + length (List.filter
                   (fun c => writes2 strategy c || writes1 strategy c) cs))%nat /\
  skipped (stats s')
    = (skipped (stats s) + length (List.filter (skips strategy) cs))%nat /\
  errors (stats s') = errors (stats s) /\
  created (stats s')
    = (created (stats s) + size (api1_only d) + size (api2_only d))%nat.
Proof.
  intros H1 H2 Hscan Hcs. cbv zeta.
  destruct (view_init rt s l1 l2 d H1 H2 Hscan)
    as (Hv & Hok1 & Hok2 & Hcom & Ho1 & Ho2).
  unfold sync_resource.
  destruct (fold_resolve strategy rt d cs ∅ ∅ s Hok1 Hok2 Hcs
              (written_init _ _ _ _ Hv)) as (Hw1 & Hu1 & Hs1 & He1 & Hc1).
  set (s1 := fold_left (resolve_conflict strategy rt) cs s) in *.
  assert (forall k, k ∈ iter_set (api1_only d) -> is_Some (api1_data d !! k))
    as Hin1.
  { intros k Hk. apply elem_of_iter_set in Hk. rewrite Ho1 in Hk.
    apply elem_of_dom. set_solver. }
  assert (forall k, k ∈ iter_set (api2_only d) -> is_Some (api2_data d !! k))
    as Hin2.
  { intros k Hk. apply elem_of_iter_set in Hk. rewrite Ho2 in Hk.
    apply elem_of_dom. set_solver. }
  destruct (fold_create_in_api2 rt d (iter_set (api1_only d)) _ _ s1 Hok1
              Hin1 Hw1) as (Hw2 & Hc2 & Hu2 & Hs2 & He2).
  set (s2 := fold_left (create_in_api2 rt d) (iter_set (api1_only d)) s1) in *.
  destruct (fold_create_in_api1 rt d (iter_set (api2_only d)) _ _ s2 Hok2
              Hin2 Hw2) as (Hw3 & Hc3 & Hu3 & Hs3 & He3).
  rewrite !list_to_set_iter_set in *.
  split_and!.
  - use_written Hw3.
  - by rewrite Hu3, Hu2, Hu1.
  - by rewrite Hs3, Hs2, Hs1.
  - by rewrite He3, He2, He1.
  - rewrite Hc3, Hc2, Hc1, !length_iter_set. lia.
Qed.

(** unfolding of [run_resource] *)
Lemma run_resource_spec strategy rt s d cs s' :
  run_resource iter_set iso_timestamp strategy rt s = Some (d, cs, s') ->
  exists l1 l2,
    api1 s !! rt = Some l1 /\ api2 s !! rt = Some l2 /\
    scan_resource l1 l2 = Some d /\
    detect_resource iter_set d = Some cs /\
    map conflict_id cs = List.filter (differs d) (iter_set (common_records d)) /\
    conflicts_of d cs /\
    written rt (api1_data d) (api2_data d)
      (ids_of (List.filter (writes1 strategy) cs) ∪ api2_only d)
      (ids_of (List.filter (writes2 strategy) cs) ∪ api1_only d) s' /\
    updated (stats s')
      = length (List.filter
                  (fun c => writes2 strategy c || writes1 strategy c) cs) /\
    skipped (stats s') = length (List.filter (skips strategy) cs) /\
    errors (stats s') = 0%nat /\
    created (stats s') = (size (api1_only d) + size (api2_only d))%nat.
Proof.
  unfold run_resource.
  destruct (api1 s !! rt) as [l1|] eqn:H1; [|done].
  destruct (api2 s !! rt) as [l2|] eqn:H2; [|done].
  destruct (scan_resource l1 l2) as [d0|] eqn:Hscan; [|done].
  destruct (detect_resource iter_set d0) as [cs0|] eqn:Hdet; [|done].
  intros [= <- <- <-].
  destruct (view_init rt s l1 l2 d0 H1 H2 Hscan) as (_ & _ & _ & Hcom & _).
  destruct (detect_resource_spec d0 Hcom) as (cs' & Hdet' & Hids & Hcs).
  rewrite Hdet in Hdet'. injection Hdet' as <-.
  set (s0 := {| api1 := api1 s; api2 := api2 s; stats := stats0;
                sync_log := sync_log s |}).
  destruct (sync_resource_spec strategy rt s0 l1 l2 d0 cs0 H1 H2 Hscan Hcs)
    as (Hw & Hu & Hs & He & Hc).
  exists l1, l2. by split_and!.
Qed.

(** a run returns as soon as the two lists exist and every record has an id *)
Lemma run_resource_total strategy rt s l1 l2 :
  api1 s !! rt = Some l1 -> api2 s !! rt = Some l2 ->
  Forall (fun r => is_Some (record_id r)) l1 ->
  Forall (fun r => is_Some (record_id r)) l2 ->
  is_Some (run_resource iter_set iso_timestamp strategy rt s).
Proof.
  intros H1 H2 HF1 HF2. unfold run_resource. rewrite H1, H2.
  destruct (build_records_total "API-1" l1 ∅ HF1) as [m1 Hm1].
  destruct (build_records_total "API-2" l2 ∅ HF2) as [m2 Hm2].
  assert (exists d, scan_resource l1 l2 = Some d) as [d Hd]
    by (unfold scan_resource; rewrite Hm1, Hm2; eauto).
  rewrite Hd.
  destruct (view_init rt s l1 l2 d H1 H2 Hd) as (_ & _ & _ & Hcom & _).
  destruct (detect_resource_spec d Hcom) as (cs & -> & _). done.
Qed.

End Loops.

(** the scan of a state described by [written] *)
Lemma written_rescan rt M1 M2 W1 W2 s :
  written rt M1 M2 W1 W2 s ->
  exists l1 l2 d',
    api1 s !! rt = Some l1 /\ api2 s !! rt = Some l2 /\
    scan_resource l1 l2 = Some d' /\
    (forall k, api1_data d' !! k
               = if decide (k ∈ W1) then copy_to "API-1" k <$> M2 !! k
                 else M1 !! k) /\
    (forall k, api2_data d' !! k
               = if decide (k ∈ W2) then copy_to "API-2" k <$> M1 !! k
                 else M2 !! k).
Proof.
  intros (N1 & N2 & (l1 & l2 & H1 & H2 & HN1 & HN2) & HL1 & HL2).
  exists l1, l2. eexists. split_and!; [done..| | |].
  - unfold scan_resource. by rewrite HN1, HN2.
  - done.
  - done.
Qed.

(** when the exclusive keys were written across, both sides hold the union of
    the keys *)
Lemma written_dom (M1 M2 N1 N2 : gmap string APIRecord) (W1 W2 : gset string) :
  (forall k, N1 !! k = if decide (k ∈ W1) then copy_to "API-1" k <$> M2 !! k
                       else M1 !! k) ->
  (forall k, N2 !! k = if decide (k ∈ W2) then copy_to "API-2" k <$> M1 !! k
                       else M2 !! k) ->
  W1 ⊆ dom M2 -> W2 ⊆ dom M1 ->
  dom M1 ∖ dom M2 ⊆ W2 -> dom M2 ∖ dom M1 ⊆ W1 ->
  dom N1 = dom M1 ∪ dom M2 /\ dom N2 = dom M1 ∪ dom M2.
Proof.
  intros HL1 HL2 HW1 HW2 Ho1 Ho2. split; apply set_eq; intros k;
    rewrite elem_of_union, !elem_of_dom.
  - rewrite HL1. clear HL1 HL2. case_decide as Hk.
    + rewrite fmap_is_Some, <- !elem_of_dom. set_solver.
    + rewrite <- !elem_of_dom. split; [by left|]. intros [?|Hk2]; [done|].
      destruct (decide (k ∈ dom M1)) as [|Hn]; [done|].
      exfalso. apply Hk, Ho2. by apply elem_of_difference.
  - rewrite HL2. clear HL1 HL2. case_decide as Hk.
    + rewrite fmap_is_Some, <- !elem_of_dom. set_solver.
    + rewrite <- !elem_of_dom. split; [by right|]. intros [Hk1|?]; [|done].
      destruct (decide (k ∈ dom M2)) as [|Hn]; [done|].
      exfalso. apply Hk, Ho1. by apply elem_of_difference.
Qed.

Lemma ids_of_filter_subseteq (f : conflict -> bool) cs :
  ids_of (List.filter f cs) ⊆ ids_of cs.
Proof.
  unfold ids_of. intros k. rewrite !elem_of_list_to_set, !list_elem_of_fmap.
  intros (c & -> & Hc). exists c. split; [done|].
  apply list_elem_of_In, filter_In in Hc as [Hc _]. by apply list_elem_of_In.
Qed.

Lemma ids_of_filter_iter (f : string -> bool) (ks : list string) cs :
  map conflict_id cs = List.filter f ks ->
  forall k, k ∈ ids_of cs <-> k ∈ ks /\ f k = true.
Proof.
  intros H k. unfold ids_of. rewrite elem_of_list_to_set, H.
  by rewrite list_elem_of_In, filter_In, <- list_elem_of_In.
Qed.

Lemma checksum_records_ok src k r (m : gmap string APIRecord) :
  records_ok src m -> m !! k = Some r ->
  checksum r = calculate_checksum (data r).
Proof. intros Hok Hr. destruct (Hok _ _ Hr) as [_ Heq]. by rewrite Heq at 1. Qed.

Section Runs.

Context (iter_set : gset string -> list string).
Context (iso_timestamp : string -> option Z).
Hypothesis iter_set_perm : forall X, iter_set X ≡ₚ elements X.

#[local] Abbreviation run_resource := (run_resource iter_set iso_timestamp).
#[local] Abbreviation writes2 := (writes2 iso_timestamp).
#[local] Abbreviation skips := (skips iso_timestamp).

Lemma iter_set_empty : iter_set ∅ = [].
Proof. apply Permutation_nil_r. by rewrite iter_set_perm, elements_empty. Qed.

(** the facts about a run that the statements below share *)
Lemma run_resource_sets strategy rt s d cs s' :
  run_resource strategy rt s = Some (d, cs, s') ->
  records_ok "API-1" (api1_data d) /\ records_ok "API-2" (api2_data d) /\
  common_records d = dom (api1_data d) ∩ dom (api2_data d) /\
  api1_only d = dom (api1_data d) ∖ dom (api2_data d) /\
  api2_only d = dom (api2_data d) ∖ dom (api1_data d) /\
  (forall k, k ∈ ids_of cs <-> k ∈ common_records d /\ differs d k = true).
Proof.
  intros Hrun.
  destruct (run_resource_spec _ _ iter_set_perm _ _ _ _ _ _ Hrun)
    as (l1 & l2 & H1 & H2 & Hscan & _ & Hids & _).
  destruct (view_init rt s l1 l2 d H1 H2 Hscan) as (_ & ? & ? & ? & ? & ?).
  split_and!; try done.
  intros k. rewrite (ids_of_filter_iter _ _ _ Hids).
  by rewrite elem_of_iter_set.
Qed.

(** propagation: the next scan shows every exclusive key on the other side,
    with the payload it had, and finds no exclusive key *)
Lemma api_propagation strategy rt s d cs s' :
  run_resource strategy rt s = Some (d, cs, s') ->
  exists l1' l2' d',
    api1 s' !! rt = Some l1' /\ api2 s' !! rt = Some l2' /\
    scan_resource l1' l2' = Some d' /\
    (forall k, k ∈ api1_only d ->
       exists r, api1_data d !! k = Some r /\
                 api2_data d' !! k = Some (copy_to "API-2" k r)) /\
    (forall k, k ∈ api2_only d ->
       exists r, api2_data d !! k = Some r /\
                 api1_data d' !! k = Some (copy_to "API-1" k r)) /\
    api1_only d' = ∅ /\ api2_only d' = ∅ /\
    errors (stats s') = 0%nat.
Proof.
  intros Hrun.
  destruct (run_resource_sets _ _ _ _ _ _ Hrun)
    as (Hok1 & Hok2 & Hcom & Ho1 & Ho2 & Hids).
  destruct (run_resource_spec _ _ iter_set_perm _ _ _ _ _ _ Hrun)
    as (l1 & l2 & H1 & H2 & Hscan & _ & _ & Hcs & Hw & _ & _ & He & _).
  destruct (written_rescan _ _ _ _ _ _ Hw)
    as (l1' & l2' & d' & H1' & H2' & Hscan' & HL1 & HL2).
  destruct (view_init rt s' l1' l2' d' H1' H2' Hscan')
    as (_ & _ & _ & _ & Ho1' & Ho2').
  assert (ids_of cs ⊆ dom (api1_data d) ∩ dom (api2_data d)) as Hsub.
  { intros k Hk. apply Hids in Hk as [Hk _]. by rewrite <- Hcom. }
  pose proof (ids_of_filter_subseteq (writes1 strategy) cs) as Hs1.
  pose proof (ids_of_filter_subseteq (writes2 strategy) cs) as Hs2.
  destruct (written_dom _ _ _ _ _ _ HL1 HL2) as [Hd1 Hd2];
    [set_solver..|].
  exists l1', l2', d'. split_and!; try done.
  - intros k Hk.
    assert (is_Some (api1_data d !! k)) as [r Hr]
      by (apply elem_of_dom; set_solver).
    exists r. split; [done|]. rewrite HL2, decide_True by set_solver.
    by rewrite Hr.
  - intros k Hk.
    assert (is_Some (api2_data d !! k)) as [r Hr]
      by (apply elem_of_dom; set_solver).
    exists r. split; [done|]. rewrite HL1, decide_True by set_solver.
    by rewrite Hr.
  - rewrite Ho1', Hd1, Hd2. set_solver.
  - rewrite Ho2', Hd1, Hd2. set_solver.
Qed.

(** step 1 writes in one direction only *)
Lemma writes_one_way strategy cs :
  List.filter (writes1 strategy) cs = [] \/
  List.filter (writes2 strategy) cs = [].
Proof.
  destruct (String.eqb strategy "api2_wins") eqn:E.
  - right. apply String.eqb_eq in E as ->.
    apply filter_all_false. intros c _. reflexivity.
  - left. apply filter_all_false. intros c _. exact E.
Qed.

Lemma ids_of_nil_inv cs : ids_of cs = ∅ -> cs = [].
Proof.
  destruct cs as [|c cs]; [done|]. unfold ids_of. simpl. set_solver.
Qed.

(** the second of two runs in succession *)
Lemma api_second_run strategy rt s d cs s1 :
  run_resource strategy rt s = Some (d, cs, s1) ->
  exists d2 cs2 s2,
    run_resource strategy rt s1 = Some (d2, cs2, s2) /\
    api1_only d2 = ∅ /\ api2_only d2 = ∅ /\
    created (stats s2) = 0%nat /\ errors (stats s2) = 0%nat /\
    (forall k, k ∈ ids_of cs2 <->
       (k ∈ ids_of cs) /\
       (k ∉ ids_of (List.filter (writes1 strategy) cs)) /\
       (k ∉ ids_of (List.filter (writes2 strategy) cs))) /\
    (updated (stats s1) = length cs ->
       cs2 = [] /\ api1 s2 = api1 s1 /\ api2 s2 = api2 s1 /\
       stats s2 = stats0 /\ sync_log s2 = sync_log s1).
Proof.
  intros Hrun.
  destruct (run_resource_sets _ _ _ _ _ _ Hrun)
    as (Hok1 & Hok2 & Hcom & Ho1 & Ho2 & Hids).
  destruct (run_resource_spec _ _ iter_set_perm _ _ _ _ _ _ Hrun)
    as (l1 & l2 & H1 & H2 & Hscan & _ & _ & Hcs & Hw & Hu & _).
  set (A1 := ids_of (List.filter (writes1 strategy) cs)) in *.
  set (A2 := ids_of (List.filter (writes2 strategy) cs)) in *.
  destruct (written_rescan _ _ _ _ _ _ Hw)
    as (l1' & l2' & d' & H1' & H2' & Hscan' & HL1 & HL2).
  destruct (view_init rt s1 l1' l2' d' H1' H2' Hscan')
    as (_ & _ & _ & Hcom' & Ho1' & Ho2').
  assert (ids_of cs ⊆ dom (api1_data d) ∩ dom (api2_data d)) as Hsub.
  { intros k Hk. apply Hids in Hk as [Hk _]. by rewrite <- Hcom. }
  assert (A1 ⊆ ids_of cs) as Hs1 by apply ids_of_filter_subseteq.
  assert (A2 ⊆ ids_of cs) as Hs2 by apply ids_of_filter_subseteq.
  assert (A1 = ∅ \/ A2 = ∅) as Hone.
  { unfold A1, A2. destruct (writes_one_way strategy cs) as [-> | ->]; auto. }
  destruct (written_dom _ _ _ _ _ _ HL1 HL2) as [Hd1 Hd2]; [set_solver..|].
  (* the checksums of the second scan *)
  assert (forall k, differs d' k
                    = if decide (k ∈ A1 ∪ A2 ∪ api1_only d ∪ api2_only d)
                      then false else differs d k) as Hdiff.
  { intros k. unfold differs. rewrite HL1, HL2.
    destruct (decide (k ∈ A1 ∪ api2_only d)) as [Hk1|Hk1];
      destruct (decide (k ∈ A2 ∪ api1_only d)) as [Hk2|Hk2].
    - exfalso. clear HL1 HL2. set_solver.
    - rewrite decide_True by set_solver.
      destruct (api2_data d !! k) as [r|] eqn:Hr; simpl; [|done].
      unfold copy_to.
      by rewrite ?checksum_make_record, (checksum_records_ok _ _ _ _ Hok2 Hr),
           String.eqb_refl.
    - rewrite decide_True by set_solver.
      destruct (api1_data d !! k) as [r|] eqn:Hr; simpl; [|done].
      unfold copy_to.
      by rewrite ?checksum_make_record, (checksum_records_ok _ _ _ _ Hok1 Hr),
           String.eqb_refl.
    - by rewrite decide_False by set_solver. }
  destruct (detect_resource_spec iter_set iso_timestamp iter_set_perm d' Hcom')
    as (cs2 & Hdet & Hids2 & Hcs2).
  set (s0 := {| api1 := api1 s1; api2 := api2 s1; stats := stats0;
                sync_log := sync_log s1 |}).
  exists d', cs2, (sync_resource iter_set iso_timestamp strategy rt d' cs2 s0).
  assert (api1_only d' = ∅) as He1 by (rewrite Ho1', Hd1, Hd2; set_solver).
  assert (api2_only d' = ∅) as He2 by (rewrite Ho2', Hd1, Hd2; set_solver).
  destruct (sync_resource_spec iter_set iso_timestamp iter_set_perm strategy rt
              s0 l1' l2' d' cs2 H1' H2' Hscan' Hcs2)
    as (_ & _ & _ & He & Hc).
  assert (forall k, k ∈ ids_of cs2 <-> (k ∈ ids_of cs) /\ (k ∉ A1) /\ (k ∉ A2))
    as Hids2'.
  { intros k.
    rewrite (ids_of_filter_iter _ _ _ Hids2), (elem_of_iter_set _ iter_set_perm).
    rewrite Hdiff, Hids, Hcom', Hd1, Hd2, Hcom.
    clear HL1 HL2 Hdiff. case_decide as Hk.
    - split; [by intros [_ ?]|]. intros ([Hk' _] & ? & ?). set_solver.
    - split.
      + intros [_ Hdk]. split_and!; [|done|set_solver..].
        unfold differs in Hdk. apply elem_of_intersection.
        rewrite !elem_of_dom.
        destruct (api1_data d !! k), (api2_data d !! k); naive_solver.
      + intros ([Hk' ?] & _). split; [set_solver | done]. }
  split_and!.
  - unfold run_resource, Api.run_resource. by rewrite H1', H2', Hscan', Hdet.
  - done.
  - done.
  - rewrite Hc, He1, He2. by rewrite size_empty.
  - by rewrite He.
  - done.
  - intros Hall. rewrite Hu in Hall. apply filter_length_all in Hall.
    assert (cs2 = []) as ->.
    { apply ids_of_nil_inv, set_eq. intros k. rewrite Hids2'.
      split; [|set_solver]. intros (Hk & Hn1 & Hn2). exfalso.
      unfold ids_of in Hk. apply elem_of_list_to_set, list_elem_of_fmap in Hk
        as (c & -> & Hc').
      rewrite <- Hall in Hc'.
      apply list_elem_of_In, filter_In in Hc' as [Hc' Hf].
      apply list_elem_of_In in Hc'.
      apply orb_true_iff in Hf as [Hf|Hf].
      - apply Hn2. unfold A2, ids_of.
        apply elem_of_list_to_set, list_elem_of_fmap. exists c. split; [done|].
        apply list_elem_of_In, filter_In. split; [by apply list_elem_of_In|done].
      - apply Hn1. unfold A1, ids_of.
        apply elem_of_list_to_set, list_elem_of_fmap. exists c. split; [done|].
        apply list_elem_of_In, filter_In. split; [by apply list_elem_of_In|done]. }
    unfold sync_resource. rewrite He1, He2, iter_set_empty. simpl.
    by split_and!.
Qed.

End Runs.

(** *** Single steps: strategies and failures *)

Section Steps.

Context (iter_set : gset string -> list string).
Context (iso_timestamp : string -> option Z).

#[local] Abbreviation resolve_conflict := (resolve_conflict iso_timestamp).
#[local] Abbreviation _parse_timestamp := (_parse_timestamp iso_timestamp).


(** latest-wins: API-2 newer, or a tie *)
Lemma resolve_latest_not_newer rt s k r1 r2 :
  _parse_timestamp (last_modified r1) <= _parse_timestamp (last_modified r2) ->
  resolve_conflict "latest_wins" rt s (k, r1, r2)
  = {| api1 := api1 s; api2 := api2 s; stats := add_skipped (stats s);
       sync_log := sync_log s ++ [Skipped rt k "API-2 newer"] |}.
Proof.
  intros Hle. unfold Api.resolve_conflict. simpl.
  apply Z.ltb_ge in Hle. by rewrite Hle.
Qed.






(** a write into a server that has no list for the resource type raises *)
Lemma create_in_api2_raises rt d s k r :
  api1_data d !! k = Some r -> api2 s !! rt = None ->
  create_in_api2 rt d s k = on_error s (ErrorCreating rt k (KeyError rt)).
Proof.
  intros Hr Hn. unfold create_in_api2.
  by rewrite Hr, (update_api_record_raises _ _ _ Hn).
Qed.



(** every conflict is accounted for under a recognised strategy: updated,
    skipped or counted as an error *)
Lemma resolve_conflict_count strategy rt s c :
  recognised strategy = true ->
  let st := stats s in
  let st' := stats (resolve_conflict strategy rt s c) in
  (updated st' + skipped st' + errors st'
   = updated st + skipped st + errors st + 1)%nat.
Proof.
  unfold recognised. intros H. destruct c as [[k r1] r2]. cbv zeta.
  unfold Api.resolve_conflict.
  destruct (String.eqb strategy "latest_wins").
  { destruct (_ <? _); [destruct (_update_api_record _ _ _)|]; simpl; lia. }
  destruct (String.eqb strategy "api1_wins").
  { destruct (_update_api_record _ _ _); simpl; lia. }
  destruct (String.eqb strategy "api2_wins"); [|done].
  destruct (_update_api_record _ _ _); simpl; lia.
Qed.

Lemma fold_resolve_count strategy rt cs s :
  recognised strategy = true ->
  let st := stats s in
  let st' := stats (fold_left (resolve_conflict strategy rt) cs s) in
  (updated st' + skipped st' + errors st'
   = updated st + skipped st + errors st + length cs)%nat.
Proof.
  intros H. cbv zeta. revert s.
  induction cs as [|c cs IH]; intros s; simpl; [lia|].
  rewrite IH. pose proof (resolve_conflict_count strategy rt s c H) as Hc.
  cbv zeta in Hc. lia.
Qed.

End Steps.

(** *** The order of iteration *)



Section Order.

Context (iter_set iter_set' : gset string -> list string).
Context (iso_timestamp : string -> option Z).
Hypothesis iter_set_perm : forall X, iter_set X ≡ₚ elements X.
Hypothesis iter_set_perm' : forall X, iter_set' X ≡ₚ elements X.

#[local] Abbreviation writes2 := (writes2 iso_timestamp).
#[local] Abbreviation skips := (skips iso_timestamp).

(** the conflicts come in the order of the iteration over the common keys *)
Lemma detect_order rt strategy s d cs s' :
  run_resource iter_set iso_timestamp strategy rt s = Some (d, cs, s') ->
  map conflict_id cs = List.filter (differs d) (iter_set (common_records d)) /\
  NoDup (map conflict_id cs) /\
  (forall k, k ∈ map conflict_id cs <->
             k ∈ common_records d /\ differs d k = true) /\
  (StronglySorted String.le (iter_set (common_records d)) ->
   StronglySorted String.le (map conflict_id cs)).
Proof.
  intros Hrun.
  destruct (run_resource_spec _ _ iter_set_perm _ _ _ _ _ _ Hrun)
    as (l1 & l2 & _ & _ & _ & _ & Hids & _).
  split_and!.
  - done.
  - rewrite Hids. apply filter_bool_NoDup.
    rewrite iter_set_perm. apply NoDup_elements.
  - intros k. rewrite Hids, list_elem_of_In, filter_In, <- list_elem_of_In.
    by rewrite (elem_of_iter_set _ iter_set_perm).
  - rewrite Hids. apply filter_bool_StronglySorted.
Qed.


End Order.

End ApiFacts.

(** ** The database engine *)

Module DbFacts.
Import Py Db DbSpec ListFacts.

Lemma row_of_load db : map row_of (_load_records db) = db.
Proof.
  unfold _load_records. rewrite map_map.
  induction db as [|[i n e p lu] db IH]; simpl; [done|]. by rewrite IH.
Qed.

Lemma ids_load db : map id (_load_records db) = ids db.
Proof. unfold _load_records, ids. rewrite map_map. by apply map_ext. Qed.

Lemma checksum_load db r :
  r ∈ _load_records db ->
  checksum r = calculate_checksum (name r) (email r) (phone r) (last_updated r).
Proof.
  unfold _load_records. intros H. apply list_elem_of_fmap in H as (x & -> & _).
  reflexivity.
Qed.

(** the constraints of the table, as a relation between its rows *)
Lemma table_okb_sorted db :
  table_okb db = true ->
  StronglySorted (fun r r' => row_id r < row_id r' /\ compatible r r') db.
Proof.
  induction db as [|r db IH]; simpl; [constructor|].
  intros H. apply andb_true_iff in H as [H1 H2].
  constructor; [by apply IH|].
  rewrite forallb_forall in H1. apply Forall_forall. intros r' Hr'.
  apply list_elem_of_In, H1, andb_true_iff in Hr' as [Hlt Hcl].
  apply Z.ltb_lt in Hlt. apply negb_true_iff in Hcl.
  unfold compatible. split_and!; [done | lia | done].
Qed.

(** [UPDATE] keeps the ids *)
Lemma update_record_ids db r db' :
  _update_record db r = inr db' -> ids db' = ids db.
Proof.
  unfold _update_record, ids.
  destruct (existsb _ db); [|by intros [= <-]].
  destruct (existsb _ db); [done|]. intros [= <-].
  rewrite map_map. apply map_ext_in. intros x _.
  destruct (row_id x =? id r) eqn:E; [|done].
  apply Z.eqb_eq in E. by rewrite E.
Qed.


Lemma elem_of_insert_row x y t :
  y ∈ insert_row x t <-> y = x \/ y ∈ t.
Proof.
  induction t as [|r t IH]; simpl.
  - rewrite list_elem_of_singleton. set_solver.
  - destruct (row_id x <? row_id r).
    + by rewrite elem_of_cons.
    + rewrite !elem_of_cons, IH. naive_solver.
Qed.



Lemma sqltext_eqb_refl x : sqltext_eqb x x = true.
Proof. destruct x; simpl; [apply String.eqb_refl | done]. Qed.



(** the statements that a strategy executes keep the ids of both files *)
Lemma apply_strategy_ids strategy s a b src tgt :
  apply_strategy strategy s a b = inr (src, tgt) ->
  ids src = ids (source_db s) /\ ids tgt = ids (target_db s).
Proof.
  unfold apply_strategy.
  repeat match goal with
  | |- context [if ?c then _ else _] => destruct c
  | |- context [match _update_record ?db ?r with _ => _ end] =>
      let E := fresh "E" in
      destruct (_update_record db r) eqn:E;
      [|apply update_record_ids in E]
  | |- context [match text_gt ?x ?y with _ => _ end] => destruct (text_gt x y)
  end; intros [= <- <-]; by split.
Qed.


(** a [None] timestamp makes the comparison raise *)
Lemma apply_latest_wins_null s a b :
  last_updated a = None \/ last_updated b = None ->
  apply_strategy "latest_wins" s a b = inl TypeError.
Proof.
  intros H. unfold apply_strategy. simpl.
  destruct H as [-> | ->]; [done|]. by destruct (last_updated a).
Qed.


(** a step of the first loop moves the error counter only through the
    handler, and otherwise counts one update for a conflicting entry *)
Lemma sync_pair_isolated strategy s item :
  let s' := sync_pair strategy s item in
  (errors (stats s') = errors (stats s) /\
   inserted (stats s') = inserted (stats s) /\
   updated (stats s') = (updated (stats s) + b2n_db (conflicting item))%nat /\
   ids (source_db s') = ids (source_db s) /\
   ids (target_db s') = ids (target_db s)) \/
  (conflicting item = true /\
   exists e, s' = on_error s (ErrorUpdating item.1 e)).
Proof.
  destruct item as [record_id p]. cbv zeta. unfold sync_pair, conflicting.
  simpl. destruct (negb _); simpl.
  - destruct (apply_strategy strategy s (source p) (target p))
      as [e|[src tgt]] eqn:E.
    + right. split; [done|]. by exists e.
    + left. apply apply_strategy_ids in E as [? ?]. simpl.
      split_and!; first [done | lia].
  - left. split_and!; first [done | lia].
Qed.

Lemma fold_sync_pair_ids strategy items s :
  let s' := fold_left (sync_pair strategy) items s in
  ids (source_db s') = ids (source_db s) /\
  ids (target_db s') = ids (target_db s) /\
  inserted (stats s') = inserted (stats s) /\
  (updated (stats s') + errors (stats s')
   = updated (stats s) + errors (stats s)
     + length (List.filter conflicting items))%nat.
Proof.
  cbv zeta. revert s. induction items as [|item items IH]; intros s; simpl.
  { split_and!; first [done | lia]. }
  destruct (IH (sync_pair strategy s item)) as (-> & -> & -> & ->).
  destruct (sync_pair_isolated strategy s item)
    as [(He & Hi & Hu & Hs & Ht) | (Hc & e & ->)].
  - rewrite Hs, Ht, Hi, He, Hu. destruct (conflicting item); simpl;
      split_and!; first [done | lia].
  - rewrite Hc. simpl. split_and!; first [done | lia].
Qed.


(** the three sets of ids form a partition of the ids of both files *)
Lemma ids_partition_spec (srcs tgts : list Record_) :
  let p := ids_partition srcs tgts in
  let A : gset Z := list_to_set (map id srcs) in
  let B : gset Z := list_to_set (map id tgts) in
  only_source p ## only_target p /\ only_source p ## intersection_ids p /\
  only_target p ## intersection_ids p /\
  only_source p ∪ only_target p ∪ intersection_ids p = A ∪ B.
Proof.
  cbv zeta. unfold ids_partition. simpl. split_and!; [set_solver..|].
  apply set_eq. intros k.
  destruct (decide (k ∈ (list_to_set (map id srcs) : gset Z)));
    destruct (decide (k ∈ (list_to_set (map id tgts) : gset Z)));
    set_solver.
Qed.

(** the generator of the comprehension stops at the first record *)
Lemma find_self (l : list Record_) :
  List.find (fun r => id r =? id r) l = head l.
Proof. destruct l as [|r l]; simpl; [done|]. by rewrite Z.eqb_refl. Qed.

Lemma build_intersection_total srcs tgts (I : gset Z) rs acc :
  (forall r, r ∈ rs -> id r ∈ I -> srcs <> [] /\ tgts <> []) ->
  exists inter, build_intersection srcs tgts I rs acc = inr inter.
Proof.
  revert acc. induction rs as [|r rs IH]; intros acc H; simpl; [eauto|].
  assert (forall r', r' ∈ rs -> id r' ∈ I -> srcs <> [] /\ tgts <> []) as H'
    by (intros r' ? ?; apply (H r'); set_solver).
  case_decide as Hr; [|by apply IH].
  destruct (H r) as [Hs Ht]; [set_solver | done |].
  rewrite !find_self.
  destruct srcs as [|s0 srcs]; [done|]. destruct tgts as [|t0 tgts]; [done|].
  simpl. by apply IH.
Qed.

(** [scan_intersections] returns, with the exclusive records of each side *)
Lemma scan_intersections_spec src tgt :
  exists inter,
    scan_intersections src tgt
    = inr {| source_only :=
               List.filter
                 (fun r => bool_decide
                             (id r ∈ only_source
                                (ids_partition (_load_records src)
                                   (_load_records tgt))))
                 (_load_records src);
             target_only :=
               List.filter
                 (fun r => bool_decide
                             (id r ∈ only_target
                                (ids_partition (_load_records src)
                                   (_load_records tgt))))
                 (_load_records tgt);
             intersection := inter |}.
Proof.
  unfold scan_intersections.
  destruct (build_intersection_total (_load_records src) (_load_records tgt)
              (intersection_ids
                 (ids_partition (_load_records src) (_load_records tgt)))
              (_load_records src) []) as [inter ->]; [|by exists inter].
  intros r Hr HI. unfold ids_partition in HI. simpl in HI.
  apply elem_of_intersection in HI as [_ HI].
  apply elem_of_list_to_set in HI.
  split; intros E; rewrite E in *; set_solver.
Qed.


End DbFacts.

(** ** A strategy that the API engine does not know *)

Module ApiUnrecognised.
Import Py Api ApiSpec ListFacts ApiFacts.

Lemma writes_unrecognised iso_timestamp strategy cs :
  recognised strategy = false ->
  List.filter (writes1 strategy) cs = [] /\
  List.filter (writes2 iso_timestamp strategy) cs = [] /\
  List.filter (skips iso_timestamp strategy) cs = [] /\
  List.filter
    (fun c => writes2 iso_timestamp strategy c || writes1 strategy c) cs = [].
Proof.
  unfold recognised. intros H.
  apply orb_false_iff in H as [H H3]. apply orb_false_iff in H as [H1 H2].
  split_and!; apply filter_all_false; intros c _;
    unfold writes1, writes2, skips; by rewrite ?H1, ?H2, ?H3.
Qed.


End ApiUnrecognised.

(** * The claims of the specification *)

Import Py.

(** C2 -- Partition invariant.  For the keys enumerated on the two sides of
    one resource type, the sets onlyA, onlyB and common computed by
    [scan_intersections] are pairwise disjoint and their union is the union
    of the two key sets; in the API engine the keys are the ids of the
    records of the two lists, in the database engine the ids of the rows of
    the two files. *)
Theorem C2_partition_invariant (l1 l2 : list pydict) (d : Api.scan_result)
    (source_db target_db : Db.table) :
  Api.scan_resource l1 l2 = Some d ->
  is_partition (Api.api1_only d) (Api.api2_only d) (Api.common_records d)
    (list_to_set (omap Api.record_id l1))
    (list_to_set (omap Api.record_id l2)) /\
  (let p := Db.ids_partition (Db._load_records source_db)
              (Db._load_records target_db) in
   is_partition (Db.only_source p) (Db.only_target p) (Db.intersection_ids p)
     (list_to_set (DbSpec.ids source_db))
     (list_to_set (DbSpec.ids target_db))).
Proof.
  intros Hscan. split.
  - unfold Api.scan_resource in Hscan.
    destruct (Api.build_records "API-1" l1 ∅) as [m1|] eqn:H1; [|done].
    destruct (Api.build_records "API-2" l2 ∅) as [m2|] eqn:H2; [|done].
    injection Hscan as <-. simpl.
    apply ApiFacts.build_records_dom in H1 as [_ H1].
    apply ApiFacts.build_records_dom in H2 as [_ H2].
    rewrite dom_empty_L, (left_id_L ∅ (∪)) in H1, H2. rewrite <- H1, <- H2.
    unfold is_partition. split_and!; [set_solver..|].
    apply set_eq. intros k.
    destruct (decide (k ∈ dom m1)), (decide (k ∈ dom m2)); set_solver.
  - cbv zeta. rewrite <- !DbFacts.ids_load.
    apply DbFacts.ids_partition_spec.
Qed.

Lemma C2_partition_witness :
  match Api.scan_resource Samples.users1 Samples.users2 with
  | Some d =>
      elements (Api.common_records d) = ["1"; "2"] /\
      is_partition (Api.api1_only d) (Api.api2_only d) (Api.common_records d)
        (list_to_set (omap Api.record_id Samples.users1))
        (list_to_set (omap Api.record_id Samples.users2))
  | None => False
  end.
Proof.
  destruct (Api.scan_resource Samples.users1 Samples.users2) as [d|] eqn:E.
  - split.
    + vm_compute in E. injection E as <-. vm_compute. reflexivity.
    + exact (proj1 (C2_partition_invariant _ _ d Samples.source_table
                      Samples.target_table E)).
  - vm_compute in E. discriminate E.
Defined.

(** C5 -- Apply contract, at the input where the API engine departs from it.
    [_update_api_record] is asked to write the record of key 1 into a list
    that already holds key 1: the membership test compares the id with the
    records themselves, never succeeds, and the record is appended, so that
    the list holds key 1 twice. *)
Theorem C5_update_appends_a_duplicate :
  Api._update_api_record {[ "users" := Samples.scenario_b ]} "users"
    (Api.make_record "API-1" "1" [("id", JStr "1"); ("age", JInt 30)])
  = inr {[ "users" := [ [("id", JStr "1"); ("age", JInt 31)];
                        [("id", JStr "2"); ("name", JStr "x")];
                        [("id", JStr "1"); ("age", JInt 30)] ] ]}.
Proof.
  rewrite (ApiFacts.update_api_record_appends _ _ _ Samples.scenario_b)
    by apply lookup_singleton_eq.
  by rewrite insert_singleton_eq.
Qed.

(** C6 -- Conflict invariant, at the inputs where the code departs from it.
    API engine: a field that is [None] on one side and absent on the other
    makes the checksums differ, so a conflict is produced, but
    [_get_different_fields] reads both sides with [get] and lists no field.
    Database engine: [scan_intersections] pairs the first record of the
    source with the first record of the target under every common id; on the
    sample files a conflict is produced for id 2, whose two checksums are
    equal, and on two files that agree on id 1 and disagree on id 2 no
    conflict is produced at all. *)
Theorem C6_conflicts_at_failing_inputs :
  (Api.calculate_checksum Samples.with_null
   <> Api.calculate_checksum Samples.without_field /\
   match Api.run_resource elements Iso.iso_utc "api1_wins" "users"
           Samples.null_state with
   | Some (_, cs, _) => map Api.conflict_id cs = ["1"]
   | None => False
   end /\
   forall iter_set,
     Api._get_different_fields iter_set Samples.with_null Samples.without_field
     = []) /\
  (match Db.run "latest_wins" Samples.source_table Samples.target_table [] with
   | inr (cs, _) => map Db.conflict_id cs = [1; 2]
   | inl _ => False
   end /\
   Db.checksum <$> DbSpec.record_at Samples.source_table 2
   = Db.checksum <$> DbSpec.record_at Samples.target_table 2) /\
  (match Db.run "latest_wins" Samples.agree1_source Samples.agree1_target []
   with
   | inr (cs, _) => cs = []
   | inl _ => False
   end /\
   Db.checksum <$> DbSpec.record_at Samples.agree1_source 2
   <> Db.checksum <$> DbSpec.record_at Samples.agree1_target 2).
Proof.
  split_and!.
  - vm_compute. discriminate.
  - vm_compute. reflexivity.
  - intros iter_set. unfold Api._get_different_fields.
    apply ListFacts.filter_all_false. intros k _.
    unfold get, get_default, Samples.with_null, Samples.without_field. simpl.
    destruct (String.eqb k "id"); [reflexivity|].
    destruct (String.eqb k "nickname"); reflexivity.
  - vm_compute. reflexivity.
  - vm_compute. reflexivity.
  - vm_compute. reflexivity.
  - vm_compute. discriminate.
Qed.

(** C8 -- Fingerprint determinism and order-independence.  The checksum is a
    function of the payload: the checksum stored in a record is the one that
    recomputation yields, in both engines; and two payloads that are equal as
    mappings from fields to values, whatever the order in which their fields
    were inserted, have the same checksum.  The same holds when dictionaries
    nested in the payload are reordered. *)
Theorem C8_fingerprint_order_independent (d d' : pydict) (src i : string)
    (k : Z) (n : string) (e p lu : Db.sqltext) :
  NoDup (keys d) -> NoDup (keys d') ->
  (forall f, dict_get f d = dict_get f d') ->
  Api.calculate_checksum d = Api.calculate_checksum d' /\
  Api.checksum (Api.make_record src i d) = Api.calculate_checksum d /\
  Db.checksum (Db.new_Record k n e p lu "") = Db.calculate_checksum n e p lu /\
  (forall v, wf (JDict d) -> reordered (JDict d) v ->
             md5_hexdigest (encode (dumps v)) = Api.calculate_checksum d).
Proof.
  intros Hnd Hnd' Hget. split_and!.
  - unfold Api.calculate_checksum. do 2 f_equal.
    apply PyFacts.dumps_dict_Permutation; [done|].
    by apply PyFacts.dict_mapping_Permutation.
  - reflexivity.
  - reflexivity.
  - intros v Hwf Hro. unfold Api.calculate_checksum. do 2 f_equal.
    symmetry. by apply PyFacts.dumps_reordered.
Qed.

Lemma C8_fingerprint_witness :
  Api.calculate_checksum Samples.ion
  = Api.calculate_checksum Samples.ion_reordered /\
  Api.calculate_checksum Samples.ion = "1b132271cd500a31f4a913b63cb7a792".
Proof.
  split; [|vm_compute; reflexivity].
  refine (proj1 (C8_fingerprint_order_independent Samples.ion
                   Samples.ion_reordered "API-1" "1" 1 "Ion" None None None
                   _ _ _)).
  - apply (bool_decide_unpack _). vm_compute. exact I.
  - apply (bool_decide_unpack _). vm_compute. exact I.
  - intros f. unfold Samples.ion, Samples.ion_reordered, Samples.user. simpl.
    destruct (String.eqb_spec f "id") as [->|]; [reflexivity|].
    destruct (String.eqb_spec f "name") as [->|]; [reflexivity|].
    destruct (String.eqb_spec f "email") as [->|]; [reflexivity|].
    destruct (String.eqb_spec f "status") as [->|]; [reflexivity|].
    destruct (String.eqb_spec f "last_login") as [->|]; reflexivity.
Defined.







(** C4 -- Idempotence, as the code has it in the API engine.  After a run
    on one resource type, a second run from the state it left returns; under
    every strategy it finds no exclusive key, creates nothing and counts no
    error; its conflicts are exactly the conflicts of the first run that
    step 1 did not write (those skipped under latest-wins, all of them under
    an unrecognised strategy); and when the first run updated every conflict,
    as it always does under [api1_wins] and [api2_wins], the second run finds
    no conflict and leaves both servers, the log and the zero counters as
    they are. *)
Theorem C4_second_run (iter_set : gset string -> list string)
    (iso_timestamp : string -> option Z) (strategy rt : string)
    (s s1 : Api.state) (d : Api.scan_result) (cs : list Api.conflict) :
  (forall X, iter_set X ≡ₚ elements X) ->
  Api.run_resource iter_set iso_timestamp strategy rt s = Some (d, cs, s1) ->
  exists d2 cs2 s2,
    Api.run_resource iter_set iso_timestamp strategy rt s1
    = Some (d2, cs2, s2) /\
    Api.api1_only d2 = ∅ /\ Api.api2_only d2 = ∅ /\
    Api.created (Api.stats s2) = 0%nat /\
    Api.errors (Api.stats s2) = 0%nat /\
    (forall k, k ∈ ApiSpec.ids_of cs2 <->
       (k ∈ ApiSpec.ids_of cs) /\
       (k ∉ ApiSpec.ids_of (List.filter (ApiSpec.writes1 strategy) cs)) /\
       (k ∉ ApiSpec.ids_of
              (List.filter (ApiSpec.writes2 iso_timestamp strategy) cs))) /\
    (Api.updated (Api.stats s1) = length cs ->
       cs2 = [] /\ Api.api1 s2 = Api.api1 s1 /\ Api.api2 s2 = Api.api2 s1 /\
       Api.stats s2 = Api.stats0 /\ Api.sync_log s2 = Api.sync_log s1) /\
    (strategy = "api1_wins" \/ strategy = "api2_wins" ->
       Api.updated (Api.stats s1) = length cs).
Proof.
  intros Hperm Hrun.
  destruct (ApiFacts.api_second_run iter_set iso_timestamp Hperm strategy rt
              s d cs s1 Hrun)
    as (d2 & cs2 & s2 & H2 & Ho1 & Ho2 & Hc & He & Hids & Hall).
  exists d2, cs2, s2. split_and!; try done.
  intros Hstrat.
  destruct (ApiFacts.run_resource_spec iter_set iso_timestamp Hperm strategy
              rt s d cs s1 Hrun)
    as (_ & _ & _ & _ & _ & _ & _ & _ & _ & Hu & _).
  rewrite Hu. f_equal.
  apply forallb_filter_id, forallb_forall. intros c _.
  unfold ApiSpec.writes2, ApiSpec.writes1.
  destruct Hstrat as [-> | ->]; reflexivity.
Qed.

Lemma C4_second_run_witness :
  match Api.run_resource elements Iso.iso_utc "api1_wins" "users"
          Samples.scenario_state with
  | Some (d, cs, s1) =>
      Api.updated (Api.stats s1) = length cs /\
      exists d2 s2,
        Api.run_resource elements Iso.iso_utc "api1_wins" "users" s1
        = Some (d2, [], s2) /\
        Api.api1 s2 = Api.api1 s1 /\ Api.api2 s2 = Api.api2 s1 /\
        Api.stats s2 = Api.stats0
  | None => False
  end.
Proof.
  destruct (Api.run_resource elements Iso.iso_utc "api1_wins" "users"
              Samples.scenario_state) as [[[d cs] s1]|] eqn:E.
  - destruct (C4_second_run elements Iso.iso_utc "api1_wins" "users"
                Samples.scenario_state s1 d cs
                (fun X => reflexivity (elements X)) E)
      as (d2 & cs2 & s2 & H2 & _ & _ & _ & _ & _ & Hall & Hstrat).
    pose proof (Hstrat (or_introl eq_refl)) as Hu.
    destruct (Hall Hu) as (Hnil & Ha1 & Ha2 & Hst & _).
    split; [exact Hu|]. exists d2, s2.
    rewrite Hnil in H2. exact (conj H2 (conj Ha1 (conj Ha2 Hst))).
  - vm_compute in E. discriminate E.
Defined.

Lemma C4_counterexample :
  match Api.run_resource elements Iso.iso_utc "latest_wins" "users"
          Samples.api_state with
  | Some (_, cs, s1) =>
      map Api.conflict_id cs = ["1"; "2"] /\
      Api.errors (Api.stats s1) = 0%nat /\
      match Api.run_resource elements Iso.iso_utc "latest_wins" "users" s1 with
      | Some (_, cs2, s2) =>
          map Api.conflict_id cs2 = ["1"; "2"] /\
          Api.skipped (Api.stats s2) = 2%nat
      | None => False
      end
  | None => False
  end.
Proof. vm_compute. by split_and!. Qed.

(** C7 -- Order of the conflicts, as the code has it.  [detect_conflicts]
    does not sort: the conflicts of one resource type come in the order in
    which the loop visits the set of common keys, each conflicting key once.
    The sequence is therefore sorted by key whenever that iteration is, and
    two runs on the same input that iterate in the same order report the
    same sequence. *)
Theorem C7_conflict_order (iter_set : gset string -> list string)
    (iso_timestamp : string -> option Z) (strategy rt : string)
    (s s' : Api.state) (d : Api.scan_result) (cs : list Api.conflict) :
  (forall X, iter_set X ≡ₚ elements X) ->
  Api.run_resource iter_set iso_timestamp strategy rt s = Some (d, cs, s') ->
  map Api.conflict_id cs
  = List.filter (ApiSpec.differs d) (iter_set (Api.common_records d)) /\
  NoDup (map Api.conflict_id cs) /\
  (forall k, k ∈ map Api.conflict_id cs <->
             k ∈ Api.common_records d /\ ApiSpec.differs d k = true) /\
  (StronglySorted String.le (iter_set (Api.common_records d)) ->
   StronglySorted String.le (map Api.conflict_id cs)).
Proof.
  intros Hperm Hrun.
  exact (ApiFacts.detect_order iter_set iso_timestamp Hperm rt strategy s d cs
           s' Hrun).
Qed.

Lemma C7_conflict_order_witness :
  match Api.run_resource Samples.iter_asc Iso.iso_utc "api1_wins" "users"
          Samples.api_state with
  | Some (d, cs, _) => StronglySorted String.le (map Api.conflict_id cs)
  | None => False
  end.
Proof.
  destruct (Api.run_resource Samples.iter_asc Iso.iso_utc "api1_wins" "users"
              Samples.api_state) as [[[d cs] s']|] eqn:E.
  - refine (proj2 (proj2 (proj2
              (C7_conflict_order Samples.iter_asc Iso.iso_utc "api1_wins"
                 "users" Samples.api_state s' d cs _ E))) _).
    + intros X. apply merge_sort_Permutation.
    + apply StronglySorted_merge_sort; apply _.
  - vm_compute in E. discriminate E.
Defined.

Lemma C7_counterexample :
  (forall X, Samples.iter_desc X ≡ₚ elements X) /\
  match Api.run_resource Samples.iter_desc Iso.iso_utc "api1_wins" "users"
          Samples.api_state with
  | Some (_, cs, _) =>
      map Api.conflict_id cs = ["2"; "1"] /\
      ~ Sorted String.le (map Api.conflict_id cs)
  | None => False
  end.
Proof.
  split.
  { intros X. unfold Samples.iter_desc.
    by rewrite reverse_Permutation, merge_sort_Permutation. }
  destruct (Api.run_resource Samples.iter_desc Iso.iso_utc "api1_wins" "users"
              Samples.api_state) as [[[d cs] s']|] eqn:E;
    vm_compute in E; [|discriminate E].
  injection E as _ <- _. split; [reflexivity|].
  intros H. apply Sorted_inv in H as [_ H]. apply HdRel_inv in H.
  vm_compute in H. exact H.
Qed.






(** * Further properties of the two engines *)

(** ** The table [users] under [UPDATE] and [INSERT OR REPLACE] *)

Module DbTables.
Import Py Db DbSpec ListFacts DbFacts.

#[local] Abbreviation ordered :=
  (fun r r' : row => row_id r < row_id r' /\ compatible r r').

Lemma email_clash_sym x y : email_clash x y = email_clash y x.
Proof. destruct x, y; simpl; try done. apply String.eqb_sym. Qed.

Lemma compatible_sym r r' : compatible r r' -> compatible r' r.
Proof. intros [H1 H2]. split; [done|]. by rewrite email_clash_sym. Qed.

Lemma sorted_table_okb db : StronglySorted ordered db -> table_okb db = true.
Proof.
  induction 1 as [|r db Hdb IH Hr]; simpl; [done|].
  apply andb_true_iff. split; [|done].
  apply forallb_forall. intros r' Hr'.
  rewrite Forall_forall in Hr.
  destruct (Hr r') as [Hlt [_ Hcl]]; [by apply list_elem_of_In|].
  apply andb_true_iff. split; [by apply Z.ltb_lt|]. by rewrite Hcl.
Qed.

Lemma table_okb_iff db : table_okb db = true <-> StronglySorted ordered db.
Proof. split; [apply table_okb_sorted | apply sorted_table_okb]. Qed.

Lemma table_okb_NoDup db : table_okb db = true -> NoDup (ids db).
Proof.
  intros H. apply table_okb_sorted in H. unfold ids.
  induction H as [|r db Hdb IH Hr]; simpl; constructor; [|done].
  intros Hin. apply list_elem_of_fmap in Hin as (r' & Heq & Hr').
  rewrite Forall_forall in Hr. destruct (Hr r' Hr') as [Hlt _]. lia.
Qed.

Lemma insert_row_sorted x t :
  StronglySorted ordered t -> Forall (fun y => compatible y x) t ->
  StronglySorted ordered (insert_row x t).
Proof.
  induction 1 as [|r t Ht IH Hr]; intros Hc; simpl.
  { repeat constructor. }
  apply Forall_cons in Hc as [Hrx Hc].
  destruct (row_id x <? row_id r) eqn:E.
  - apply Z.ltb_lt in E. constructor; [by constructor|].
    constructor; [split; [done | by apply compatible_sym]|].
    rewrite Forall_forall in Hr, Hc. apply Forall_forall. intros y Hy.
    destruct (Hr y Hy) as [Hlt _]. split; [lia|].
    by apply compatible_sym, Hc.
  - apply Z.ltb_ge in E. constructor; [by apply IH|].
    apply Forall_forall. intros y Hy.
    apply elem_of_insert_row in Hy as [-> | Hy].
    + split; [destruct Hrx; lia | done].
    + rewrite Forall_forall in Hr. by apply Hr.
Qed.

Lemma map_preserves_sorted {A} (R : relation A) (f : A -> A) l :
  (forall y z, y ∈ l -> z ∈ l -> R y z -> R (f y) (f z)) ->
  StronglySorted R l -> StronglySorted R (map f l).
Proof.
  intros Hf H. induction H as [|x l Hl IH Hx]; simpl; constructor.
  - apply IH. intros; apply Hf; set_solver.
  - rewrite Forall_forall in Hx. apply Forall_forall. intros z Hz.
    apply list_elem_of_fmap in Hz as (z' & -> & Hz').
    apply Hf; [set_solver.. | by apply Hx].
Qed.


Lemma insert_record_ok db r :
  table_okb db = true ->
  exists db', _insert_record db r = inr db' /\ table_okb db' = true.
Proof.
  intros Hok. eexists. split; [reflexivity|].
  apply sorted_table_okb, insert_row_sorted.
  - by apply filter_bool_StronglySorted, table_okb_sorted.
  - apply Forall_forall. intros y Hy.
    apply list_elem_of_In, filter_In in Hy as [_ Hy].
    apply andb_true_iff in Hy as [H1 H2].
    apply negb_true_iff in H1, H2. apply Z.eqb_neq in H1. by split.
Qed.

Lemma update_record_ok db r db' :
  table_okb db = true -> _update_record db r = inr db' ->
  table_okb db' = true.
Proof.
  intros Hok. unfold _update_record.
  destruct (existsb _ db) eqn:E1; [|by intros [= <-]].
  destruct (existsb (fun x => negb (row_id x =? id r) && _) db) eqn:E2; [done|].
  intros [= <-]. apply sorted_table_okb.
  apply map_preserves_sorted; [|by apply table_okb_sorted].
  assert (forall z, z ∈ db -> row_id z <> id r ->
            email_clash (row_email z) (email r) = false) as Hfree.
  { intros z Hz Hne. apply not_true_iff_false. intros Hcl.
    apply not_true_iff_false in E2. apply E2.
    apply existsb_exists. exists z. split; [by apply list_elem_of_In|].
    rewrite Hcl, andb_true_r. by apply negb_true_iff, Z.eqb_neq. }
  intros y z Hy Hz [Hlt [Hne Hcl]].
  destruct (Z.eqb_spec (row_id y) (id r)) as [Ey|Ey];
    destruct (Z.eqb_spec (row_id z) (id r)) as [Ez|Ez];
    unfold compatible; simpl.
  - lia.
  - split_and!; [lia.. |]. rewrite email_clash_sym. by apply Hfree.
  - split_and!; [lia.. |]. by apply Hfree.
  - done.
Qed.

Lemma apply_strategy_ok strategy s a b src tgt :
  table_okb (source_db s) = true -> table_okb (target_db s) = true ->
  apply_strategy strategy s a b = inr (src, tgt) ->
  table_okb src = true /\ table_okb tgt = true.
Proof.
  intros Hs Ht. unfold apply_strategy.
  repeat match goal with
  | |- context [if ?c then _ else _] => destruct c
  | |- context [match _update_record ?db ?r with _ => _ end] =>
      let E := fresh "E" in
      destruct (_update_record db r) eqn:E;
      [|apply update_record_ok in E; [|done]]
  | |- context [match text_gt ?x ?y with _ => _ end] => destruct (text_gt x y)
  end; intros [= <- <-]; by split.
Qed.

Lemma fold_sync_pair_ok strategy items s :
  table_okb (source_db s) = true -> table_okb (target_db s) = true ->
  let s' := fold_left (sync_pair strategy) items s in
  table_okb (source_db s') = true /\ table_okb (target_db s') = true.
Proof.
  cbv zeta. revert s. induction items as [|[k p] items IH]; intros s Hs Ht;
    cbn [fold_left]; [done|].
  apply IH; unfold sync_pair;
    destruct (negb _); try done;
    destruct (apply_strategy strategy s (source p) (target p))
      as [e|[src tgt]] eqn:E; try done;
    by destruct (apply_strategy_ok _ _ _ _ _ _ Hs Ht E).
Qed.

Lemma fold_insert_ok rs s :
  table_okb (target_db s) = true ->
  let s' := fold_left insert_source_only rs s in
  table_okb (target_db s') = true /\ source_db s' = source_db s /\
  errors (stats s') = errors (stats s) /\
  inserted (stats s') = (inserted (stats s) + length rs)%nat /\
  updated (stats s') = updated (stats s).
Proof.
  cbv zeta. revert s. induction rs as [|r rs IH]; intros s Ht;
    cbn [fold_left].
  { split_and!; first [done | simpl; lia]. }
  destruct (insert_record_ok (target_db s) r Ht) as (db' & Hins & Hok).
  assert (insert_source_only s r
          = {| source_db := source_db s; target_db := db';
               stats := {| updated := updated (stats s);
                           inserted := S (inserted (stats s));
                           errors := errors (stats s) |};
               sync_log := sync_log s ++ [InsertedRecord (id r)] |}) as ->
    by (unfold insert_source_only; by rewrite Hins).
  match goal with
  | |- context [fold_left insert_source_only rs ?s1] =>
      destruct (IH s1 Hok) as (? & -> & -> & -> & ->)
  end.
  simpl. split_and!; first [done | lia].
Qed.

(** unfolding of [run] *)
Lemma run_unfold strategy source0 target0 log0 :
  exists sc,
    scan_intersections source0 target0 = inr sc /\
    source_only sc
    = List.filter
        (fun r => bool_decide
                    (id r ∈ only_source
                       (ids_partition (_load_records source0)
                          (_load_records target0))))
        (_load_records source0) /\
    target_only sc
    = List.filter
        (fun r => bool_decide
                    (id r ∈ only_target
                       (ids_partition (_load_records source0)
                          (_load_records target0))))
        (_load_records target0) /\
    run strategy source0 target0 log0
    = inr (detect_conflicts sc,
           fold_left insert_source_only (source_only sc)
             (fold_left (sync_pair strategy) (intersection sc)
                {| source_db := source0; target_db := target0;
                   stats := stats0; sync_log := log0 |})).
Proof.
  destruct (scan_intersections_spec source0 target0) as [inter Hsc].
  eexists. split; [exact Hsc|]. unfold run. rewrite Hsc. by split_and!.
Qed.

End DbTables.





(** ** The database engine: a whole run *)

Module DbRun.
Import Py Db DbSpec ListFacts DbFacts DbTables.

Lemma fold_sync_pair_source_wins items s :
  source_db (fold_left (sync_pair "source_wins") items s) = source_db s.
Proof.
  revert s. induction items as [|[k p] items IH]; intros s; cbn [fold_left];
    [done|].
  rewrite IH. unfold sync_pair, apply_strategy. simpl.
  destruct (negb _); [|done].
  by destruct (_update_record (target_db s) (source p)).
Qed.

Lemma fold_sync_pair_target_wins items s :
  target_db (fold_left (sync_pair "target_wins") items s) = target_db s.
Proof.
  revert s. induction items as [|[k p] items IH]; intros s; cbn [fold_left];
    [done|].
  rewrite IH. unfold sync_pair, apply_strategy. simpl.
  destruct (negb _); [|done].
  by destruct (_update_record (source_db s) (target p)).
Qed.

(** step 2 only adds the rows of the records it is given *)
Lemma fold_insert_rows rs s y :
  y ∈ target_db (fold_left insert_source_only rs s) ->
  y ∈ target_db s \/ exists r, r ∈ rs /\ y = row_of r.
Proof.
  revert s. induction rs as [|r rs IH]; intros s; cbn [fold_left]; [by left|].
  intros Hy. apply IH in Hy as [Hy | (r' & Hr' & ->)].
  - unfold insert_source_only in Hy. simpl in Hy.
    apply elem_of_insert_row in Hy as [-> | Hy].
    + right. exists r. split; [set_solver | done].
    + left. apply list_elem_of_In, filter_In in Hy as [Hy _].
      by apply list_elem_of_In.
  - right. exists r'. split; [set_solver | done].
Qed.

Lemma dict_set_fresh {V} (k : Z) (v : V) d :
  k ∉ map fst d -> dict_set k v d = d ++ [(k, v)].
Proof.
  induction d as [|[k' v'] d IH]; simpl; [done|].
  intros Hk. apply not_elem_of_cons in Hk as [Hne Hk].
  apply Z.eqb_neq in Hne. rewrite Hne. by rewrite IH.
Qed.

(** the entries of ["intersection"]: one per record whose id is common, all
    with the same pair of records *)
Lemma build_intersection_spec srcs tgts (I : gset Z) rs acc res :
  NoDup (map fst acc ++ map id rs) ->
  build_intersection srcs tgts I rs acc = inr res ->
  exists new,
    res = acc ++ new /\
    map fst new = List.filter (fun k => bool_decide (k ∈ I)) (map id rs) /\
    Forall (fun kp => head srcs = Some (source kp.2) /\
                      head tgts = Some (target kp.2)) new.
Proof.
  revert acc. induction rs as [|r rs IH]; intros acc Hnd; simpl.
  { intros [= <-]. exists []. rewrite app_nil_r. by split_and!. }
  apply NoDup_app in Hnd as (Hacc & Hdisj & Hrs).
  apply NoDup_cons in Hrs as [Hr Hrs].
  case_decide as HI.
  - rewrite !find_self.
    destruct (head srcs) as [s0|] eqn:Hs0; [|done].
    destruct (head tgts) as [t0|] eqn:Ht0; [|done].
    rewrite dict_set_fresh by (intros Hin; apply (Hdisj _ Hin); set_solver).
    intros H. apply IH in H as (new & -> & Hkeys & Hall).
    + exists ((id r, {| source := s0; target := t0 |}) :: new).
      rewrite <- app_assoc. simpl. rewrite bool_decide_true by done.
      split_and!; [done | by rewrite Hkeys |]. by constructor.
    + rewrite map_app. simpl. apply NoDup_app. split_and!.
      * apply NoDup_app. split_and!; [done | | apply NoDup_singleton].
        intros k Hk Hk'. apply list_elem_of_singleton in Hk' as ->.
        apply (Hdisj _ Hk). set_solver.
      * intros k Hk Hk'. apply elem_of_app in Hk as [Hk|Hk].
        -- apply (Hdisj _ Hk). set_solver.
        -- apply list_elem_of_singleton in Hk as ->. done.
      * done.
  - rewrite bool_decide_false by done. apply IH.
    apply NoDup_app. split_and!; [done | | done].
    intros k Hk Hk'. apply (Hdisj _ Hk). set_solver.
Qed.

Lemma scan_intersection_spec src tgt sc :
  table_okb src = true -> scan_intersections src tgt = inr sc ->
  map fst (intersection sc)
  = List.filter (fun k => bool_decide (k ∈ ids tgt)) (ids src) /\
  Forall (fun kp => head (_load_records src) = Some (source kp.2) /\
                    head (_load_records tgt) = Some (target kp.2))
    (intersection sc).
Proof.
  intros Hok. unfold scan_intersections.
  destruct (build_intersection _ _ _ _ _) as [e|inter] eqn:E; [done|].
  intros [= <-]. simpl.
  apply build_intersection_spec in E as (new & -> & Hkeys & Hall).
  - simpl. split; [|done]. rewrite Hkeys, ids_load.
    apply filter_ext_in. intros k Hk.
    apply bool_decide_ext. unfold ids_partition. simpl.
    rewrite elem_of_intersection, !elem_of_list_to_set, !ids_load.
    apply list_elem_of_In in Hk. naive_solver.
  - simpl. rewrite ids_load. by apply table_okb_NoDup.
Qed.

(** the conflicts are the conflicting entries, in their order *)
Lemma detect_conflicts_spec sc :
  detect_conflicts sc
  = map (fun kp : Z * pair =>
           {| conflict_id := kp.1; conflict_source := source kp.2;
              conflict_target := target kp.2;
              fields_changed := _get_changed_fields (source kp.2) (target kp.2)
           |})
      (List.filter conflicting (intersection sc)).
Proof.
  unfold detect_conflicts.
  assert (forall items acc,
            fold_left
              (fun conflicts '(record_id, p) =>
                 if negb (String.eqb (checksum (source p)) (checksum (target p)))
                 then conflicts ++
                      [ {| conflict_id := record_id;
                           conflict_source := source p;
                           conflict_target := target p;
                           fields_changed :=
                             _get_changed_fields (source p) (target p) |} ]
                 else conflicts) items acc
            = acc ++ map (fun kp : Z * pair =>
                            {| conflict_id := kp.1;
                               conflict_source := source kp.2;
                               conflict_target := target kp.2;
                               fields_changed :=
                                 _get_changed_fields (source kp.2) (target kp.2)
                            |})
                       (List.filter conflicting items)) as H.
  { induction items as [|[k p] items IH]; intros acc; simpl.
    - by rewrite app_nil_r.
    - rewrite IH. unfold conflicting at 2. simpl.
      destruct (negb _); simpl; [by rewrite <- app_assoc | done]. }
  by rewrite H.
Qed.

(** two loaded records with the same four fields have the same checksum *)
Lemma changed_fields_nil a b :
  checksum a = calculate_checksum (name a) (email a) (phone a) (last_updated a) ->
  checksum b = calculate_checksum (name b) (email b) (phone b) (last_updated b) ->
  _get_changed_fields a b = [] -> checksum a = checksum b.
Proof.
  intros Ha Hb. unfold _get_changed_fields.
  destruct (String.eqb_spec (name a) (name b)) as [En|]; [|done].
  destruct (sqltext_eqb (email a) (email b)) eqn:Ee; [|done].
  destruct (sqltext_eqb (phone a) (phone b)) eqn:Ep; [|done].
  destruct (sqltext_eqb (last_updated a) (last_updated b)) eqn:El; [|done].
  intros _. rewrite Ha, Hb, En.
  assert (forall x y, sqltext_eqb x y = true -> x = y) as Heq.
  { intros [x|] [y|]; simpl; try done. by intros ->%String.eqb_eq. }
  by rewrite (Heq _ _ Ee), (Heq _ _ Ep), (Heq _ _ El).
Qed.

Lemma head_elem_of {A} (l : list A) x : head l = Some x -> x ∈ l.
Proof. destruct l; simpl; [done|]. intros [= ->]. set_solver. Qed.

(** step 2 never raises: one insertion and one log entry per record *)
Lemma fold_insert_counts rs s :
  let s' := fold_left insert_source_only rs s in
  source_db s' = source_db s /\
  errors (stats s') = errors (stats s) /\
  updated (stats s') = updated (stats s) /\
  inserted (stats s') = (inserted (stats s) + length rs)%nat /\
  length (sync_log s') = (length (sync_log s) + length rs)%nat.
Proof.
  cbv zeta. revert s. induction rs as [|r rs IH]; intros s; cbn [fold_left].
  { split_and!; first [done | simpl; lia]. }
  destruct (IH (insert_source_only s r)) as (-> & -> & -> & -> & ->).
  unfold insert_source_only. simpl. rewrite length_app. simpl.
  split_and!; first [done | lia].
Qed.


(** the number of elements of a duplicate-free list that lie in a set *)
Lemma length_filter_in (l : list Z) (X : gset Z) :
  NoDup l ->
  length (List.filter (fun k => bool_decide (k ∈ X)) l)
  = size (list_to_set l ∩ X : gset Z).
Proof.
  induction 1 as [|k l Hk Hl IH].
  { cbn [List.filter length list_to_set foldr].
    by rewrite (left_absorb_L ∅ (∩)), size_empty. }
  cbn [List.filter list_to_set foldr].
  case_bool_decide as HX; cbn [length].
  - rewrite IH.
    assert (({[k]} ∪ list_to_set l) ∩ X = {[k]} ∪ (list_to_set l ∩ X)) as ->
      by set_solver.
    rewrite (size_union (C:=gset Z) {[k]} (list_to_set l ∩ X)) by set_solver.
    by rewrite size_singleton.
  - rewrite IH. f_equal. set_solver.
Qed.

Lemma length_filter_map {A B} (f : B -> bool) (g : A -> B) (l : list A) :
  length (List.filter (fun x => f (g x)) l) = length (List.filter f (map g l)).
Proof.
  induction l as [|x l IH]; simpl; [done|].
  destruct (f (g x)); simpl; by rewrite IH.
Qed.

Lemma string_app_assoc (a b c : string) : (a +:+ b) +:+ c = a +:+ (b +:+ c).
Proof.
  induction a as [|x a IH]; [done|].
  change (String x ((a +:+ b) +:+ c) = String x (a +:+ (b +:+ c))).
  by rewrite IH.
Qed.

Lemma string_app_neq (a b : string) : b <> EmptyString -> a +:+ b <> a.
Proof.
  intros Hb. induction a as [|x a IH]; [done|].
  intros H. apply IH.
  change (String x (a +:+ b) = String x a) in H.
  by injection H.
Qed.

End DbRun.

(** X3 -- The constraints of [users] survive a run.  From two files that
    satisfy the constraints (ascending distinct ids, distinct emails), under
    every strategy, the run returns and both files satisfy the constraints
    afterwards; the source holds exactly the ids it held before. *)
Theorem X3_run_keeps_constraints (strategy : string)
    (source0 target0 : Db.table) (log0 : list Db.log_entry) :
  Db.table_okb source0 = true -> Db.table_okb target0 = true ->
  exists cs s',
    Db.run strategy source0 target0 log0 = inr (cs, s') /\
    Db.table_okb (Db.source_db s') = true /\
    Db.table_okb (Db.target_db s') = true /\
    DbSpec.ids (Db.source_db s') = DbSpec.ids source0.
Proof.
  intros Hs Ht.
  destruct (DbTables.run_unfold strategy source0 target0 log0)
    as (sc & _ & _ & _ & Hrun).
  eexists _, _. split; [exact Hrun|].
  set (s0 := {| Db.source_db := source0; Db.target_db := target0;
                Db.stats := Db.stats0; Db.sync_log := log0 |}).
  destruct (DbTables.fold_sync_pair_ok strategy (Db.intersection sc) s0 Hs Ht)
    as [Hs1 Ht1].
  destruct (DbFacts.fold_sync_pair_ids strategy (Db.intersection sc) s0)
    as (Hids & _).
  destruct (DbTables.fold_insert_ok (Db.source_only sc) _ Ht1)
    as (Ht2 & Hsrc & _).
  rewrite Hsrc. by split_and!.
Qed.

Lemma X3_run_keeps_constraints_witness :
  exists cs s',
    Db.run "latest_wins" Samples.source_table Samples.target_table []
    = inr (cs, s') /\
    Db.table_okb (Db.source_db s') = true /\
    Db.table_okb (Db.target_db s') = true.
Proof.
  destruct (X3_run_keeps_constraints "latest_wins" Samples.source_table
              Samples.target_table [] eq_refl eq_refl)
    as (cs & s' & Hrun & Hs & Ht & _).
  exists cs, s'. exact (conj Hrun (conj Hs Ht)).
Defined.

(** X4 -- What a strategy may touch.  Under [source_wins] a run leaves the
    source file exactly as it was.  Under [target_wins] every row of the
    target after the run is a row the target had or a row of the source
    whose id the target lacked: the target never receives source data for an
    id it already holds. *)
Theorem X4_strategy_directions (source0 target0 : Db.table)
    (log0 : list Db.log_entry) :
  (exists cs s',
     Db.run "source_wins" source0 target0 log0 = inr (cs, s') /\
     Db.source_db s' = source0) /\
  (exists cs s',
     Db.run "target_wins" source0 target0 log0 = inr (cs, s') /\
     forall y, y ∈ Db.target_db s' ->
       y ∈ target0 \/ (y ∈ source0 /\ Db.row_id y ∉ DbSpec.ids target0)).
Proof.
  split.
  - destruct (DbTables.run_unfold "source_wins" source0 target0 log0)
      as (sc & _ & _ & _ & Hrun).
    eexists _, _. split; [exact Hrun|].
    destruct (DbRun.fold_insert_counts (Db.source_only sc)
                (fold_left (Db.sync_pair "source_wins") (Db.intersection sc)
                   {| Db.source_db := source0; Db.target_db := target0;
                      Db.stats := Db.stats0; Db.sync_log := log0 |}))
      as (-> & _).
    by rewrite DbRun.fold_sync_pair_source_wins.
  - destruct (DbTables.run_unfold "target_wins" source0 target0 log0)
      as (sc & _ & Hso & _ & Hrun).
    eexists _, _. split; [exact Hrun|].
    intros y Hy. apply DbRun.fold_insert_rows in Hy as [Hy | (r & Hr & ->)].
    + left. by rewrite DbRun.fold_sync_pair_target_wins in Hy.
    + right. rewrite Hso in Hr.
      apply list_elem_of_In, filter_In in Hr as [Hr Hdec].
      apply list_elem_of_In in Hr. apply bool_decide_eq_true in Hdec.
      unfold Db.ids_partition in Hdec. simpl in Hdec.
      apply elem_of_difference in Hdec as [_ Hdec].
      rewrite elem_of_list_to_set, DbFacts.ids_load in Hdec.
      split; [|done].
      rewrite <- (DbFacts.row_of_load source0). by apply list_elem_of_fmap_2.
Qed.

(** X5 -- A missing timestamp under [latest_wins].  When [last_updated] is
    NULL on either side of a conflicting entry, the comparison raises a
    [TypeError] inside the [try]: the entry is counted as an error, the
    error is logged and neither file is written. *)
Theorem X5_latest_wins_null_timestamp (s : Db.state) (item : Z * Db.pair) :
  DbSpec.conflicting item = true ->
  Db.last_updated (Db.source item.2) = None \/
  Db.last_updated (Db.target item.2) = None ->
  Db.sync_pair "latest_wins" s item
  = {| Db.source_db := Db.source_db s; Db.target_db := Db.target_db s;
       Db.stats := {| Db.updated := Db.updated (Db.stats s);
                      Db.inserted := Db.inserted (Db.stats s);
                      Db.errors := S (Db.errors (Db.stats s)) |};
       Db.sync_log := Db.sync_log s ++ [Db.ErrorUpdating item.1 Db.TypeError]
    |}.
Proof.
  destruct item as [k p]. unfold DbSpec.conflicting. simpl.
  intros Hc Hnull. unfold Db.sync_pair. rewrite Hc.
  by rewrite (DbFacts.apply_latest_wins_null s _ _ Hnull).
Qed.

Lemma X5_latest_wins_null_timestamp_witness :
  Db.sync_log
    (Db.sync_pair "latest_wins"
       (Samples.db_state Samples.single_source Samples.single_target)
       MoreSamples.null_item)
  = [Db.ErrorUpdating 1 Db.TypeError].
Proof.
  by rewrite (X5_latest_wins_null_timestamp
                (Samples.db_state Samples.single_source Samples.single_target)
                MoreSamples.null_item eq_refl (or_introl eq_refl)).
Defined.

(** ** Scanning, detecting and reporting in the database engine *)

Module DbScan.
Import Py Db DbSpec ListFacts DbFacts DbTables DbRun.

Lemma scan_total src tgt : exists sc, scan_intersections src tgt = inr sc.
Proof. destruct (scan_intersections_spec src tgt) as [inter H]. eauto. Qed.

Lemma filter_in_list_set (l t : list Z) :
  List.filter (fun k => bool_decide (k ∈ t)) l
  = List.filter (fun k => bool_decide (k ∈ (list_to_set t : gset Z))) l.
Proof.
  apply filter_ext. intros k. apply bool_decide_ext.
  by rewrite elem_of_list_to_set.
Qed.

Lemma length_split_filter (rs : list Record_) (t : list Z) (A B : gset Z) :
  B = list_to_set t ->
  Forall (fun r => id r ∈ A) rs ->
  (length (List.filter (fun r => bool_decide (id r ∈ A ∖ B)) rs)
   + length (List.filter (fun k => bool_decide (k ∈ t)) (map id rs))
   = length rs)%nat.
Proof.
  intros -> Hall. induction Hall as [|r rs Hr _ IH]; [done|].
  cbn [map List.filter].
  destruct (decide (id r ∈ t)) as [Hin | Hin].
  - rewrite (bool_decide_eq_true_2 (id r ∈ t)) by done.
    rewrite (bool_decide_eq_false_2 (id r ∈ A ∖ list_to_set t))
      by (rewrite elem_of_difference, elem_of_list_to_set; tauto).
    cbn [length]. lia.
  - rewrite (bool_decide_eq_false_2 (id r ∈ t)) by done.
    rewrite (bool_decide_eq_true_2 (id r ∈ A ∖ list_to_set t))
      by (rewrite elem_of_difference, elem_of_list_to_set; tauto).
    cbn [length]. lia.
Qed.

Lemma ids_NoDup db : table_okb db = true -> NoDup (ids db).
Proof.
  intros H. apply table_okb_sorted in H.
  unfold ids. induction H as [|r db Hdb IH Hr]; simpl; [constructor|].
  constructor; [|done].
  intros Hin. apply list_elem_of_In, in_map_iff in Hin as (r' & He & Hin).
  rewrite Forall_forall in Hr. apply list_elem_of_In in Hin.
  destruct (Hr r' Hin) as [Hlt _]. lia.
Qed.

(** the two totals of the report are the numbers of rows *)
Lemma scan_lengths src tgt sc :
  table_okb src = true -> table_okb tgt = true ->
  scan_intersections src tgt = inr sc ->
  (length (source_only sc) + length (intersection sc) = length src)%nat /\
  (length (target_only sc) + length (intersection sc) = length tgt)%nat.
Proof.
  intros Hs Ht Hsc.
  destruct (scan_intersection_spec src tgt sc Hs Hsc) as [Hkeys _].
  destruct (scan_intersections_spec src tgt) as [inter Hsc'].
  rewrite Hsc in Hsc'. injection Hsc' as ->. cbn [source_only target_only intersection] in *.
  assert (length inter
          = length (List.filter (fun k => bool_decide (k ∈ ids tgt)) (ids src)))
    as Hlen by (by rewrite <- Hkeys, length_map).
  pose proof (ids_NoDup src Hs) as Hn1. pose proof (ids_NoDup tgt Ht) as Hn2.
  set (S := list_to_set (ids src) : gset Z).
  set (T := list_to_set (ids tgt) : gset Z).
  unfold ids_partition. cbn [only_source only_target].
  rewrite !ids_load. fold S T.
  split.
  - rewrite Hlen, <- (ids_load src).
    rewrite (length_split_filter (_load_records src) (ids tgt) S T); [|done|].
    + unfold _load_records. by rewrite length_map.
    + apply Forall_forall. intros r Hr. unfold S.
      rewrite elem_of_list_to_set, <- ids_load.
      apply list_elem_of_In. apply in_map. by apply list_elem_of_In.
  - rewrite Hlen, filter_in_list_set. fold T.
    pose proof (length_filter_map (fun k : Z => bool_decide (k ∈ T ∖ S)) id
                  (_load_records tgt)) as Hm.
    cbv beta in Hm. rewrite Hm, ids_load. clear Hm.
    rewrite !length_filter_in by done. fold S T.
    rewrite <- (length_map row_id tgt). fold (ids tgt).
    rewrite <- (size_list_to_set (C:=gset Z) (ids tgt)) by done. fold T.
    rewrite <- (size_union (C:=gset Z) (T ∩ (T ∖ S)) (S ∩ T)) by set_solver.
    f_equal. apply set_eq. intros k.
    destruct (decide (k ∈ S)); set_solver.
Qed.

Lemma filter_all_true {A} (f : A -> bool) (l : list A) :
  (forall x, x ∈ l -> f x = true) -> List.filter f l = l.
Proof.
  induction l as [|x l IH]; intros H; simpl; [done|].
  rewrite (H x) by set_solver. f_equal. apply IH. intros; apply H; set_solver.
Qed.

(** every entry of ["intersection"] holds the same two records *)
Lemma conflicts_all_or_none src tgt sc :
  table_okb src = true -> scan_intersections src tgt = inr sc ->
  List.filter conflicting (intersection sc) = [] \/
  List.filter conflicting (intersection sc) = intersection sc.
Proof.
  intros Hs Hsc.
  destruct (scan_intersection_spec src tgt sc Hs Hsc) as [_ Hall].
  destruct (intersection sc) as [|kp0 rest] eqn:E; [by left|].
  rewrite <- E in *.
  assert (forall kp, kp ∈ intersection sc ->
            conflicting kp = conflicting kp0) as Hsame.
  { intros kp Hkp. rewrite Forall_forall in Hall.
    destruct (Hall kp Hkp) as [H1 H2].
    destruct (Hall kp0) as [H1' H2']; [rewrite E; set_solver|].
    unfold conflicting. congruence. }
  clear E. destruct (conflicting kp0) eqn:Ec.
  - right. by apply filter_all_true.
  - left. by apply filter_all_false.
Qed.

End DbScan.

(** X6 -- What the scan of the database engine pairs.  On a source file
    that satisfies the table constraints the scan returns; the keys of
    ["intersection"] are the common ids in the order of the source rows; and
    every entry, whatever its id, holds the first record of the source and
    the first record of the target.  Hence the conflicts reported are none
    or one for every common id. *)
Theorem X6_scan_pairs_first_records (src tgt : Db.table) :
  Db.table_okb src = true ->
  exists sc,
    Db.scan_intersections src tgt = inr sc /\
    map fst (Db.intersection sc)
    = List.filter (fun k => bool_decide (k ∈ DbSpec.ids tgt)) (DbSpec.ids src) /\
    (forall k p, (k, p) ∈ Db.intersection sc ->
       head (Db._load_records src) = Some (Db.source p) /\
       head (Db._load_records tgt) = Some (Db.target p)) /\
    (Db.detect_conflicts sc = [] \/
     map Db.conflict_id (Db.detect_conflicts sc) = map fst (Db.intersection sc)).
Proof.
  intros Hs. destruct (DbScan.scan_total src tgt) as [sc Hsc].
  destruct (DbRun.scan_intersection_spec src tgt sc Hs Hsc) as [Hkeys Hall].
  exists sc. split_and!; [done | done | |].
  - intros k p Hkp. rewrite Forall_forall in Hall. exact (Hall (k, p) Hkp).
  - rewrite DbRun.detect_conflicts_spec.
    destruct (DbScan.conflicts_all_or_none src tgt sc Hs Hsc) as [-> | ->];
      [by left | right].
    rewrite map_map. by apply map_ext.
Qed.

Lemma X6_scan_pairs_first_records_witness :
  exists sc,
    Db.scan_intersections Samples.source_table Samples.target_table = inr sc /\
    map fst (Db.intersection sc) = [1; 2] /\
    map Db.conflict_id (Db.detect_conflicts sc) = [1; 2].
Proof.
  destruct (X6_scan_pairs_first_records Samples.source_table
              Samples.target_table eq_refl) as (sc & Hsc & Hk & _ & Hc).
  exists sc. split; [exact Hsc|]. split; [exact Hk|].
  destruct Hc as [Hc | Hc]; [|by rewrite Hc].
  vm_compute in Hsc. injection Hsc as <-. vm_compute in Hc. discriminate Hc.
Defined.

(** X7 -- The totals of the report.  When both files satisfy the table
    constraints, the two totals that [generate_sync_report] computes from
    the scan are the numbers of rows the source and the target held when
    they were scanned; the conflicts never outnumber the intersections, and
    at most ten lines of the log are shown. *)
Theorem X7_report_totals (strategy : string) (src tgt : Db.table)
    (log0 : list Db.log_entry) :
  Db.table_okb src = true -> Db.table_okb tgt = true ->
  exists sc cs s',
    Db.scan_intersections src tgt = inr sc /\
    Db.run strategy src tgt log0 = inr (cs, s') /\
    let r := DbReport.generate_sync_report sc cs (Db.stats s') (Db.sync_log s') in
    DbReport.total_source r = length src /\
    DbReport.total_target r = length tgt /\
    (DbReport.conflicts_detected r <= DbReport.intersections_found r)%nat /\
    (length (DbReport.log_lines r) <= 10)%nat.
Proof.
  intros Hs Ht.
  destruct (DbTables.run_unfold strategy src tgt log0)
    as (sc & Hsc & _ & _ & Hrun).
  eexists sc, _, _. split; [exact Hsc|]. split; [exact Hrun|].
  destruct (DbScan.scan_lengths src tgt sc Hs Ht Hsc) as [H1 H2].
  cbv zeta. unfold DbReport.generate_sync_report. simpl.
  split_and!; [done | done | |].
  - rewrite DbRun.detect_conflicts_spec, length_map. apply filter_length_le.
  - unfold DbReport.last10. rewrite length_skipn. lia.
Qed.

Lemma X7_report_totals_witness :
  exists sc cs s',
    Db.scan_intersections Samples.source_table Samples.target_table = inr sc /\
    Db.run "latest_wins" Samples.source_table Samples.target_table []
    = inr (cs, s') /\
    DbReport.total_source
      (DbReport.generate_sync_report sc cs (Db.stats s') (Db.sync_log s')) = 4%nat /\
    DbReport.total_target
      (DbReport.generate_sync_report sc cs (Db.stats s') (Db.sync_log s')) = 3%nat.
Proof.
  destruct (X7_report_totals "latest_wins" Samples.source_table
              Samples.target_table [] eq_refl eq_refl)
    as (sc & cs & s' & Hsc & Hrun & H1 & H2 & _).
  exists sc, cs, s'. exact (conj Hsc (conj Hrun (conj H1 H2))).
Defined.

(** X8 -- A conflict of the database engine names a field.  Every conflict
    that [detect_conflicts] reports after a scan has a non-empty
    [fields_changed], and its id is a key of ["intersection"]. *)
Theorem X8_conflict_names_a_field (src tgt : Db.table) :
  Db.table_okb src = true ->
  exists sc,
    Db.scan_intersections src tgt = inr sc /\
    forall c, c ∈ Db.detect_conflicts sc ->
      Db.fields_changed c <> [] /\
      Db.conflict_id c ∈ map fst (Db.intersection sc).
Proof.
  intros Hs. destruct (DbScan.scan_total src tgt) as [sc Hsc].
  destruct (DbRun.scan_intersection_spec src tgt sc Hs Hsc) as [_ Hall].
  exists sc. split; [done|]. intros c Hc.
  rewrite DbRun.detect_conflicts_spec in Hc.
  apply list_elem_of_In, in_map_iff in Hc as (kp & <- & Hkp).
  apply filter_In in Hkp as [Hkp Hconf]. apply list_elem_of_In in Hkp.
  cbn [Db.fields_changed Db.conflict_id]. split.
  - rewrite Forall_forall in Hall. destruct (Hall kp Hkp) as [H1 H2].
    apply DbRun.head_elem_of, DbFacts.checksum_load in H1.
    apply DbRun.head_elem_of, DbFacts.checksum_load in H2.
    intros Hnil. pose proof (DbRun.changed_fields_nil _ _ H1 H2 Hnil) as He.
    unfold DbSpec.conflicting in Hconf. rewrite He, String.eqb_refl in Hconf.
    discriminate Hconf.
  - apply list_elem_of_In, in_map. by apply list_elem_of_In.
Qed.

Lemma X8_conflict_names_a_field_witness :
  exists sc,
    Db.scan_intersections Samples.single_source Samples.single_target = inr sc /\
    forall c, c ∈ Db.detect_conflicts sc -> Db.fields_changed c <> [].
Proof.
  destruct (X8_conflict_names_a_field Samples.single_source
              Samples.single_target eq_refl) as (sc & Hsc & H).
  exists sc. split; [exact Hsc|]. intros c Hc. exact (proj1 (H c Hc)).
Defined.


(** X10 -- What the checksum of a [Record] cannot see.  The checksum is
    taken over the four fields joined by a bar, with [None] written out:
    a NULL email and the text [None] give one checksum, and so do two
    records in which a piece of text sits on either side of a bar.  An
    entry of ["intersection"] made of two such records differs in a field,
    yet it is no conflict and the synchronisation leaves it alone under
    every strategy. *)
Theorem X10_checksum_blind_spots (k : Z) (n x : string)
    (e p lu : Db.sqltext) (strategy : string) (s : Db.state) :
  let a := Db.new_Record k n None p lu EmptyString in
  let b := Db.new_Record k n (Some "None") p lu EmptyString in
  let c := Db.new_Record k (n +:+ "|" +:+ x) e p lu EmptyString in
  let d := Db.new_Record k n (Some (x +:+ "|" +:+ Db.fmt e)) p lu EmptyString in
  Db._get_changed_fields a b = ["email"] /\
  Db.sync_pair strategy s (k, {| Db.source := a; Db.target := b |}) = s /\
  In "name" (Db._get_changed_fields c d) /\
  Db.sync_pair strategy s (k, {| Db.source := c; Db.target := d |}) = s.
Proof.
  cbv zeta.
  assert (Db.calculate_checksum n None p lu
          = Db.calculate_checksum n (Some "None") p lu) as Hab by done.
  assert (Db.calculate_checksum (n +:+ "|" +:+ x) e p lu
          = Db.calculate_checksum n (Some (x +:+ "|" +:+ Db.fmt e)) p lu)
    as Hcd.
  { unfold Db.calculate_checksum. do 2 f_equal.
    rewrite DbRun.string_app_assoc.
    change (Db.fmt (Some (x +:+ "|" +:+ Db.fmt e))) with (x +:+ "|" +:+ Db.fmt e).
    rewrite (DbRun.string_app_assoc x). by f_equal. }
  assert (String.eqb (n +:+ "|" +:+ x) n = false) as Hname
    by (by apply String.eqb_neq, DbRun.string_app_neq).
  split_and!.
  - unfold Db._get_changed_fields, Db.new_Record. cbn.
    rewrite String.eqb_refl, !DbFacts.sqltext_eqb_refl. done.
  - unfold Db.sync_pair, Db.new_Record. cbn [Db.checksum Db.source Db.target].
    cbn [String.eqb]. by rewrite Hab, String.eqb_refl.
  - unfold Db._get_changed_fields, Db.new_Record. cbn [Db.name].
    rewrite Hname. cbn. by left.
  - unfold Db.sync_pair, Db.new_Record. cbn [Db.checksum Db.source Db.target].
    cbn [String.eqb]. by rewrite Hcd, String.eqb_refl.
Qed.

(** ** Whole runs of the API engine *)

Module ApiWhole.
Import Py Api ApiSpec ApiWholeSpec ListFacts ApiFacts.

Lemma stats_add_0_r st : stats_add st stats0 = st.
Proof. destruct st. unfold stats_add, stats0. simpl. f_equal; lia. Qed.

Lemma stats_add_updated st x :
  stats_add st (add_updated x) = add_updated (stats_add st x).
Proof. unfold stats_add, add_updated. simpl. f_equal; lia. Qed.

Lemma stats_add_created st x :
  stats_add st (add_created x) = add_created (stats_add st x).
Proof. unfold stats_add, add_created. simpl. f_equal; lia. Qed.

Lemma stats_add_errors st x :
  stats_add st (add_errors x) = add_errors (stats_add st x).
Proof. unfold stats_add, add_errors. simpl. f_equal; lia. Qed.

Lemma stats_add_skipped st x :
  stats_add st (add_skipped x) = add_skipped (stats_add st x).
Proof. unfold stats_add, add_skipped. simpl. f_equal; lia. Qed.

Lemma shift_stats0 s :
  shift (stats s)
    {| api1 := api1 s; api2 := api2 s; stats := stats0;
       sync_log := sync_log s |} = s.
Proof. destruct s. unfold shift. simpl. by rewrite stats_add_0_r. Qed.

Ltac shifted :=
  unfold shift, wrote2, wrote1, on_error; cbn [api1 api2 stats sync_log];
  rewrite ?stats_add_updated, ?stats_add_created, ?stats_add_errors,
    ?stats_add_skipped; reflexivity.

Lemma resolve_conflict_shift iso_timestamp st strategy rt s c :
  resolve_conflict iso_timestamp strategy rt (shift st s) c
  = shift st (resolve_conflict iso_timestamp strategy rt s c).
Proof.
  destruct c as [[k r1] r2]. unfold resolve_conflict.
  change (api1 (shift st s)) with (api1 s).
  change (api2 (shift st s)) with (api2 s).
  destruct (String.eqb strategy "latest_wins").
  { destruct (_ <? _); [|shifted].
    destruct (_update_api_record (api2 s) rt r1); shifted. }
  destruct (String.eqb strategy "api1_wins").
  { destruct (_update_api_record (api2 s) rt r1); shifted. }
  destruct (String.eqb strategy "api2_wins"); [|done].
  destruct (_update_api_record (api1 s) rt r2); shifted.
Qed.

Lemma create_in_api2_shift st rt d s k :
  create_in_api2 rt d (shift st s) k = shift st (create_in_api2 rt d s k).
Proof.
  unfold create_in_api2. change (api2 (shift st s)) with (api2 s).
  destruct (api1_data d !! k) as [r|]; [|shifted].
  destruct (_update_api_record (api2 s) rt r); shifted.
Qed.

Lemma create_in_api1_shift st rt d s k :
  create_in_api1 rt d (shift st s) k = shift st (create_in_api1 rt d s k).
Proof.
  unfold create_in_api1. change (api1 (shift st s)) with (api1 s).
  destruct (api2_data d !! k) as [r|]; [|shifted].
  destruct (_update_api_record (api1 s) rt r); shifted.
Qed.

Lemma fold_shift {A} (f : state -> A -> state) st :
  (forall s x, f (shift st s) x = shift st (f s x)) ->
  forall l s, fold_left f l (shift st s) = shift st (fold_left f l s).
Proof.
  intros Hf l. induction l as [|x l IH]; intros s; simpl; [done|].
  by rewrite Hf, IH.
Qed.

Lemma sync_resource_shift iter_set iso_timestamp st strategy rt d cs s :
  sync_resource iter_set iso_timestamp strategy rt d cs (shift st s)
  = shift st (sync_resource iter_set iso_timestamp strategy rt d cs s).
Proof.
  unfold sync_resource.
  rewrite (fold_shift _ st (fun s c => resolve_conflict_shift _ st _ _ s c)).
  rewrite (fold_shift _ st (create_in_api2_shift st rt d)).
  by rewrite (fold_shift _ st (create_in_api1_shift st rt d)).
Qed.

(** *** What a step may touch *)

Lemma grows_refl a : grows a a.
Proof.
  intros rt. destruct (a !! rt) as [l|] eqn:E; [|done].
  exists []. by rewrite app_nil_r.
Qed.

Lemma grows_trans a b c : grows a b -> grows b c -> grows a c.
Proof.
  intros H1 H2 rt. specialize (H1 rt). specialize (H2 rt).
  destruct (a !! rt) as [l|].
  - destruct H1 as [w Hw]. rewrite Hw in H2. destruct H2 as [w' Hw'].
    exists (w ++ w'). by rewrite Hw', app_assoc.
  - by rewrite H1 in H2.
Qed.

Lemma step_ok_refl rt s : step_ok rt s s.
Proof.
  split_and!; try done; try apply grows_refl.
  exists []. by rewrite app_nil_r.
Qed.

Lemma step_ok_trans rt s1 s2 s3 :
  step_ok rt s1 s2 -> step_ok rt s2 s3 -> step_ok rt s1 s3.
Proof.
  intros (A1 & A2 & A3 & A4 & e & A5) (B1 & B2 & B3 & B4 & e' & B5).
  split_and!.
  - intros rt' H. by rewrite B1, A1.
  - intros rt' H. by rewrite B2, A2.
  - by eapply grows_trans.
  - by eapply grows_trans.
  - exists (e ++ e'). by rewrite B5, A5, app_assoc.
Qed.

Lemma update_touches a rt r a' :
  _update_api_record a rt r = inr a' -> only_at rt a a' /\ grows a a'.
Proof.
  destruct (a !! rt) as [l|] eqn:E.
  - rewrite (update_api_record_appends _ _ _ l E). intros [= <-]. split.
    + intros rt' H. by rewrite lookup_insert_ne.
    + intros rt'. destruct (decide (rt' = rt)) as [->|Hne].
      * rewrite E. exists [data r]. by rewrite lookup_insert_eq.
      * rewrite lookup_insert_ne by done. destruct (a !! rt'); [|done].
        exists []. by rewrite app_nil_r.
  - by rewrite (update_api_record_raises _ _ _ E).
Qed.

Lemma wrote2_ok rt s a2 f entry :
  only_at rt (api2 s) a2 -> grows (api2 s) a2 ->
  step_ok rt s (wrote2 s a2 f entry).
Proof.
  intros H1 H2. split_and!; try done; try apply grows_refl. by eexists.
Qed.

Lemma wrote1_ok rt s a1 f entry :
  only_at rt (api1 s) a1 -> grows (api1 s) a1 ->
  step_ok rt s (wrote1 s a1 f entry).
Proof.
  intros H1 H2. split_and!; try done; try apply grows_refl. by eexists.
Qed.

Lemma on_error_ok rt s entry : step_ok rt s (on_error s entry).
Proof. split_and!; try done; try apply grows_refl. by eexists. Qed.

Lemma resolve_conflict_ok iso_timestamp strategy rt s c :
  step_ok rt s (resolve_conflict iso_timestamp strategy rt s c).
Proof.
  destruct c as [[k r1] r2]. unfold resolve_conflict.
  destruct (String.eqb strategy "latest_wins").
  { destruct (_ <? _).
    - destruct (_update_api_record (api2 s) rt r1) eqn:E;
        [apply on_error_ok | apply update_touches in E as []; by apply wrote2_ok].
    - split_and!; try done; try apply grows_refl. by eexists. }
  destruct (String.eqb strategy "api1_wins").
  { destruct (_update_api_record (api2 s) rt r1) eqn:E;
      [apply on_error_ok | apply update_touches in E as []; by apply wrote2_ok]. }
  destruct (String.eqb strategy "api2_wins"); [|apply step_ok_refl].
  destruct (_update_api_record (api1 s) rt r2) eqn:E;
    [apply on_error_ok | apply update_touches in E as []; by apply wrote1_ok].
Qed.

Lemma create_in_api2_ok rt d s k : step_ok rt s (create_in_api2 rt d s k).
Proof.
  unfold create_in_api2. destruct (api1_data d !! k) as [r|];
    [|apply on_error_ok].
  destruct (_update_api_record (api2 s) rt r) eqn:E;
    [apply on_error_ok | apply update_touches in E as []; by apply wrote2_ok].
Qed.

Lemma create_in_api1_ok rt d s k : step_ok rt s (create_in_api1 rt d s k).
Proof.
  unfold create_in_api1. destruct (api2_data d !! k) as [r|];
    [|apply on_error_ok].
  destruct (_update_api_record (api1 s) rt r) eqn:E;
    [apply on_error_ok | apply update_touches in E as []; by apply wrote1_ok].
Qed.

Lemma fold_step_ok {A} rt (f : state -> A -> state) :
  (forall s x, step_ok rt s (f s x)) ->
  forall l s, step_ok rt s (fold_left f l s).
Proof.
  intros Hf l. induction l as [|x l IH]; intros s; simpl;
    [apply step_ok_refl|].
  eapply step_ok_trans; [apply Hf | apply IH].
Qed.

Lemma sync_resource_ok iter_set iso_timestamp strategy rt d cs s :
  step_ok rt s (sync_resource iter_set iso_timestamp strategy rt d cs s).
Proof.
  unfold sync_resource.
  eapply step_ok_trans;
    [|apply fold_step_ok; intros; apply create_in_api1_ok].
  eapply step_ok_trans;
    [|apply fold_step_ok; intros; apply create_in_api2_ok].
  apply fold_step_ok. intros. apply resolve_conflict_ok.
Qed.

Lemma sync_loop_ok iter_set iso_timestamp strategy
    (conflicts : gmap string (list conflict)) inters s :
  let s' :=
    fold_left
      (fun s '(resource_type, d) =>
         sync_resource iter_set iso_timestamp strategy resource_type d
           (default [] (conflicts !! resource_type)) s) inters s in
  grows (api1 s) (api1 s') /\ grows (api2 s) (api2 s') /\
  (forall rt, rt ∉ map fst inters ->
     api1 s' !! rt = api1 s !! rt /\ api2 s' !! rt = api2 s !! rt) /\
  exists entries, sync_log s' = sync_log s ++ entries.
Proof.
  revert s. induction inters as [|[rt d] inters IH]; intros s; cbv zeta.
  { simpl. split_and!; try done; try apply grows_refl.
    exists []. by rewrite app_nil_r. }
  cbn [fold_left].
  destruct (sync_resource_ok iter_set iso_timestamp strategy rt d
              (default [] (conflicts !! rt)) s)
    as (A1 & A2 & A3 & A4 & e & A5).
  destruct (IH (sync_resource iter_set iso_timestamp strategy rt d
                  (default [] (conflicts !! rt)) s))
    as (B3 & B4 & B1 & e' & B5).
  split_and!.
  - by eapply grows_trans.
  - by eapply grows_trans.
  - intros rt' Hrt'. cbn [map fst] in Hrt'.
    apply not_elem_of_cons in Hrt' as [Hne Hrt'].
    destruct (B1 rt' Hrt') as [-> ->]. by rewrite A1, A2.
  - exists (e ++ e'). by rewrite B5, A5, app_assoc.
Qed.

(** *** The scan of all resource types *)

Lemma scan_loop_spec a1 a2 rts acc res :
  scan_loop a1 a2 rts acc = Some res ->
  exists new,
    res = acc ++ new /\
    map fst new = List.filter (scanned a1 a2) rts /\
    Forall (fun '(rt, d) =>
              exists l1 l2, a1 !! rt = Some l1 /\ a2 !! rt = Some l2 /\
                            scan_resource l1 l2 = Some d) new.
Proof.
  revert acc. induction rts as [|rt rts IH]; intros acc; simpl.
  { intros [= <-]. exists []. by rewrite app_nil_r. }
  unfold scanned at 1.
  destruct (a1 !! rt) as [l1|] eqn:E1; [destruct (a2 !! rt) as [l2|] eqn:E2|].
  - destruct (scan_resource l1 l2) as [d|] eqn:Ed; [|done].
    intros H. destruct (IH _ H) as (new & -> & Hk & Hall).
    exists ((rt, d) :: new). rewrite <- app_assoc. split; [done|].
    rewrite !bool_decide_eq_true_2 by eauto. simpl. rewrite Hk.
    split; [done|]. constructor; [|done]. eauto.
  - intros H. destruct (IH _ H) as (new & -> & Hk & Hall).
    exists new. split; [done|].
    rewrite (bool_decide_eq_false_2 (is_Some None)) by (by intros [? ?]).
    by rewrite andb_false_r.
  - intros H. destruct (IH _ H) as (new & -> & Hk & Hall).
    exists new. split; [done|].
    by rewrite (bool_decide_eq_false_2 (is_Some None)) by (by intros [? ?]).
Qed.

End ApiWhole.

Module ApiRun.
Import Py Api ApiSpec ApiWholeSpec ListFacts ApiFacts ApiWhole.

Section Two.

Context (iter_set : gset string -> list string).
Context (iso_timestamp : string -> option Z).

#[local] Abbreviation run_resource := (run_resource iter_set iso_timestamp).
#[local] Abbreviation run := (run iter_set iso_timestamp).

Lemma run_resource_unfold strategy rt s d cs s' :
  run_resource strategy rt s = Some (d, cs, s') ->
  exists l1 l2,
    api1 s !! rt = Some l1 /\ api2 s !! rt = Some l2 /\
    scan_resource l1 l2 = Some d /\ detect_resource iter_set d = Some cs /\
    s' = sync_resource iter_set iso_timestamp strategy rt d cs
           {| api1 := api1 s; api2 := api2 s; stats := stats0;
              sync_log := sync_log s |}.
Proof.
  unfold Api.run_resource. intros H.
  destruct (api1 s !! rt) as [l1|] eqn:E1; [|done].
  destruct (api2 s !! rt) as [l2|] eqn:E2; [|done].
  destruct (scan_resource l1 l2) as [d0|] eqn:Ed; [|done].
  destruct (detect_resource iter_set d0) as [cs0|] eqn:Ec; [|done].
  injection H as -> -> <-. exists l1, l2.
  exact (conj eq_refl (conj eq_refl (conj Ed (conj Ec eq_refl)))).
Qed.

Lemma run_resource_step strategy rt s d cs s' :
  run_resource strategy rt s = Some (d, cs, s') -> step_ok rt s s'.
Proof.
  intros H. apply run_resource_unfold in H as (l1 & l2 & _ & _ & _ & _ & ->).
  exact (sync_resource_ok iter_set iso_timestamp strategy rt d cs
           {| api1 := api1 s; api2 := api2 s; stats := stats0;
              sync_log := sync_log s |}).
Qed.

(** scanning and detecting everything first and synchronising afterwards is
    the same as handling the users and then the orders *)
Lemma run_two strategy s0 du cu su do_ co so :
  run_resource strategy "users" s0 = Some (du, cu, su) ->
  run_resource strategy "orders" su = Some (do_, co, so) ->
  run strategy (api1 s0) (api2 s0) (sync_log s0) = Some (shift (stats su) so).
Proof.
  intros H1 H2.
  pose proof (run_resource_step _ _ _ _ _ _ H1) as (F1 & F2 & _).
  apply run_resource_unfold in H1 as (l1u & l2u & E1 & E2 & Ed & Ec & Hsu).
  apply run_resource_unfold in H2 as (l1o & l2o & E3 & E4 & Edo & Eco & Hso).
  rewrite (F1 "orders") in E3 by done. rewrite (F2 "orders") in E4 by done.
  unfold Api.run, scan_intersections, _fetch_api_data. cbn [scan_loop].
  rewrite E1, E2, Ed. cbn [scan_loop]. rewrite E3, E4, Edo. cbn [app].
  unfold detect_conflicts. cbn [detect_conflicts_loop]. rewrite Ec, Eco.
  f_equal. unfold sync_intersections. cbn [fold_left].
  rewrite lookup_insert_eq, lookup_insert_ne by done.
  rewrite lookup_insert_eq. cbn [default from_option Datatypes.id].
  rewrite <- Hsu. rewrite <- (shift_stats0 su) at 1.
  by rewrite sync_resource_shift, <- Hso.
Qed.

(** what the scan and the detection of a run return when both passes do *)
Lemma run_two_parts strategy s0 du cu su do_ co so :
  run_resource strategy "users" s0 = Some (du, cu, su) ->
  run_resource strategy "orders" su = Some (do_, co, so) ->
  scan_intersections (api1 s0) (api2 s0)
  = Some [("users", du); ("orders", do_)] /\
  detect_conflicts iter_set [("users", du); ("orders", do_)]
  = Some (<["orders" := co]> (<["users" := cu]> ∅)).
Proof.
  intros H1 H2.
  pose proof (run_resource_step _ _ _ _ _ _ H1) as (F1 & F2 & _).
  apply run_resource_unfold in H1 as (l1u & l2u & E1 & E2 & Ed & Ec & Hsu).
  apply run_resource_unfold in H2 as (l1o & l2o & E3 & E4 & Edo & Eco & Hso).
  rewrite (F1 "orders") in E3 by done. rewrite (F2 "orders") in E4 by done.
  unfold scan_intersections, _fetch_api_data. cbn [scan_loop].
  rewrite E1, E2, Ed. cbn [scan_loop]. rewrite E3, E4, Edo. cbn [app].
  split; [done|].
  unfold detect_conflicts. cbn [detect_conflicts_loop]. by rewrite Ec, Eco.
Qed.

Lemma total_two (cu co : list conflict) :
  sum_list_with (fun kc : string * list conflict => length kc.2)
    (map_to_list (<["orders" := co]> (<["users" := cu]> (∅ : gmap string _))))
  = (length cu + length co)%nat.
Proof.
  rewrite map_to_list_insert by (by rewrite lookup_insert_ne).
  rewrite map_to_list_insert by apply lookup_empty.
  rewrite map_to_list_empty. simpl. lia.
Qed.

(** under a strategy the engine knows, a conflict is updated or skipped *)
Lemma updated_or_skipped strategy (cs : list conflict) :
  recognised strategy = true ->
  (length (List.filter
             (fun c => writes2 iso_timestamp strategy c || writes1 strategy c)
             cs)
   + length (List.filter (skips iso_timestamp strategy) cs) = length cs)%nat.
Proof.
  intros Hrec. induction cs as [|c cs IH]; [done|]. cbn [List.filter].
  assert ((writes2 iso_timestamp strategy c || writes1 strategy c)
          = negb (skips iso_timestamp strategy c)) as ->.
  { unfold recognised in Hrec. unfold writes2, writes1, skips.
    destruct (String.eqb strategy "latest_wins") eqn:E1.
    - apply String.eqb_eq in E1 as ->. simpl.
      destruct (_ <? _); reflexivity.
    - destruct (String.eqb strategy "api1_wins") eqn:E2; [done|].
      simpl in Hrec. by rewrite Hrec. }
  destruct (skips iso_timestamp strategy c); cbn [negb length]; lia.
Qed.

Hypothesis iter_set_perm : forall X, iter_set X ≡ₚ elements X.

Lemma conflicts_le_common strategy rt s d cs s' :
  run_resource strategy rt s = Some (d, cs, s') ->
  (length cs <= size (common_records d))%nat.
Proof.
  intros H.
  apply (run_resource_spec iter_set iso_timestamp iter_set_perm) in H
    as (l1 & l2 & _ & _ & _ & _ & Hids & _).
  rewrite <- (length_map conflict_id cs), Hids.
  rewrite <- (length_iter_set iter_set iter_set_perm).
  apply filter_length_le.
Qed.

Lemma scanned_lookup a1 a2 rt :
  scanned a1 a2 rt = true ->
  exists l1 l2, a1 !! rt = Some l1 /\ a2 !! rt = Some l2.
Proof.
  unfold scanned. intros H. apply andb_true_iff in H as [H1 H2].
  apply bool_decide_eq_true in H1 as [l1 H1].
  apply bool_decide_eq_true in H2 as [l2 H2]. eauto.
Qed.

(** with both resource types on both servers and an id in every record,
    the two passes return *)
Lemma run_both_total strategy s0 l1u l2u l1o l2o :
  api1 s0 !! "users" = Some l1u -> api2 s0 !! "users" = Some l2u ->
  api1 s0 !! "orders" = Some l1o -> api2 s0 !! "orders" = Some l2o ->
  Forall (fun r => is_Some (record_id r)) (l1u ++ l2u ++ l1o ++ l2o) ->
  exists du cu su do_ co so,
    run_resource strategy "users" s0 = Some (du, cu, su) /\
    run_resource strategy "orders" su = Some (do_, co, so).
Proof.
  intros E1 E2 E3 E4 Hids.
  apply Forall_app in Hids as [Hi1 Hids].
  apply Forall_app in Hids as [Hi2 Hids].
  apply Forall_app in Hids as [Hi3 Hi4].
  destruct (run_resource_total iter_set iso_timestamp iter_set_perm strategy
              "users" s0 l1u l2u E1 E2 Hi1 Hi2)
    as [[[du cu] su] H1].
  pose proof (run_resource_step _ _ _ _ _ _ H1) as (F1 & F2 & _).
  destruct (run_resource_total iter_set iso_timestamp iter_set_perm strategy
              "orders" su l1o l2o) as [[[do_ co] so] H2]; try done.
  - by rewrite (F1 "orders").
  - by rewrite (F2 "orders").
  - by exists du, cu, su, do_, co, so.
Qed.

(** after the two passes a new scan finds nothing that only one server
    has *)
Lemma rescan_both strategy s0 du cu su do_ co so :
  run_resource strategy "users" s0 = Some (du, cu, su) ->
  run_resource strategy "orders" su = Some (do_, co, so) ->
  errors (stats su) = 0%nat /\ errors (stats so) = 0%nat /\
  exists du' do',
    scan_intersections (api1 so) (api2 so)
    = Some [("users", du'); ("orders", do')] /\
    api1_only du' = ∅ /\ api2_only du' = ∅ /\
    api1_only do' = ∅ /\ api2_only do' = ∅.
Proof.
  intros H1 H2.
  destruct (api_propagation iter_set iso_timestamp iter_set_perm _ _ _ _ _ _ H1)
    as (l1u & l2u & du' & E1 & E2 & Eu & _ & _ & Hu1 & Hu2 & Heu).
  destruct (api_propagation iter_set iso_timestamp iter_set_perm _ _ _ _ _ _ H2)
    as (l1o & l2o & do' & E3 & E4 & Eo & _ & _ & Ho1 & Ho2 & Heo).
  pose proof (run_resource_step _ _ _ _ _ _ H2) as (F1 & F2 & _).
  rewrite <- (F1 "users") in E1 by done. rewrite <- (F2 "users") in E2 by done.
  split; [done|]. split; [done|]. exists du', do'.
  split; [|done].
  unfold scan_intersections, _fetch_api_data. cbn [scan_loop].
  rewrite E1, E2, Eu. cbn [scan_loop]. by rewrite E3, E4, Eo.
Qed.

End Two.

End ApiRun.

(** X11 -- The API engine only appends.  Whatever the intersections, the
    conflicts and the strategy handed to [sync_intersections], every list of
    every server is afterwards the list it was with records added at its
    end at most: no record is removed or replaced, no resource type is
    created, the types that are no key of the intersections are untouched,
    and the log is only extended. *)
Theorem X11_api_append_only (iter_set : gset string -> list string)
    (iso_timestamp : string -> option Z)
    (intersections : list (string * Api.scan_result))
    (conflicts : gmap string (list Api.conflict)) (strategy : string)
    (api1_0 api2_0 : Api.api_data) (log0 : list Api.log_entry) :
  let s' := Api.sync_intersections iter_set iso_timestamp intersections
              conflicts strategy api1_0 api2_0 log0 in
  ApiWholeSpec.grows api1_0 (Api.api1 s') /\
  ApiWholeSpec.grows api2_0 (Api.api2 s') /\
  (forall rt, rt ∉ map fst intersections ->
     Api.api1 s' !! rt = api1_0 !! rt /\ Api.api2 s' !! rt = api2_0 !! rt) /\
  exists entries, Api.sync_log s' = log0 ++ entries.
Proof.
  exact (ApiWhole.sync_loop_ok iter_set iso_timestamp strategy conflicts
           intersections
           {| Api.api1 := api1_0; Api.api2 := api2_0; Api.stats := Api.stats0;
              Api.sync_log := log0 |}).
Qed.

(** X12 -- What a run never propagates.  A resource type other than
    ["users"] and ["orders"], and a resource type that one of the servers
    lacks, is skipped by the scan: after the run both servers hold for it
    exactly what they held before, so the records that only one server has
    under such a type are never copied. *)
Theorem X12_unscanned_types_untouched (iter_set : gset string -> list string)
    (iso_timestamp : string -> option Z) (strategy : string)
    (api1_0 api2_0 : Api.api_data) (log0 : list Api.log_entry)
    (s' : Api.state) (rt : string) :
  Api.run iter_set iso_timestamp strategy api1_0 api2_0 log0 = Some s' ->
  rt ∉ ["users"; "orders"] \/ api1_0 !! rt = None \/ api2_0 !! rt = None ->
  Api.api1 s' !! rt = api1_0 !! rt /\ Api.api2 s' !! rt = api2_0 !! rt.
Proof.
  unfold Api.run. intros Hrun Hrt.
  destruct (Api.scan_intersections api1_0 api2_0) as [inters|] eqn:Es; [|done].
  destruct (Api.detect_conflicts iter_set inters) as [confl|]; [|done].
  injection Hrun as <-.
  destruct (ApiWhole.scan_loop_spec _ _ _ _ _ Es) as (new & -> & Hk & _).
  cbn [app].
  apply (ApiWhole.sync_loop_ok iter_set iso_timestamp strategy confl new
           {| Api.api1 := api1_0; Api.api2 := api2_0; Api.stats := Api.stats0;
              Api.sync_log := log0 |}).
  rewrite Hk. intros Hin. apply list_elem_of_In, filter_In in Hin as [Hin Hsc].
  apply list_elem_of_In in Hin.
  apply ApiRun.scanned_lookup in Hsc as (l1 & l2 & E1 & E2).
  unfold Api._fetch_api_data in E1, E2.
  destruct Hrt as [Hrt | [Hrt | Hrt]]; [done | congruence | congruence].
Qed.

Lemma X12_unscanned_types_untouched_witness :
  match Api.run elements Iso.iso_utc "latest_wins" WholeSamples.api1_products
          WholeSamples.api2_users_only [] with
  | Some s' =>
      Api.api1 s' !! "orders" = Some WholeSamples.orders1 /\
      Api.api2 s' !! "orders" = None /\
      Api.api1 s' !! "products" = Some [[("id", Py.JStr "P-1")]] /\
      Api.api2 s' !! "products" = None
  | None => False
  end.
Proof.
  destruct (Api.run elements Iso.iso_utc "latest_wins"
              WholeSamples.api1_products WholeSamples.api2_users_only [])
    as [s'|] eqn:E.
  - destruct (X12_unscanned_types_untouched elements Iso.iso_utc "latest_wins"
                WholeSamples.api1_products WholeSamples.api2_users_only []
                s' "orders" E (or_intror (or_intror eq_refl))) as [H1 H2].
    destruct (X12_unscanned_types_untouched elements Iso.iso_utc "latest_wins"
                WholeSamples.api1_products WholeSamples.api2_users_only []
                s' "products" E (or_intror (or_intror eq_refl))) as [H3 H4].
    exact (conj H1 (conj H2 (conj H3 H4))).
  - vm_compute in E. discriminate E.
Defined.

(** X13 -- A run is the users' pass followed by the orders' pass.  [main]
    scans and detects both resource types before it writes anything; when
    the pass over the users and then the pass over the orders both return,
    the run returns the servers and the log of the second pass, and its
    counters are the sums of the counters of the two passes. *)
Theorem X13_run_composes (iter_set : gset string -> list string)
    (iso_timestamp : string -> option Z) (strategy : string)
    (s0 su so : Api.state) (du do_ : Api.scan_result)
    (cu co : list Api.conflict) :
  Api.run_resource iter_set iso_timestamp strategy "users" s0
  = Some (du, cu, su) ->
  Api.run_resource iter_set iso_timestamp strategy "orders" su
  = Some (do_, co, so) ->
  Api.run iter_set iso_timestamp strategy (Api.api1 s0) (Api.api2 s0)
    (Api.sync_log s0)
  = Some {| Api.api1 := Api.api1 so; Api.api2 := Api.api2 so;
            Api.stats := ApiWholeSpec.stats_add (Api.stats su) (Api.stats so);
            Api.sync_log := Api.sync_log so |}.
Proof. apply ApiRun.run_two. Qed.

Lemma X13_run_composes_witness :
  match Api.run_resource elements Iso.iso_utc "latest_wins" "users"
          WholeSamples.state with
  | Some (du, cu, su) =>
      match Api.run_resource elements Iso.iso_utc "latest_wins" "orders" su with
      | Some (do_, co, so) =>
          Api.stats <$> Api.run elements Iso.iso_utc "latest_wins"
                          WholeSamples.api1 WholeSamples.api2 []
          = Some (ApiWholeSpec.stats_add (Api.stats su) (Api.stats so))
      | None => False
      end
  | None => False
  end.
Proof.
  destruct (Api.run_resource elements Iso.iso_utc "latest_wins" "users"
              WholeSamples.state) as [[[du cu] su]|] eqn:E1.
  - destruct (Api.run_resource elements Iso.iso_utc "latest_wins" "orders" su)
      as [[[do_ co] so]|] eqn:E2.
    + pose proof (X13_run_composes elements Iso.iso_utc "latest_wins"
                    WholeSamples.state su so du do_ cu co E1 E2) as H.
      change (Api.api1 WholeSamples.state) with WholeSamples.api1 in H.
      change (Api.api2 WholeSamples.state) with WholeSamples.api2 in H.
      change (Api.sync_log WholeSamples.state) with (@nil Api.log_entry) in H.
      rewrite H. reflexivity.
    + vm_compute in E1. injection E1 as _ _ <-. vm_compute in E2.
      discriminate E2.
  - vm_compute in E1. discriminate E1.
Defined.

(** X14 -- A whole run leaves nothing exclusive.  When both servers hold
    users and orders and every record carries a string id, the run returns
    without a counted error, under every strategy, and a scan of the two
    servers afterwards finds both resource types with nothing that only
    API-1 or only API-2 has. *)
Theorem X14_run_propagates_both (iter_set : gset string -> list string)
    (iso_timestamp : string -> option Z) (strategy : string)
    (api1_0 api2_0 : Api.api_data) (log0 : list Api.log_entry)
    (l1u l2u l1o l2o : list Py.pydict) :
  (forall X, iter_set X ≡ₚ elements X) ->
  api1_0 !! "users" = Some l1u -> api2_0 !! "users" = Some l2u ->
  api1_0 !! "orders" = Some l1o -> api2_0 !! "orders" = Some l2o ->
  Forall (fun r => is_Some (Api.record_id r)) (l1u ++ l2u ++ l1o ++ l2o) ->
  exists s' du' do',
    Api.run iter_set iso_timestamp strategy api1_0 api2_0 log0 = Some s' /\
    Api.errors (Api.stats s') = 0%nat /\
    Api.scan_intersections (Api.api1 s') (Api.api2 s')
    = Some [("users", du'); ("orders", do')] /\
    Api.api1_only du' = ∅ /\ Api.api2_only du' = ∅ /\
    Api.api1_only do' = ∅ /\ Api.api2_only do' = ∅.
Proof.
  intros Hperm E1 E2 E3 E4 Hids.
  set (s0 := {| Api.api1 := api1_0; Api.api2 := api2_0;
                Api.stats := Api.stats0; Api.sync_log := log0 |}).
  destruct (ApiRun.run_both_total iter_set iso_timestamp Hperm strategy s0
              l1u l2u l1o l2o E1 E2 E3 E4 Hids)
    as (du & cu & su & do_ & co & so & H1 & H2).
  destruct (ApiRun.rescan_both iter_set iso_timestamp Hperm strategy s0
              du cu su do_ co so H1 H2)
    as (Heu & Heo & du' & do' & Hscan & Hx).
  exists (ApiWholeSpec.shift (Api.stats su) so), du', do'.
  split; [exact (ApiRun.run_two iter_set iso_timestamp strategy s0
                   du cu su do_ co so H1 H2)|].
  split; [simpl; by rewrite Heu, Heo|]. by split.
Qed.

Lemma X14_run_propagates_both_witness :
  exists s' du' do',
    Api.run elements Iso.iso_utc "latest_wins" WholeSamples.api1
      WholeSamples.api2 [] = Some s' /\
    Api.errors (Api.stats s') = 0%nat /\
    Api.scan_intersections (Api.api1 s') (Api.api2 s')
    = Some [("users", du'); ("orders", do')] /\
    Api.api1_only du' = ∅ /\ Api.api2_only du' = ∅ /\
    Api.api1_only do' = ∅ /\ Api.api2_only do' = ∅.
Proof.
  apply (X14_run_propagates_both elements Iso.iso_utc "latest_wins"
           WholeSamples.api1 WholeSamples.api2 []
           Samples.users1 Samples.users2
           WholeSamples.orders1 WholeSamples.orders2
           (fun X => reflexivity (elements X))
           eq_refl eq_refl eq_refl eq_refl).
  repeat constructor; by eexists.
Defined.

(** X15 -- The fields that [_get_different_fields] returns.  Whatever the
    order in which the set of keys is visited, a key is returned exactly
    when one of the two dictionaries holds it and the two values that
    [get] gives for it are not equal, and no key is returned twice. *)
Theorem X15_different_fields (iter_set : gset string -> list string)
    (data1 data2 : Py.pydict) :
  (forall X, iter_set X ≡ₚ elements X) ->
  (forall key,
     key ∈ Api._get_different_fields iter_set data1 data2 <->
     (key ∈ Py.keys data1 \/ key ∈ Py.keys data2) /\
     Py.py_eq (Py.get key data1) (Py.get key data2) = false) /\
  NoDup (Api._get_different_fields iter_set data1 data2).
Proof.
  intros Hperm. unfold Api._get_different_fields. split.
  - intros key. rewrite list_elem_of_In, filter_In, <- list_elem_of_In.
    rewrite (ApiFacts.elem_of_iter_set _ Hperm), elem_of_union.
    rewrite !elem_of_list_to_set, negb_true_iff. done.
  - apply ListFacts.filter_bool_NoDup. rewrite (Hperm _). apply NoDup_elements.
Qed.

Lemma X15_different_fields_witness :
  ("nickname" ∉ Api._get_different_fields elements Samples.with_null
                  Samples.without_field) /\
  NoDup (Api._get_different_fields elements Samples.ion Samples.ion_reordered).
Proof.
  split.
  - intros Hin.
    apply (X15_different_fields elements Samples.with_null
             Samples.without_field (fun X => reflexivity (elements X)))
      in Hin as [_ Hne].
    vm_compute in Hne. discriminate Hne.
  - exact (proj2 (X15_different_fields elements Samples.ion
                    Samples.ion_reordered (fun X => reflexivity (elements X)))).
Defined.

(** X16 -- A record without a timestamp under [latest_wins].  A record of
    API-1 that has neither [last_login] nor [created_at] gets the empty
    string as its time of modification; [fromisoformat] rejects it and
    [_parse_timestamp] answers 0.0.  Against a record of API-2 whose time is
    not before 1970 such a record never wins: the conflict is skipped and
    nothing is written. *)
Theorem X16_no_timestamp_never_wins (iso_timestamp : string -> option Z)
    (rt k : string) (r1 : Py.pydict) (x2 : Api.APIRecord) (s : Api.state) :
  iso_timestamp EmptyString = None ->
  Py.dict_get "last_login" r1 = None -> Py.dict_get "created_at" r1 = None ->
  0 <= Api._parse_timestamp iso_timestamp (Api.last_modified x2) ->
  Api.resolve_conflict iso_timestamp "latest_wins" rt s
    (k, Api.make_record "API-1" k r1, x2)
  = {| Api.api1 := Api.api1 s; Api.api2 := Api.api2 s;
       Api.stats := Api.add_skipped (Api.stats s);
       Api.sync_log := Api.sync_log s ++ [Api.Skipped rt k "API-2 newer"] |}.
Proof.
  intros Hiso Hl Hc Hpos.
  apply ApiFacts.resolve_latest_not_newer.
  unfold Api.make_record, Api.new_APIRecord, Py.get_default.
  cbn [Api.last_modified]. rewrite Hl, Hc.
  unfold Api._parse_timestamp at 1. cbn [Py.replace_char]. by rewrite Hiso.
Qed.

Lemma X16_no_timestamp_never_wins_witness :
  Api.stats
    (Api.resolve_conflict Iso.iso_utc "latest_wins" "users" Samples.api_state
       ("1", Api.make_record "API-1" "1" Samples.without_field,
        Api.make_record "API-2" "1" Samples.ion))
  = Api.add_skipped Api.stats0.
Proof.
  by rewrite (X16_no_timestamp_never_wins Iso.iso_utc "users" "1"
                Samples.without_field (Api.make_record "API-2" "1" Samples.ion)
                Samples.api_state eq_refl eq_refl eq_refl
                ltac:(by vm_compute)).
Defined.

(** X17 -- The report of the API engine adds up.  When both servers hold
    users and orders and every record carries a string id, the run returns
    and its report is consistent: the conflicts do not outnumber the
    intersections, the total of the conflicts is the sum of the lines of
    the resource types, no error is reported, and under a strategy that the
    engine knows every conflict was either updated or skipped, while under
    any other strategy none was. *)
Theorem X17_api_report_adds_up (iter_set : gset string -> list string)
    (iso_timestamp : string -> option Z) (strategy : string)
    (api1_0 api2_0 : Api.api_data) (log0 : list Api.log_entry)
    (l1u l2u l1o l2o : list Py.pydict) :
  (forall X, iter_set X ≡ₚ elements X) ->
  api1_0 !! "users" = Some l1u -> api2_0 !! "users" = Some l2u ->
  api1_0 !! "orders" = Some l1o -> api2_0 !! "orders" = Some l2o ->
  Forall (fun r => is_Some (Api.record_id r)) (l1u ++ l2u ++ l1o ++ l2o) ->
  exists intersections conflicts s',
    Api.scan_intersections api1_0 api2_0 = Some intersections /\
    Api.detect_conflicts iter_set intersections = Some conflicts /\
    Api.run iter_set iso_timestamp strategy api1_0 api2_0 log0 = Some s' /\
    let r := ApiReport.generate_sync_report intersections conflicts
               (Api.stats s') (Api.sync_log s') in
    (ApiReport.total_conflicts r <= ApiReport.total_intersections r)%nat /\
    sum_list_with (fun x : string * nat * nat => x.2) (ApiReport.per_type r)
    = ApiReport.total_conflicts r /\
    ApiReport.errors_reported r = 0%nat /\
    (ApiReport.records_updated r + ApiReport.records_skipped r
     = if ApiSpec.recognised strategy then ApiReport.total_conflicts r
       else 0)%nat.
Proof.
  intros Hperm E1 E2 E3 E4 Hids.
  set (s0 := {| Api.api1 := api1_0; Api.api2 := api2_0;
                Api.stats := Api.stats0; Api.sync_log := log0 |}).
  destruct (ApiRun.run_both_total iter_set iso_timestamp Hperm strategy s0
              l1u l2u l1o l2o E1 E2 E3 E4 Hids)
    as (du & cu & su & do_ & co & so & H1 & H2).
  destruct (ApiRun.run_two_parts iter_set iso_timestamp strategy s0
              du cu su do_ co so H1 H2) as [Hscan Hdet].
  pose proof (ApiRun.run_two iter_set iso_timestamp strategy s0
                du cu su do_ co so H1 H2) as Hrun.
  pose proof (ApiRun.conflicts_le_common iter_set iso_timestamp Hperm
                _ _ _ _ _ _ H1) as Hle1.
  pose proof (ApiRun.conflicts_le_common iter_set iso_timestamp Hperm
                _ _ _ _ _ _ H2) as Hle2.
  apply (ApiFacts.run_resource_spec iter_set iso_timestamp Hperm) in H1
    as (_ & _ & _ & _ & _ & _ & _ & _ & _ & Hu1 & Hs1 & He1 & _).
  apply (ApiFacts.run_resource_spec iter_set iso_timestamp Hperm) in H2
    as (_ & _ & _ & _ & _ & _ & _ & _ & _ & Hu2 & Hs2 & He2 & _).
  eexists _, _, _. split; [exact Hscan|]. split; [exact Hdet|].
  split; [exact Hrun|]. cbv zeta.
  unfold ApiReport.generate_sync_report.
  cbn [ApiReport.total_conflicts ApiReport.total_intersections
       ApiReport.per_type ApiReport.errors_reported
       ApiReport.records_updated ApiReport.records_skipped].
  rewrite ApiRun.total_two.
  cbn [map sum_list_with fst snd].
  rewrite lookup_insert_ne by done. rewrite !lookup_insert_eq.
  cbn [default from_option Datatypes.id].
  unfold ApiWholeSpec.shift, ApiWholeSpec.stats_add.
  cbn [Api.stats Api.updated Api.skipped Api.errors].
  rewrite Hu1, Hu2, Hs1, Hs2, He1, He2.
  split_and!; [lia | lia | done |].
  destruct (ApiSpec.recognised strategy) eqn:Hrec.
  - pose proof (ApiRun.updated_or_skipped iso_timestamp strategy cu Hrec).
    pose proof (ApiRun.updated_or_skipped iso_timestamp strategy co Hrec).
    lia.
  - destruct (ApiUnrecognised.writes_unrecognised iso_timestamp strategy cu Hrec)
      as (_ & _ & -> & ->).
    destruct (ApiUnrecognised.writes_unrecognised iso_timestamp strategy co Hrec)
      as (_ & _ & -> & ->).
    done.
Qed.

Lemma X17_api_report_adds_up_witness :
  exists intersections conflicts s',
    Api.scan_intersections WholeSamples.api1 WholeSamples.api2
    = Some intersections /\
    Api.detect_conflicts elements intersections = Some conflicts /\
    Api.run elements Iso.iso_utc "api1_wins" WholeSamples.api1
      WholeSamples.api2 [] = Some s' /\
    (Api.updated (Api.stats s') + Api.skipped (Api.stats s')
     = ApiReport.total_conflicts
         (ApiReport.generate_sync_report intersections conflicts
            (Api.stats s') (Api.sync_log s')))%nat.
Proof.
  destruct (X17_api_report_adds_up elements Iso.iso_utc "api1_wins"
              WholeSamples.api1 WholeSamples.api2 []
              Samples.users1 Samples.users2
              WholeSamples.orders1 WholeSamples.orders2
              (fun X => reflexivity (elements X))
              eq_refl eq_refl eq_refl eq_refl
              ltac:(repeat constructor; by eexists))
    as (inters & confl & s' & Hs & Hd & Hr & _ & _ & _ & Hc).
  exists inters, confl, s'. exact (conj Hs (conj Hd (conj Hr Hc))).
Defined.

(** ** The rows that a run of the database engine can write *)

Module DbWrites.
Import Py Db DbSpec ListFacts DbFacts DbTables DbRun DbScan.

Lemma update_record_rows db r db' :
  _update_record db r = inr db' ->
  forall y, y ∈ db' -> y ∈ db \/ y = row_of r.
Proof.
  unfold _update_record.
  destruct (existsb (fun r0 => row_id r0 =? id r) db); [|by intros [= <-]; left].
  destruct (existsb _ db); [done|]. intros [= <-] y Hy.
  apply list_elem_of_In, in_map_iff in Hy as (x & <- & Hx).
  destruct (row_id x =? id r); [by right | left; by apply list_elem_of_In].
Qed.

Lemma apply_strategy_rows strategy s a b src tgt :
  apply_strategy strategy s a b = inr (src, tgt) ->
  (forall y, y ∈ src -> y ∈ source_db s \/ y = row_of b) /\
  (forall y, y ∈ tgt -> y ∈ target_db s \/ y = row_of a).
Proof.
  unfold apply_strategy.
  destruct (String.eqb strategy "source_wins").
  { destruct (_update_record (target_db s) a) as [|t] eqn:E; [done|].
    intros [= <- <-]. split; [by left|]. by apply update_record_rows. }
  destruct (String.eqb strategy "target_wins").
  { destruct (_update_record (source_db s) b) as [|t] eqn:E; [done|].
    intros [= <- <-]. split; [|by left]. by apply update_record_rows. }
  destruct (String.eqb strategy "latest_wins");
    [|intros [= <- <-]; split; by left].
  destruct (text_gt _ _) as [|newer]; [done|].
  destruct (Record_eqb _ a).
  - destruct (_update_record (target_db s) a) as [|t] eqn:E; [done|].
    intros [= <- <-]. split; [by left|]. by apply update_record_rows.
  - destruct (_update_record (source_db s) b) as [|t] eqn:E; [done|].
    intros [= <- <-]. split; [|by left]. by apply update_record_rows.
Qed.

(** step 1 over entries that all hold the records [a] and [b] *)
Lemma fold_sync_pair_rows strategy a b items s :
  Forall (fun kp : Z * pair => source kp.2 = a /\ target kp.2 = b) items ->
  let s' := fold_left (sync_pair strategy) items s in
  (forall y, y ∈ source_db s' -> y ∈ source_db s \/ y = row_of b) /\
  (forall y, y ∈ target_db s' -> y ∈ target_db s \/ y = row_of a).
Proof.
  intros Hall. revert s.
  induction Hall as [|[k p] items [Ha Hb] _ IH]; intros s; cbv zeta;
    [split; by left|].
  cbn [fold_left]. simpl in Ha, Hb.
  destruct (IH (sync_pair strategy s (k, p))) as [IH1 IH2].
  assert ((forall y, y ∈ source_db (sync_pair strategy s (k, p)) ->
             y ∈ source_db s \/ y = row_of b) /\
          (forall y, y ∈ target_db (sync_pair strategy s (k, p)) ->
             y ∈ target_db s \/ y = row_of a)) as [S1 S2].
  { unfold sync_pair. destruct (negb _); [|split; by left].
    rewrite Ha, Hb.
    destruct (apply_strategy strategy s a b) as [e|[src tgt]] eqn:E;
      [split; by left|].
    exact (apply_strategy_rows _ _ _ _ _ _ E). }
  split.
  - intros y Hy. destruct (IH1 y Hy) as [H|H]; [by apply S1 | by right].
  - intros y Hy. destruct (IH2 y Hy) as [H|H]; [by apply S2 | by right].
Qed.

(** step 1 over the entries of a scan *)
Lemma fold_sync_pair_heads strategy (srcs tgts : list Record_) items s :
  Forall (fun kp : Z * pair => head srcs = Some (source kp.2) /\
                               head tgts = Some (target kp.2)) items ->
  let s' := fold_left (sync_pair strategy) items s in
  (forall y, y ∈ source_db s' ->
     y ∈ source_db s \/ head (map row_of tgts) = Some y) /\
  (forall y, y ∈ target_db s' ->
     y ∈ target_db s \/ head (map row_of srcs) = Some y).
Proof.
  intros Hall. cbv zeta. destruct items as [|[k0 p0] rest]; [split; by left|].
  pose proof (Forall_inv Hall) as [Ha Hb]. simpl in Ha, Hb.
  destruct (fold_sync_pair_rows strategy (source p0) (target p0)
              ((k0, p0) :: rest) s) as [R1 R2].
  { eapply Forall_impl; [exact Hall|]. intros kp [H1 H2]. split; congruence. }
  assert (head (map row_of srcs) = Some (row_of (source p0))) as Hs
    by (destruct srcs; simpl in *; congruence).
  assert (head (map row_of tgts) = Some (row_of (target p0))) as Ht
    by (destruct tgts; simpl in *; congruence).
  split.
  - intros y Hy. destruct (R1 y Hy) as [H | ->]; [by left | by right].
  - intros y Hy. destruct (R2 y Hy) as [H | ->]; [by left | by right].
Qed.

End DbWrites.

(** X18 -- The rows that a run can write.  Because every entry of
    ["intersection"] holds the first record of the source and the first
    record of the target, step 1 writes nothing else, whatever the strategy
    and however many conflicts it counts: after a run every row of the
    source is a row it had or the first row of the target, and every row of
    the target is a row it had, the first row of the source, or a row of
    the source whose id the target lacked. *)
Theorem X18_rows_a_run_writes (strategy : string) (src tgt : Db.table)
    (log0 : list Db.log_entry) :
  Db.table_okb src = true ->
  exists cs s',
    Db.run strategy src tgt log0 = inr (cs, s') /\
    (forall y, y ∈ Db.source_db s' -> y ∈ src \/ head tgt = Some y) /\
    (forall y, y ∈ Db.target_db s' ->
       y ∈ tgt \/ head src = Some y \/
       (y ∈ src /\ Db.row_id y ∉ DbSpec.ids tgt)).
Proof.
  intros Hs.
  destruct (DbTables.run_unfold strategy src tgt log0)
    as (sc & Hsc & Hso & _ & Hrun).
  eexists _, _. split; [exact Hrun|].
  destruct (DbRun.scan_intersection_spec src tgt sc Hs Hsc) as [_ Hall].
  set (s0 := {| Db.source_db := src; Db.target_db := tgt;
                Db.stats := Db.stats0; Db.sync_log := log0 |}).
  set (s1 := fold_left (Db.sync_pair strategy) (Db.intersection sc) s0).
  destruct (DbWrites.fold_sync_pair_heads strategy (Db._load_records src)
              (Db._load_records tgt) (Db.intersection sc) s0 Hall) as [S1 S2].
  rewrite !DbFacts.row_of_load in S1, S2. fold s1 in S1, S2.
  split.
  - destruct (DbRun.fold_insert_counts (Db.source_only sc) s1) as (-> & _).
    exact S1.
  - intros y Hy. apply DbRun.fold_insert_rows in Hy as [Hy | (r & Hr & ->)].
    + destruct (S2 y Hy) as [H | H]; [by left | right; by left].
    + right. right. rewrite Hso in Hr.
      apply list_elem_of_In, filter_In in Hr as [Hr Hdec].
      apply list_elem_of_In in Hr. apply bool_decide_eq_true in Hdec.
      unfold Db.ids_partition in Hdec. simpl in Hdec.
      apply elem_of_difference in Hdec as [_ Hdec].
      rewrite elem_of_list_to_set, DbFacts.ids_load in Hdec.
      split; [|done].
      rewrite <- (DbFacts.row_of_load src). by apply list_elem_of_fmap_2.
Qed.

Lemma X18_rows_a_run_writes_witness :
  exists cs s',
    Db.run "source_wins" Samples.source_table Samples.target_table []
    = inr (cs, s') /\
    (forall y, y ∈ Db.source_db s' ->
       y ∈ Samples.source_table \/ head Samples.target_table = Some y).
Proof.
  destruct (X18_rows_a_run_writes "source_wins" Samples.source_table
              Samples.target_table [] eq_refl) as (cs & s' & Hrun & H1 & _).
  exists cs, s'. exact (conj Hrun H1).
Defined.
